(** * Operational scripts of largo-chat: a shallow embedding

    The development follows three scripts of the repository:

    - [scripts/upgrade-milvus-to-cluster.sh]: the standalone-to-cluster
      upgrade, with the Python programs of its backup and restore jobs;
    - the endpoint wait loop [wait_for_lb];
    - the IAM create-or-get steps of the two access bootstrap scripts.

    External systems (Milvus, S3, IAM, the cluster, the terminal) are
    replaced by fakes: plain data that answers the calls the scripts make. *)

From Stdlib Require Import ZArith List Ascii String Bool Lia.
From stdpp Require Import base option list gmap strings sorting pretty.
From Equations Require Import Equations.

Local Open Scope string_scope.

(* ===================================================================== *)
(** * Strings, as Python and the shell see them *)
(* ===================================================================== *)

Module Str.

(** [needle in hay] on Python strings: substring test. *)
Fixpoint py_in (needle hay : string) : bool :=
  String.prefix needle hay ||
  match hay with
  | EmptyString => false
  | String _ rest => py_in needle rest
  end.

(** [s.endswith(suffix)]. *)
Fixpoint endswith (s suffix : string) : bool :=
  String.eqb s suffix ||
  match s with
  | EmptyString => false
  | String _ rest => endswith rest suffix
  end.

(** [s.split(sep)] for a one-character separator. *)
Fixpoint split (sep : ascii) (s : string) : list string :=
  match s with
  | EmptyString => [EmptyString]
  | String c rest =>
      if Ascii.eqb c sep then EmptyString :: split sep rest
      else match split sep rest with
           | [] => [String c EmptyString]
           | w :: ws => String c w :: ws
           end
  end.

(** No occurrence of the character [c]. *)
Fixpoint lacks (c : ascii) (s : string) : bool :=
  match s with
  | EmptyString => true
  | String a rest => negb (Ascii.eqb a c) && lacks c rest
  end.

(** The shell's [=~ ^[Yy]$]: the whole word is one letter y. *)
Definition is_yes (answer : string) : bool :=
  String.eqb answer "y" || String.eqb answer "Y".

(** [grep -q 1] on a short command output. *)
Definition grep_q (pat out : string) : bool := py_in pat out.

(** Quote removal of the shell inside a word that starts single-quoted:
    every single quote toggles quoting and is dropped.  The text between
    two quoted parts is kept as it is when it holds no shell
    metacharacter, which is the case for every text this is applied to. *)
Fixpoint sh_single_quote_removal (s : string) : string :=
  match s with
  | EmptyString => EmptyString
  | String c rest =>
      if Ascii.eqb c "'"%char then sh_single_quote_removal rest
      else String c (sh_single_quote_removal rest)
  end.

Definition digit (d : Z) : ascii :=
  ascii_of_nat (48 + Z.to_nat (d mod 10)).

Definition pad2 (n : Z) : string :=
  String (digit (n / 10)) (String (digit n) EmptyString).

Definition pad4 (n : Z) : string :=
  String (digit (n / 1000)) (String (digit (n / 100)) (pad2 n)).

(** The decimal digits of a number that is not negative, the most
    significant first, in front of [acc]. *)
Fixpoint digits (fuel : nat) (n : Z) (acc : string) : string :=
  match fuel with
  | O => acc
  | S fuel' =>
      if (n <? 10)%Z then String (digit n) acc
      else digits fuel' (n / 10) (String (digit n) acc)
  end.

Definition decimal (n : Z) : string :=
  digits (S (Z.to_nat (Z.log2 n))) n EmptyString.

End Str.

(* ===================================================================== *)
(** * A state and exception monad for the scripts *)
(* ===================================================================== *)

Definition Eff (St Ex A : Type) : Type := St -> (Ex + A) * St.

Definition pure {St Ex A} (a : A) : Eff St Ex A := fun s => (inr a, s).
Definition raise {St Ex A} (e : Ex) : Eff St Ex A := fun s => (inl e, s).
Definition bind {St Ex A B} (c : Eff St Ex A) (k : A -> Eff St Ex B)
  : Eff St Ex B :=
  fun s => match c s with
           | (inl e, s') => (inl e, s')
           | (inr a, s') => k a s'
           end.
Definition get {St Ex} : Eff St Ex St := fun s => (inr s, s).
Definition modify {St Ex} (f : St -> St) : Eff St Ex unit :=
  fun s => (inr tt, f s).

Notation "x <~ c ;; k" := (bind c (fun x => k))
  (at level 100, c at next level, right associativity).
Notation "c ;;; k" := (bind c (fun _ => k))
  (at level 100, right associativity).

(** [for x in l: body]. *)
Fixpoint for_each {St Ex A} (body : A -> Eff St Ex unit) (l : list A)
  : Eff St Ex unit :=
  match l with
  | [] => pure tt
  | x :: rest => body x ;;; for_each body rest
  end.

(** [try: c  except <caught>: handler]. *)
Definition try_except {St Ex A} (c : Eff St Ex A) (caught : Ex -> bool)
    (handler : Ex -> Eff St Ex A) : Eff St Ex A :=
  fun s => match c s with
           | (inl e, s') => if caught e then handler e s' else (inl e, s')
           | r => r
           end.

(* ===================================================================== *)
(** * The Milvus and S3 fakes, and the JSON documents of a backup *)
(* ===================================================================== *)

(** The members of pymilvus' [DataType] that a schema can carry.  The
    restore program names five of them. *)
Inductive DataType :=
  | BOOL | INT8 | INT16 | INT32 | INT64 | FLOAT | DOUBLE
  | VARCHAR | JSON | BINARY_VECTOR | FLOAT_VECTOR.

Definition DataType_eqb (a b : DataType) : bool :=
  match a, b with
  | BOOL, BOOL | INT8, INT8 | INT16, INT16 | INT32, INT32 | INT64, INT64
  | FLOAT, FLOAT | DOUBLE, DOUBLE | VARCHAR, VARCHAR | JSON, JSON
  | BINARY_VECTOR, BINARY_VECTOR | FLOAT_VECTOR, FLOAT_VECTOR => true
  | _, _ => false
  end.

(** [str(field.dtype)], written [DataType.<MEMBER>] as in the keys of the
    restore program's table. *)
Definition str_dtype (d : DataType) : string :=
  "DataType." ++
  match d with
  | BOOL => "BOOL" | INT8 => "INT8" | INT16 => "INT16" | INT32 => "INT32"
  | INT64 => "INT64" | FLOAT => "FLOAT" | DOUBLE => "DOUBLE"
  | VARCHAR => "VARCHAR" | JSON => "JSON"
  | BINARY_VECTOR => "BINARY_VECTOR" | FLOAT_VECTOR => "FLOAT_VECTOR"
  end.

(** A dict of integer parameters, such as [{"dim": 128}]. *)
Definition params_dict := list (string * Z).

Fixpoint dict_get (key : string) (d : params_dict) : option Z :=
  match d with
  | [] => None
  | (k, v) :: rest => if String.eqb k key then Some v else dict_get key rest
  end.

Record FieldSchema := {
  name : string;
  description : string;
  dtype : DataType;
  is_primary : bool;
  auto_id : bool;
  params : params_dict;
}.

Record CollectionSchema := {
  fields : list FieldSchema;
  schema_description : string;
}.

#[global] Instance DataType_eq_dec : EqDecision DataType.
Proof. solve_decision. Defined.

#[global] Instance FieldSchema_eq_dec : EqDecision FieldSchema.
Proof. solve_decision. Defined.

Record Index := {
  field_name : string;
  index_type : string;
  index_params : params_dict;
}.

Record Collection := {
  schema : CollectionSchema;
  indexes : list Index;
}.

(** The documents written by [json.dump] and read back by [json.load].
    A key of a dict may be absent, hence the options. *)
Record field_dict := {
  fd_name : option string;
  fd_description : option string;
  fd_type : option string;
  fd_is_primary : option bool;
  fd_auto_id : option bool;
  fd_params : option params_dict;
}.

Record schema_dict := {
  sd_name : option string;
  sd_description : option string;
  sd_fields : option (list field_dict);
}.

Record index_dict := {
  ix_field_name : option string;
  ix_index_type : option string;
  ix_params : option params_dict;
}.

Inductive s3_object :=
  | SchemaJson (d : schema_dict)
  | IndexesJson (l : list index_dict).

(** Python exceptions.  [SystemExit] is not an [Exception]. *)
Inductive pyexc :=
  | KeyError (key : string)
  | TypeError (msg : string)
  | NameError (msg : string)
  | ClientError (msg : string)
  | MilvusException (msg : string)
  | SystemExit (code : Z).

Definition is_Exception (e : pyexc) : bool :=
  match e with SystemExit _ => false | _ => true end.

Definition str_exc (e : pyexc) : string :=
  match e with
  | KeyError k => k
  | TypeError m | NameError m | ClientError m | MilvusException m => m
  | SystemExit c => ""
  end.

(** Calls made on the fakes, in the order they are made. *)
Inductive api_call :=
  | Connect
  | Sleep (seconds : Z)
  | ListObjects (prefix : string)
  | Download (key : string)
  | Upload (key : string)
  | HasCollection (collection_name : string)
  | DropCollection (collection_name : string)
  | CreateCollection (collection_name : string)
  | CreateIndex (collection_name field : string).

(** What a job's Python program runs against. *)
Record pyworld := {
  milvus : gmap string Collection;
  refused_connects : nat;           (* attempts the server still refuses *)
  server_rejects : string -> CollectionSchema -> bool;
  bucket : gmap string s3_object;   (* the backup bucket *)
  stdout : list string;
  api : list api_call;
}.

Definition Py (A : Type) : Type := Eff pyworld pyexc A.

Definition with_milvus (f : gmap string Collection -> gmap string Collection)
    (w : pyworld) : pyworld :=
  {| milvus := f (milvus w); refused_connects := refused_connects w;
     server_rejects := server_rejects w; bucket := bucket w;
     stdout := stdout w; api := api w |}.

Definition with_bucket (f : gmap string s3_object -> gmap string s3_object)
    (w : pyworld) : pyworld :=
  {| milvus := milvus w; refused_connects := refused_connects w;
     server_rejects := server_rejects w; bucket := f (bucket w);
     stdout := stdout w; api := api w |}.

Definition with_refused (n : nat) (w : pyworld) : pyworld :=
  {| milvus := milvus w; refused_connects := n;
     server_rejects := server_rejects w; bucket := bucket w;
     stdout := stdout w; api := api w |}.

Definition print (line : string) : Py unit :=
  modify (fun w =>
    {| milvus := milvus w; refused_connects := refused_connects w;
       server_rejects := server_rejects w; bucket := bucket w;
       stdout := stdout w ++ [line]; api := api w |}).

Definition call (c : api_call) : Py unit :=
  modify (fun w =>
    {| milvus := milvus w; refused_connects := refused_connects w;
       server_rejects := server_rejects w; bucket := bucket w;
       stdout := stdout w; api := api w ++ [c] |}).

(** [d[key]] on a dict read from JSON. *)
Definition require {A} (key : string) (o : option A) : Py A :=
  match o with
  | Some a => pure a
  | None => raise (KeyError ("'" ++ key ++ "'"))
  end.

(** ** The fake client libraries *)

(** [connections.connect]: [true] when the connection is made. *)
Definition connect : Py bool :=
  call Connect ;;;
  w <~ get ;;
  match refused_connects w with
  | O => pure true
  | S n => modify (with_refused n) ;;; pure false
  end.

Definition time_sleep (seconds : Z) : Py unit := call (Sleep seconds).

(** S3 lists keys in ascending order, at most 1000 per response. *)
Definition sorted_keys (b : gmap string s3_object) : list string :=
  merge_sort (fun a c => Is_true (String.leb a c)) (map fst (map_to_list b)).

(** [s3.list_objects_v2(Bucket=..., Prefix=prefix)]: the keys under
    [Contents], or [None] when the response has no such entry. *)
Definition list_objects_v2 (prefix : string) : Py (option (list string)) :=
  call (ListObjects prefix) ;;;
  w <~ get ;;
  match take 1000 (filter (fun k => Is_true (String.prefix prefix k))
                          (sorted_keys (bucket w))) with
  | [] => pure None
  | ks => pure (Some ks)
  end.

(** [s3.download_file] followed by [json.load]. *)
Definition download_json (key : string) : Py s3_object :=
  call (Download key) ;;;
  w <~ get ;;
  match bucket w !! key with
  | Some o => pure o
  | None => raise (ClientError "An error occurred (404): Not Found")
  end.

(** [json.dump] followed by [s3.upload_file]. *)
Definition upload_json (key : string) (o : s3_object) : Py unit :=
  call (Upload key) ;;;
  modify (with_bucket (insert key o)).

Definition list_collections : Py (list string) :=
  w <~ get ;; pure (map fst (map_to_list (milvus w))).

Definition get_collection (collection_name : string) : Py Collection :=
  w <~ get ;;
  match milvus w !! collection_name with
  | Some c => pure c
  | None => raise (MilvusException "collection not found")
  end.

Definition has_collection (collection_name : string) : Py bool :=
  call (HasCollection collection_name) ;;;
  w <~ get ;;
  pure (bool_decide (is_Some (milvus w !! collection_name))).

Definition drop_collection (collection_name : string) : Py unit :=
  call (DropCollection collection_name) ;;;
  modify (with_milvus (delete collection_name)).

(** [Collection(name=..., schema=...)]: an existing collection of the same
    schema is opened, one of another schema is refused, a missing one is
    created unless the server rejects the schema. *)
Definition new_Collection (collection_name : string) (s : CollectionSchema)
  : Py unit :=
  call (CreateCollection collection_name) ;;;
  w <~ get ;;
  match milvus w !! collection_name with
  | Some c =>
      if bool_decide (fields (schema c) = fields s) then pure tt
      else raise (MilvusException "schema does not match the existing one")
  | None =>
      if server_rejects w collection_name s
      then raise (MilvusException "schema rejected")
      else modify (with_milvus
             (insert collection_name {| schema := s; indexes := [] |}))
  end.

(** [collection.create_index(field_name=..., index_type=..., params=...)]. *)
Definition create_index (collection_name : string) (ix : Index) : Py unit :=
  call (CreateIndex collection_name (field_name ix)) ;;;
  w <~ get ;;
  match milvus w !! collection_name with
  | Some c =>
      modify (with_milvus (insert collection_name
        {| schema := schema c; indexes := indexes c ++ [ix] |}))
  | None => raise (MilvusException "collection not found")
  end.

(** The exit status of [python -c ...]. *)
Definition python_exit {A} (r : pyexc + A) : Z :=
  match r with
  | inr _ => 0
  | inl (SystemExit code) => code
  | inl _ => 1
  end.

(* ===================================================================== *)
(** * The Python program of the backup job (create_backup) *)
(* ===================================================================== *)

Definition max_retries : nat := 10.
Definition retry_interval : Z := 5.

(** [for i in range(max_retries)]: connect, [break] on success, retry after
    a fixed sleep, [exit(1)] after the last attempt. *)
Fixpoint connect_loop (attempts : list nat) : Py unit :=
  match attempts with
  | [] => pure tt
  | i :: rest =>
      connected <~ connect ;;
      if connected then print "Connected to Milvus"
      else
        print ("Connection attempt " ++ pretty (i + 1)%nat ++ "/"
               ++ pretty max_retries ++ " failed: connection refused") ;;;
        if (i <? max_retries - 1)%nat then
          print ("Retrying in " ++ pretty retry_interval ++ " seconds...") ;;;
          time_sleep retry_interval ;;;
          connect_loop rest
        else
          print "Failed to connect to Milvus after multiple attempts" ;;;
          raise (SystemExit 1)
  end.

Definition connect_with_retries : Py unit := connect_loop (seq 0 max_retries).

Definition schema_key (backup_path collection_name : string) : string :=
  backup_path ++ "/" ++ collection_name ++ "/schema.json".

Definition indexes_key (backup_path collection_name : string) : string :=
  backup_path ++ "/" ++ collection_name ++ "/indexes.json".

(** The [field_dict] built for one field of a schema. *)
Definition backup_field (field : FieldSchema) : field_dict :=
  {| fd_name := Some (name field);
     fd_description := Some (description field);
     fd_type := Some (str_dtype (dtype field));
     fd_is_primary := Some (is_primary field);
     fd_auto_id := Some (auto_id field);
     fd_params := Some (params field) |}.

(** [collection.has_index(f)] and [collection.index(f)]. *)
Definition index_of (c : Collection) (f : string) : option Index :=
  find (fun ix => String.eqb (field_name ix) f) (indexes c).

Definition backup_index (ix : Index) (f : string) : index_dict :=
  {| ix_field_name := Some f;
     ix_index_type := Some (index_type ix);
     ix_params := Some (index_params ix) |}.

Definition backup_indexes (c : Collection) : list index_dict :=
  flat_map (fun field =>
              match index_of c (name field) with
              | Some ix => [backup_index ix (name field)]
              | None => []
              end)
           (fields (schema c)).

(** [str(l)] for a list of strings. *)
Definition str_list (l : list string) : string :=
  "[" ++ String.concat ", " (map (fun x => "'" ++ x ++ "'") l) ++ "]".

(** The body of [for collection_name in collections], with its
    [try ... except Exception]. *)
Definition backup_collection (TIMESTAMP collection_name : string) : Py unit :=
  print ("Backing up collection: " ++ collection_name) ;;;
  try_except
    (collection <~ get_collection collection_name ;;
     let schema_doc :=
       {| sd_name := Some collection_name;
          sd_description := Some (schema_description (schema collection));
          sd_fields := Some (map backup_field (fields (schema collection))) |} in
     upload_json (schema_key ("backup-" ++ TIMESTAMP) collection_name)
                 (SchemaJson schema_doc) ;;;
     print ("Uploaded schema for " ++ collection_name) ;;;
     match backup_indexes collection with
     | [] => pure tt
     | ixs =>
         upload_json (indexes_key ("backup-" ++ TIMESTAMP) collection_name)
                     (IndexesJson ixs) ;;;
         print ("Uploaded index information for " ++ collection_name)
     end)
    is_Exception
    (fun e => print ("Error backing up " ++ collection_name ++ ": "
                     ++ str_exc e)).

Definition backup_program (TIMESTAMP : string) : Py unit :=
  connect_with_retries ;;;
  collections <~ list_collections ;;
  print ("Collections to backup: " ++ str_list collections) ;;;
  for_each (backup_collection TIMESTAMP) collections ;;;
  print ("Backup completed at: backup-" ++ TIMESTAMP ++ "/").

(* ===================================================================== *)
(** * The Python program of the restore job (restore_data) *)
(* ===================================================================== *)

(** The table of the restore program, in the order it is written: a dict
    is iterated in insertion order. *)
Definition dtype_map : list (string * DataType) :=
  [ ("DataType.INT64", INT64);
    ("DataType.FLOAT", FLOAT);
    ("DataType.FLOAT_VECTOR", FLOAT_VECTOR);
    ("DataType.BINARY_VECTOR", BINARY_VECTOR);
    ("DataType.VARCHAR", VARCHAR) ].

(** [for dtype_str, dtype_enum in dtype_map.items():
       if dtype_str in field["type"]: field_type = dtype_enum; break] *)
Fixpoint first_match (items : list (string * DataType)) (field_type_str : string)
  : option DataType :=
  match items with
  | [] => None
  | (dtype_str, dtype_enum) :: rest =>
      if Str.py_in dtype_str field_type_str then Some dtype_enum
      else first_match rest field_type_str
  end.

(** A subscript of a dict read from JSON: a string, or the builtin class
    [type]. *)
Inductive pykey :=
  | KStr (s : string)
  | KType.

(** The subscript of [field] in the f-string of the warning, as the script
    file writes it.  The whole program is the single-quoted argument of
    [python -c] in the job's shell command. *)
Definition warning_subscript_written : string := "'type'".

(** How Python reads a subscript: a quoted literal is a string, the bare
    name [type] is the builtin class, any other bare name is undefined. *)
Definition subscript_key (text : string) : option pykey :=
  match text with
  | String "'" rest =>
      match String.index 0 "'" rest with
      | Some n => Some (KStr (String.substring 0 n rest))
      | None => None
      end
  | _ => if String.eqb text "type" then Some KType else None
  end.

(** The subscript as Python receives it, after the shell's quote removal. *)
Definition warning_subscript : option pykey :=
  subscript_key (Str.sh_single_quote_removal warning_subscript_written).

Definition str_bool (b : bool) : string := if b then "True" else "False".

Definition str_params (d : params_dict) : string :=
  "{" ++ String.concat ", "
           (map (fun kv => "'" ++ fst kv ++ "': " ++ pretty (snd kv)) d)
      ++ "}".

(** [str(field[k])]. *)
Definition field_getitem (k : pykey) (field : field_dict) : Py string :=
  match k with
  | KType => raise (KeyError "<class 'type'>")
  | KStr key =>
      if String.eqb key "name" then require key (fd_name field)
      else if String.eqb key "description" then require key (fd_description field)
      else if String.eqb key "type" then require key (fd_type field)
      else if String.eqb key "is_primary" then
        b <~ require key (fd_is_primary field) ;; pure (str_bool b)
      else if String.eqb key "auto_id" then
        b <~ require key (fd_auto_id field) ;; pure (str_bool b)
      else if String.eqb key "params" then
        p <~ require key (fd_params field) ;; pure (str_params p)
      else raise (KeyError ("'" ++ key ++ "'"))
  end.

Definition is_vector (t : DataType) : bool :=
  existsb (DataType_eqb t) [FLOAT_VECTOR; BINARY_VECTOR].

(** [FieldSchema( **field_kwargs )] for a field of a recognized type. *)
Definition build_field_schema (field_type : DataType) (field_name : string)
    (field : field_dict) : FieldSchema :=
  {| name := field_name;
     description := default "" (fd_description field);
     dtype := field_type;
     is_primary := default false (fd_is_primary field);
     auto_id := default false (fd_auto_id field);
     params :=
       match fd_params field with
       | Some p =>
           if is_vector field_type
           then [("dim", default 128%Z (dict_get "dim" p))] else []
       | None => []
       end |}.

(** The body of [for field in schema_data["fields"]]: the field schemas it
    appends (none after [continue]). *)
Definition restore_field (field : field_dict) : Py (list FieldSchema) :=
  field_type_str <~ require "type" (fd_type field) ;;
  match first_match dtype_map field_type_str with
  | None =>
      match warning_subscript with
      | Some k =>
          shown <~ field_getitem k field ;;
          print ("Unknown data type: " ++ shown) ;;;
          pure []
      | None => raise (NameError "name is not defined")
      end
  | Some field_type =>
      field_name <~ require "name" (fd_name field) ;;
      pure [build_field_schema field_type field_name field]
  end.

Fixpoint restore_fields (fs : list field_dict) : Py (list FieldSchema) :=
  match fs with
  | [] => pure []
  | field :: rest =>
      appended <~ restore_field field ;;
      more <~ restore_fields rest ;;
      pure (appended ++ more)%list
  end.

(** [collection_paths[collection_name].append(key)], creating the entry at
    the end of the dict when the name is new. *)
Fixpoint dict_append (collection_name key : string)
    (d : list (string * list string)) : list (string * list string) :=
  match d with
  | [] => [(collection_name, [key])]
  | (n, paths) :: rest =>
      if String.eqb n collection_name then (n, (paths ++ [key])%list) :: rest
      else (n, paths) :: dict_append collection_name key rest
  end.

(** The collection a key belongs to: [path_parts[1]] when the key has at
    least three parts. *)
Definition key_collection (key : string) : option string :=
  match Str.split "/" key with
  | _ :: collection_name :: _ :: _ => Some collection_name
  | _ => None
  end.

Definition collection_paths (keys : list string) : list (string * list string) :=
  fold_left (fun d key =>
               match key_collection key with
               | Some collection_name => dict_append collection_name key d
               | None => d
               end)
            keys [].

(** [for path in paths: if path.endswith(suffix): ...; break]. *)
Definition find_file (suffix : string) (paths : list string) : option string :=
  find (fun path => Str.endswith path suffix) paths.

(** The keys of a schema document, in the order [json.load] yields them. *)
Definition schema_dict_keys (d : schema_dict) : list string :=
  (match sd_name d with Some _ => ["name"] | None => [] end
   ++ match sd_description d with Some _ => ["description"] | None => [] end
   ++ match sd_fields d with Some _ => ["fields"] | None => [] end)%list.

Definition restore_index (collection_name : string) (index : index_dict)
  : Py unit :=
  f <~ require "field_name" (ix_field_name index) ;;
  t <~ require "index_type" (ix_index_type index) ;;
  p <~ require "params" (ix_params index) ;;
  print ("Creating index on " ++ f ++ " with type " ++ t) ;;;
  create_index collection_name
    {| field_name := f; index_type := t; index_params := p |}.

(** The body of [for collection_name, paths in collection_paths.items()]. *)
Definition restore_collection (item : string * list string) : Py unit :=
  let (collection_name, paths) := item in
  print ("Processing collection: " ++ collection_name) ;;;
  match find_file "/schema.json" paths with
  | None =>
      print ("Schema file not found for " ++ collection_name ++ ", skipping")
  | Some schema_file =>
      doc <~ download_json schema_file ;;
      schema_fields <~
        match doc with
        | SchemaJson schema_data =>
            fs <~ require "fields" (sd_fields schema_data) ;;
            pure (fs, default "" (sd_description schema_data))
        | IndexesJson _ =>
            raise (TypeError "list indices must be integers or slices, not str")
        end ;;
      field_schemas <~ restore_fields (fst schema_fields) ;;
      let collection_schema :=
        {| fields := field_schemas;
           schema_description := snd schema_fields |} in
      exists_already <~ has_collection collection_name ;;
      (if exists_already then
         print ("Collection " ++ collection_name
                ++ " already exists, dropping it") ;;;
         drop_collection collection_name
       else pure tt) ;;;
      print ("Creating collection " ++ collection_name) ;;;
      new_Collection collection_name collection_schema ;;;
      match find_file "/indexes.json" paths with
      | None => pure tt
      | Some index_file =>
          doc <~ download_json index_file ;;
          match doc with
          | IndexesJson ixs => for_each (restore_index collection_name) ixs
          | SchemaJson d =>
              (* [for index in indexes] over a dict yields its keys, and
                 a key is a string: [index["field_name"]] is refused *)
              match schema_dict_keys d with
              | [] => pure tt
              | _ :: _ => raise (TypeError "string indices must be integers")
              end
          end
      end ;;;
      print ("Collection " ++ collection_name ++ " restored successfully")
  end.

(** The [try] block of the restore program. *)
Definition restore_listing (MILVUS_BACKUP_PATH : string) : Py unit :=
  response <~ list_objects_v2 (MILVUS_BACKUP_PATH ++ "/") ;;
  match response with
  | None => print "No backup content found" ;;; raise (SystemExit 0)
  | Some keys =>
      for_each restore_collection (collection_paths keys) ;;;
      print "Restore completed"
  end.

Definition restore_program (MILVUS_BACKUP_PATH : string) : Py unit :=
  print "Waiting for Milvus to be ready..." ;;;
  time_sleep 120 ;;;
  connect_with_retries ;;;
  try_except (restore_listing MILVUS_BACKUP_PATH) is_Exception
    (fun e => print ("Error during restoration: " ++ str_exc e)).

(* ===================================================================== *)
(** * The upgrade script (upgrade-milvus-to-cluster.sh) *)
(* ===================================================================== *)

(** ** [date +%Y%m%d%H%M%S] *)

(** The calendar date of a day number counted from 1970-01-01. *)
Definition civil_from_days (days : Z) : Z * Z * Z :=
  (let z := days + 719468 in
  let era := z / 146097 in
  let doe := z - era * 146097 in
  let yoe := (doe - doe / 1460 + doe / 36524 - doe / 146096) / 365 in
  let doy := doe - (365 * yoe + yoe / 4 - yoe / 100) in
  let mp := (5 * doy + 2) / 153 in
  let d := doy - (153 * mp + 2) / 5 + 1 in
  let m := if mp <? 10 then mp + 3 else mp - 9 in
  let y := yoe + era * 400 + (if m <=? 2 then 1 else 0) in
  (y, m, d))%Z.

(** [%Y]: the year, zero-padded to four digits and with all of its digits
    from the year 10000 on. *)
Definition year_digits (y : Z) : string :=
  if (y <? 10000)%Z then Str.pad4 y else Str.decimal y.

(** The output of [date +%Y%m%d%H%M%S] (line 106) at [clock] seconds after
    the epoch, in the UTC time zone, for a clock that is not before the
    epoch: the year is 1970 or later.  The stamp has fourteen digits up to
    the end of the year 9999 and more after it. *)
Definition date_stamp (clock : Z) : string :=
  let '(y, m, d) := civil_from_days (clock / 86400)%Z in
  let secs := (clock mod 86400)%Z in
  year_digits y ++ Str.pad2 m ++ Str.pad2 d
  ++ Str.pad2 (secs / 3600) ++ Str.pad2 (secs / 60 mod 60)
  ++ Str.pad2 (secs mod 60).

(** ** The fake cluster and terminal *)

(** Files of the working directory that the script writes and reads. *)
Inductive file_content :=
  | BackupJob (TIMESTAMP EKS_NAMESPACE : string)
  | RestoreJob (MILVUS_BACKUP_PATH EKS_NAMESPACE : string)
  | BackupInfo (MILVUS_BACKUP_PATH : string)
  | HelmValues.

(** Invocations of external programs, in the order they are made. *)
Inductive ext_call :=
  | kubectl_get (what : string)
  | kubectl_logs (job : string)
  | kubectl_apply (file : string)
  | kubectl_wait (what : string) (timeout : Z)
  | aws_s3api_head_bucket (bucket_name : string)
  | aws_s3_mb (bucket_name region : string)
  | date_cmd
  | helm_repo_update
  | helm_get_values
  | helm_upgrade (EKS_NAMESPACE AWS_REGION MILVUS_BUCKET_NAME : string)
  | sleep (seconds : Z).

Record shworld := {
  vars : gmap string string;        (* shell variables and environment *)
  tools : list string;              (* commands found by [command -v] *)
  stdin : list string;              (* the operator's answers, as [read -r]
                                       stores them *)
  files : gmap string file_content;
  clock : Z;
  node_count : Z;
  storageclasses : string;          (* output of kubectl get storageclass *)
  lb_hostname : string;
  backup_bucket_exists : bool;
  mb_succeeds : string -> bool;     (* can [aws s3 mb] make the bucket of
                                       that name *)
  after_upgrade : gmap string Collection; (* what the upgraded deployment holds *)
  jobs : gmap string bool;          (* jobs run so far: did a pod succeed *)
  deployment : pyworld;             (* what the jobs' programs run against *)
  console : list string;
  calls : list ext_call;
}.

Definition Sh (A : Type) : Type := Eff shworld Z A.

Definition set_vars (f : gmap string string -> gmap string string)
    (s : shworld) : shworld :=
  {| vars := f (vars s); tools := tools s; stdin := stdin s; files := files s;
     clock := clock s; node_count := node_count s;
     storageclasses := storageclasses s; lb_hostname := lb_hostname s;
     backup_bucket_exists := backup_bucket_exists s;
     mb_succeeds := mb_succeeds s;
     after_upgrade := after_upgrade s; jobs := jobs s;
     deployment := deployment s; console := console s; calls := calls s |}.

Definition set_stdin (l : list string) (s : shworld) : shworld :=
  {| vars := vars s; tools := tools s; stdin := l; files := files s;
     clock := clock s; node_count := node_count s;
     storageclasses := storageclasses s; lb_hostname := lb_hostname s;
     backup_bucket_exists := backup_bucket_exists s;
     mb_succeeds := mb_succeeds s;
     after_upgrade := after_upgrade s; jobs := jobs s;
     deployment := deployment s; console := console s; calls := calls s |}.

Definition set_files (f : gmap string file_content -> gmap string file_content)
    (s : shworld) : shworld :=
  {| vars := vars s; tools := tools s; stdin := stdin s; files := f (files s);
     clock := clock s; node_count := node_count s;
     storageclasses := storageclasses s; lb_hostname := lb_hostname s;
     backup_bucket_exists := backup_bucket_exists s;
     mb_succeeds := mb_succeeds s;
     after_upgrade := after_upgrade s; jobs := jobs s;
     deployment := deployment s; console := console s; calls := calls s |}.

Definition set_backup_bucket_exists (b : bool) (s : shworld) : shworld :=
  {| vars := vars s; tools := tools s; stdin := stdin s; files := files s;
     clock := clock s; node_count := node_count s;
     storageclasses := storageclasses s; lb_hostname := lb_hostname s;
     backup_bucket_exists := b;
     mb_succeeds := mb_succeeds s;
     after_upgrade := after_upgrade s; jobs := jobs s;
     deployment := deployment s; console := console s; calls := calls s |}.

Definition set_job (job : string) (succeeded : bool) (p : pyworld)
    (s : shworld) : shworld :=
  {| vars := vars s; tools := tools s; stdin := stdin s; files := files s;
     clock := clock s; node_count := node_count s;
     storageclasses := storageclasses s; lb_hostname := lb_hostname s;
     backup_bucket_exists := backup_bucket_exists s;
     mb_succeeds := mb_succeeds s;
     after_upgrade := after_upgrade s; jobs := <[job := succeeded]> (jobs s);
     deployment := p; console := console s; calls := calls s |}.

Definition set_deployment (p : pyworld) (s : shworld) : shworld :=
  {| vars := vars s; tools := tools s; stdin := stdin s; files := files s;
     clock := clock s; node_count := node_count s;
     storageclasses := storageclasses s; lb_hostname := lb_hostname s;
     backup_bucket_exists := backup_bucket_exists s;
     mb_succeeds := mb_succeeds s;
     after_upgrade := after_upgrade s; jobs := jobs s;
     deployment := p; console := console s; calls := calls s |}.

Definition echo (line : string) : Sh unit :=
  modify (fun s =>
  {| vars := vars s; tools := tools s; stdin := stdin s; files := files s;
     clock := clock s; node_count := node_count s;
     storageclasses := storageclasses s; lb_hostname := lb_hostname s;
     backup_bucket_exists := backup_bucket_exists s;
     mb_succeeds := mb_succeeds s;
     after_upgrade := after_upgrade s; jobs := jobs s;
     deployment := deployment s; console := console s ++ [line];
     calls := calls s |}).

(** Records the invocation of an external program. *)
Definition run (c : ext_call) : Sh unit :=
  modify (fun s =>
  {| vars := vars s; tools := tools s; stdin := stdin s; files := files s;
     clock := clock s; node_count := node_count s;
     storageclasses := storageclasses s; lb_hostname := lb_hostname s;
     backup_bucket_exists := backup_bucket_exists s;
     mb_succeeds := mb_succeeds s;
     after_upgrade := after_upgrade s; jobs := jobs s;
     deployment := deployment s; console := console s;
     calls := calls s ++ [c] |}).

(** [exit n]. *)
Definition exit {A} (status : Z) : Sh A := raise status.

(** ["$x"]: empty when unset. *)
Definition var (x : string) : Sh string :=
  s <~ get ;; pure (default "" (vars s !! x)).

Definition assign (x value : string) : Sh unit :=
  modify (set_vars (insert x value)).

(** [[ -z "$x" ]]. *)
Definition is_empty (x : string) : Sh bool :=
  v <~ var x ;; pure (String.eqb v "").

(** [command -v tool], a shell builtin. *)
Definition command_v (tool : string) : Sh bool :=
  s <~ get ;; pure (existsb (String.eqb tool) (tools s)).

(** [read -r x]: the next answer, empty at end of input. *)
Definition read (x : string) : Sh unit :=
  s <~ get ;;
  match stdin s with
  | [] => assign x ""
  | answer :: rest => modify (set_stdin rest) ;;; assign x answer
  end.

Definition write_file (file : string) (c : file_content) : Sh unit :=
  modify (set_files (insert file c)).

(** ** The jobs *)

Definition backoffLimit : nat := 3.

(** A job's pods: the program is run again after a failure, [backoffLimit]
    times at most.  [true] when a pod exits with status 0. *)
Fixpoint run_pods (retries : nat) (program : Py unit) (p : pyworld)
  : bool * pyworld :=
  let (r, p') := program p in
  if (python_exit r =? 0)%Z then (true, p')
  else match retries with
       | O => (false, p')
       | S n => run_pods n program p'
       end.

(** [kubectl apply -f file]: the job of the manifest is created and runs. *)
Definition apply_manifest (file : string) : Sh unit :=
  run (kubectl_apply file) ;;;
  s <~ get ;;
  match files s !! file with
  | Some (BackupJob TIMESTAMP _) =>
      let (ok, p) := run_pods backoffLimit (backup_program TIMESTAMP)
                              (deployment s) in
      modify (set_job ("milvus-backup-" ++ TIMESTAMP) ok p)
  | Some (RestoreJob MILVUS_BACKUP_PATH _) =>
      let (ok, p) := run_pods backoffLimit (restore_program MILVUS_BACKUP_PATH)
                              (deployment s) in
      modify (set_job "milvus-restore" ok p)
  | _ => pure tt
  end.

(** [kubectl get job <job> -o jsonpath='{.status.succeeded}']. *)
Definition job_succeeded (job : string) : Sh string :=
  run (kubectl_get ("job " ++ job)) ;;;
  s <~ get ;;
  pure (match jobs s !! job with Some true => "1" | _ => "" end).

(** ** The script, top to bottom *)

(** Lines 11-60: environment and tool checks. *)
Definition check_environment : Sh unit :=
  (unset <~ is_empty "AWS_REGION" ;;
   if unset then
     echo "AWS_REGION not set. Using default: eu-central-1" ;;;
     assign "AWS_REGION" "eu-central-1"
   else pure tt) ;;;
  (unset <~ is_empty "EKS_CLUSTER_NAME" ;;
   if unset then
     echo "EKS_CLUSTER_NAME not set. Please export EKS_CLUSTER_NAME." ;;;
     exit 1
   else pure tt) ;;;
  (unset <~ is_empty "EKS_NAMESPACE" ;;
   if unset then
     echo "EKS_NAMESPACE not set. Using default: milvus" ;;;
     assign "EKS_NAMESPACE" "milvus"
   else pure tt) ;;;
  (unset <~ is_empty "MILVUS_BUCKET_NAME" ;;
   if unset then
     echo "MILVUS_BUCKET_NAME not set. Please export MILVUS_BUCKET_NAME for S3 storage." ;;;
     exit 1
   else pure tt) ;;;
  (unset <~ is_empty "MILVUS_BACKUP_BUCKET_NAME" ;;
   if unset then
     b <~ var "MILVUS_BUCKET_NAME" ;;
     assign "MILVUS_BACKUP_BUCKET_NAME" (b ++ "-backup") ;;;
     echo ("MILVUS_BACKUP_BUCKET_NAME not set. Using: " ++ b ++ "-backup")
   else pure tt) ;;;
  (no_key <~ is_empty "AWS_ACCESS_KEY_ID" ;;
   no_secret <~ is_empty "AWS_SECRET_ACCESS_KEY" ;;
   if no_key || no_secret then
     echo "AWS credentials not set. Please export AWS_ACCESS_KEY_ID and AWS_SECRET_ACCESS_KEY." ;;;
     exit 1
   else pure tt) ;;;
  (found <~ command_v "aws" ;;
   if negb found then
     echo "AWS CLI is not installed. Please install it first." ;;; exit 1
   else pure tt) ;;;
  (found <~ command_v "kubectl" ;;
   if negb found then
     echo "kubectl is not installed. Please install it first." ;;; exit 1
   else pure tt) ;;;
  (found <~ command_v "helm" ;;
   if negb found then
     echo "helm is not installed. Please install it first." ;;; exit 1
   else pure tt).

Definition check_cluster_resources : Sh unit :=
  echo "=== Checking Cluster Resources ===" ;;;
  run (kubectl_get "nodes --no-headers") ;;;
  s <~ get ;;
  assign "NODE_COUNT" (pretty (node_count s)) ;;;
  (if (node_count s <? 5)%Z then
     echo ("Warning: Found only " ++ pretty (node_count s)
           ++ " nodes. Recommended: at least 5 nodes for cluster mode.")
   else
     echo ("Node count: " ++ pretty (node_count s)
           ++ " (sufficient for cluster mode)")) ;;;
  echo "Node sizes:" ;;;
  run (kubectl_get "nodes -o custom-columns") ;;;
  echo "Storage classes:" ;;;
  run (kubectl_get "storageclass") ;;;
  run (kubectl_get "storageclass") ;;;
  (if negb (Str.grep_q "gp2" (storageclasses s)) then
     echo "Warning: gp2 storage class not found. This may cause issues with persistent volumes."
   else echo "gp2 storage class found") ;;;
  echo "".

(** [create_backup], lines 93 to 272.  The exit status of [aws s3 mb]
    (line 99) is not looked at, and the script has no [set -e]: the
    message of line 100 is printed and the function goes on whether or not
    the bucket could be made.  [mb_succeeds] is the answer of that call
    for a bucket name.  What the job can write afterwards is the [bucket]
    of [deployment]. *)
Definition create_backup : Sh unit :=
  echo "=== Creating Backup ===" ;;;
  backup_bucket <~ var "MILVUS_BACKUP_BUCKET_NAME" ;;
  namespace <~ var "EKS_NAMESPACE" ;;
  echo ("Creating/checking backup bucket: " ++ backup_bucket) ;;;
  run (aws_s3api_head_bucket backup_bucket) ;;;
  s <~ get ;;
  (if negb (backup_bucket_exists s) then
     region <~ var "AWS_REGION" ;;
     run (aws_s3_mb backup_bucket region) ;;;
     modify (set_backup_bucket_exists (mb_succeeds s backup_bucket)) ;;;
     echo ("Created backup bucket: " ++ backup_bucket)
   else echo ("Backup bucket already exists: " ++ backup_bucket)) ;;;
  run date_cmd ;;;
  assign "TIMESTAMP" (date_stamp (clock s)) ;;;
  TIMESTAMP <~ var "TIMESTAMP" ;;
  echo "Creating backup job manifest..." ;;;
  write_file "milvus-backup-job.yaml" (BackupJob TIMESTAMP namespace) ;;;
  echo "Creating backup job..." ;;;
  apply_manifest "milvus-backup-job.yaml" ;;;
  echo "Waiting for backup job to complete..." ;;;
  run (kubectl_wait ("job/milvus-backup-" ++ TIMESTAMP) 300) ;;;
  succeeded <~ job_succeeded ("milvus-backup-" ++ TIMESTAMP) ;;
  (if Str.grep_q "1" succeeded then
     echo "Backup completed successfully" ;;;
     echo ("Backup location: s3://" ++ backup_bucket ++ "/backup-"
           ++ TIMESTAMP ++ "/") ;;;
     write_file "milvus-backup-info.env" (BackupInfo ("backup-" ++ TIMESTAMP))
   else
     echo "Backup failed. Check job logs:" ;;;
     run (kubectl_logs ("job/milvus-backup-" ++ TIMESTAMP)) ;;;
     echo "Do you want to continue with the upgrade anyway? (y/N)" ;;;
     read "continue_anyway" ;;;
     continue_anyway <~ var "continue_anyway" ;;
     if negb (Str.is_yes continue_anyway) then
       echo "Upgrade aborted." ;;; exit 1
     else pure tt) ;;;
  echo "".

Definition upgrade_to_cluster : Sh unit :=
  echo "=== Upgrading to Cluster Mode ===" ;;;
  echo "Updating Helm repository..." ;;;
  run helm_repo_update ;;;
  echo "Backing up current Helm values..." ;;;
  run helm_get_values ;;;
  write_file "milvus-values-backup.yaml" HelmValues ;;;
  echo "Upgrading Milvus to cluster mode with Pulsar..." ;;;
  namespace <~ var "EKS_NAMESPACE" ;;
  region <~ var "AWS_REGION" ;;
  data_bucket <~ var "MILVUS_BUCKET_NAME" ;;
  run (helm_upgrade namespace region data_bucket) ;;;
  s <~ get ;;
  modify (set_deployment (with_milvus (fun _ => after_upgrade s) (deployment s))) ;;;
  echo "Upgrade command executed. Waiting for pods to start..." ;;;
  echo "Initial wait for pods to start (2 minutes)..." ;;;
  run (sleep 120) ;;;
  echo "Current pod status:" ;;;
  run (kubectl_get "pods") ;;;
  echo "Waiting for all pods to be ready..." ;;;
  run (kubectl_wait "pod --all" 600) ;;;
  echo "Final pod status:" ;;;
  run (kubectl_get "pods") ;;;
  echo "".

Definition restore_data : Sh unit :=
  s <~ get ;;
  match files s !! "milvus-backup-info.env" with
  | None => echo "No backup information found. Skipping restoration."
  | Some info =>
      match info with
      | BackupInfo path => assign "MILVUS_BACKUP_PATH" path
      | _ => pure tt
      end ;;;
      backup_bucket <~ var "MILVUS_BACKUP_BUCKET_NAME" ;;
      backup_path <~ var "MILVUS_BACKUP_PATH" ;;
      namespace <~ var "EKS_NAMESPACE" ;;
      echo "=== Restoring Data from Backup ===" ;;;
      echo ("Restore source: s3://" ++ backup_bucket ++ "/" ++ backup_path ++ "/") ;;;
      write_file "milvus-restore-job.yaml" (RestoreJob backup_path namespace) ;;;
      echo "Creating restore job..." ;;;
      apply_manifest "milvus-restore-job.yaml" ;;;
      echo "Waiting for restore job to start..." ;;;
      run (sleep 10) ;;;
      echo "Restore job logs:" ;;;
      run (kubectl_logs "job/milvus-restore") ;;;
      succeeded <~ job_succeeded "milvus-restore" ;;
      (if Str.grep_q "1" succeeded then
         echo "Restoration completed successfully"
       else
         echo "Restoration may not have completed successfully. Check job logs for details.") ;;;
      echo ""
  end.

Definition verify_deployment : Sh unit :=
  echo "=== Verifying Cluster Deployment ===" ;;;
  echo "Pod status:" ;;;
  run (kubectl_get "pods") ;;;
  echo "Service status:" ;;;
  run (kubectl_get "svc") ;;;
  echo "Persistent volume claims:" ;;;
  run (kubectl_get "pvc") ;;;
  run (kubectl_get "svc milvus") ;;;
  s <~ get ;;
  assign "LB_DNS_NAME" (lb_hostname s) ;;;
  (if negb (String.eqb (lb_hostname s) "") then
     echo ("Milvus is accessible at: " ++ lb_hostname s ++ ":19530")
   else echo "LoadBalancer address not found") ;;;
  echo "".

(** Lines 627-631: the stages run once the operator has agreed. *)
Definition upgrade_process : Sh unit :=
  create_backup ;;;
  upgrade_to_cluster ;;;
  restore_data ;;;
  verify_deployment.

(** Lines 605-625: banner, resource check and the confirmation prompt. *)
Definition confirm : Sh bool :=
  echo "  Milvus Upgrade: Standalone to Cluster Mode with Pulsar" ;;;
  check_cluster_resources ;;;
  echo "This script will upgrade your Milvus deployment from standalone to cluster mode." ;;;
  echo "Do you want to continue? (y/N)" ;;;
  read "proceed" ;;;
  proceed <~ var "proceed" ;;
  pure (Str.is_yes proceed).

Definition main : Sh unit :=
  check_environment ;;;
  proceed <~ confirm ;;
  if negb proceed then
    echo "Upgrade aborted." ;;; exit 0
  else
    upgrade_process ;;;
    echo "Milvus has been upgraded to cluster mode with Pulsar!".

(** The exit status of the script: that of [exit], or of the last [echo]. *)
Definition exit_status {A} (r : Z + A) : Z :=
  match r with inl status => status | inr _ => 0%Z end.

(* ===================================================================== *)
(** * The endpoint wait loop (wait_for_lb) *)
(* ===================================================================== *)

Record lbworld := {
  hostname_at : nat -> string;   (* what kubectl prints at the n-th poll *)
  lb_polls : nat;                (* polls made so far *)
  lb_slept : Z;                  (* seconds spent in sleep *)
  lb_console : list string;
}.

Definition lb_poll (w : lbworld) : string * lbworld :=
  (hostname_at w (lb_polls w),
   {| hostname_at := hostname_at w; lb_polls := S (lb_polls w);
      lb_slept := lb_slept w; lb_console := lb_console w |}).

Definition lb_echo (line : string) (w : lbworld) : lbworld :=
  {| hostname_at := hostname_at w; lb_polls := lb_polls w;
     lb_slept := lb_slept w; lb_console := lb_console w ++ [line] |}.

Definition lb_sleep (seconds : Z) (w : lbworld) : lbworld :=
  {| hostname_at := hostname_at w; lb_polls := lb_polls w;
     lb_slept := (lb_slept w + seconds)%Z; lb_console := lb_console w |}.

(** [[ -n "$EXTERNAL_IP" ] && [ "$EXTERNAL_IP" != "<pending>" ]]. *)
Definition lb_ready (EXTERNAL_IP : string) : bool :=
  negb (String.eqb EXTERNAL_IP "") && negb (String.eqb EXTERNAL_IP "<pending>").

(** [while [ $ELAPSED -lt $MAX_WAIT ]; do ... done] and the lines after it:
    the return status of the function and the world it leaves. *)
Equations? wait_loop (MAX_WAIT ELAPSED : Z) (w : lbworld) : Z * lbworld
  by wf (Z.to_nat (MAX_WAIT - ELAPSED)) lt :=
  wait_loop MAX_WAIT ELAPSED w with Z_lt_dec ELAPSED MAX_WAIT => {
    | right _ =>
        (1%Z, lb_echo ("Timed out waiting for LoadBalancer ("
                       ++ pretty MAX_WAIT ++ "s)") w)
    | left _ =>
        if lb_ready (fst (lb_poll w)) then
          (0%Z, lb_echo ("LoadBalancer is ready with endpoint: "
                         ++ fst (lb_poll w)) (snd (lb_poll w)))
        else
          wait_loop MAX_WAIT (ELAPSED + 15)%Z
            (lb_sleep 15
               (lb_echo ("LoadBalancer still provisioning... ("
                         ++ pretty ELAPSED ++ "s elapsed)")
                        (snd (lb_poll w))))
  }.
Proof. lia. Qed.

Definition wait_for_lb (w : lbworld) : Z * lbworld :=
  wait_loop 600 0 (lb_echo "Waiting for Milvus LoadBalancer to be provisioned..." w).

(* ===================================================================== *)
(** * The IAM steps of the access bootstrap scripts *)
(* ===================================================================== *)

Record iam_role := {
  trust_policy : string;
  attached : gset string;          (* ARNs of the attached policies *)
}.

Inductive iam_call :=
  | iam_create_policy (policy_name : string)
  | iam_list_policies
  | iam_get_policy (policy_arn : string)
  | iam_create_role (role_name : string)
  | iam_get_role (role_name : string)
  | iam_attach_role_policy (role_name policy_arn : string)
  | sts_get_caller_identity.

(** The fake AWS account. *)
Record account := {
  account_id : string;
  policies : gmap string string;   (* policy name -> document *)
  roles : gmap string iam_role;    (* role name -> role *)
  iam_calls : list iam_call;
}.

Definition Aws (A : Type) : Type := Eff account Z A.

Definition policy_arn (a : account) (policy_name : string) : string :=
  "arn:aws:iam::" ++ account_id a ++ ":policy/" ++ policy_name.

Definition role_arn (a : account) (role_name : string) : string :=
  "arn:aws:iam::" ++ account_id a ++ ":role/" ++ role_name.

Definition aws (c : iam_call) : Aws unit :=
  modify (fun a => {| account_id := account_id a; policies := policies a;
                      roles := roles a; iam_calls := iam_calls a ++ [c] |}).

Definition set_policies (f : gmap string string -> gmap string string)
    (a : account) : account :=
  {| account_id := account_id a; policies := f (policies a);
     roles := roles a; iam_calls := iam_calls a |}.

Definition set_roles (f : gmap string iam_role -> gmap string iam_role)
    (a : account) : account :=
  {| account_id := account_id a; policies := policies a;
     roles := f (roles a); iam_calls := iam_calls a |}.

(** [aws iam create-policy ... --query Policy.Arn]: the ARN, or [None]
    when the command fails because the name is taken. *)
Definition create_policy (policy_name document : string) : Aws (option string) :=
  aws (iam_create_policy policy_name) ;;;
  a <~ get ;;
  match policies a !! policy_name with
  | Some _ => pure None
  | None =>
      modify (set_policies (insert policy_name document)) ;;;
      pure (Some (policy_arn a policy_name))
  end.

(** [aws iam list-policies --query 'Policies[?PolicyName==`n`].Arn']. *)
Definition list_policies_arn (policy_name : string) : Aws string :=
  aws iam_list_policies ;;;
  a <~ get ;;
  pure (match policies a !! policy_name with
        | Some _ => policy_arn a policy_name
        | None => ""
        end).

(** [aws iam get-policy --policy-arn arn]: does the command succeed. *)
Definition get_policy (policy_name : string) : Aws bool :=
  a <~ get ;;
  aws (iam_get_policy (policy_arn a policy_name)) ;;;
  pure (bool_decide (is_Some (policies a !! policy_name))).

Definition create_role (role_name trust : string) : Aws (option string) :=
  aws (iam_create_role role_name) ;;;
  a <~ get ;;
  match roles a !! role_name with
  | Some _ => pure None
  | None =>
      modify (set_roles (insert role_name
                {| trust_policy := trust; attached := ∅ |})) ;;;
      pure (Some (role_arn a role_name))
  end.

(** [aws iam get-role --role-name n --query Role.Arn]: the ARN, or [None]
    when the command fails because there is no such role. *)
Definition get_role (role_name : string) : Aws (option string) :=
  aws (iam_get_role role_name) ;;;
  a <~ get ;;
  pure (match roles a !! role_name with
        | Some _ => Some (role_arn a role_name)
        | None => None
        end).

(** [aws iam attach-role-policy]: fails when the role does not exist;
    attaching an attached policy changes nothing. *)
Definition attach_role_policy (role_name arn : string) : Aws bool :=
  aws (iam_attach_role_policy role_name arn) ;;;
  a <~ get ;;
  match roles a !! role_name with
  | Some r =>
      modify (set_roles (insert role_name
                {| trust_policy := trust_policy r;
                   attached := {[arn]} ∪ attached r |})) ;;;
      pure true
  | None => pure false
  end.

Definition get_caller_identity : Aws string :=
  aws sts_get_caller_identity ;;; a <~ get ;; pure (account_id a).

(** How a step obtained its ARN. *)
Inductive resolved :=
  | Created (arn : string)
  | Found (arn : string).

Definition arn_of (r : resolved) : string :=
  match r with Created arn | Found arn => arn end.

(** ** The EKS admin access script (runs under [set -e]) *)

Definition eks_admin_policy_document : string := "eks-admin-policy.json".
Definition eks_admin_trust_policy : string := "eks-admin-trust-policy.json".

(** [POLICY_ARN=$(aws iam create-policy ... 2>/dev/null || aws iam list-policies ...)] *)
Definition eks_admin_policy : Aws resolved :=
  created <~ create_policy "EksAdminPolicy" eks_admin_policy_document ;;
  match created with
  | Some arn => pure (Created arn)
  | None => arn <~ list_policies_arn "EksAdminPolicy" ;; pure (Found arn)
  end.

(** [ROLE_ARN=$(aws iam create-role ... 2>/dev/null || aws iam get-role ...)] *)
Definition eks_admin_role : Aws resolved :=
  created <~ create_role "eks-admin-role" eks_admin_trust_policy ;;
  match created with
  | Some arn => pure (Created arn)
  | None =>
      found <~ get_role "eks-admin-role" ;;
      match found with
      | Some arn => pure (Found arn)
      | None => raise 1%Z
      end
  end.

(** Steps 1 and 2 of the script: policy, role, attachment. *)
Definition eks_admin_access : Aws (resolved * resolved) :=
  POLICY_ARN <~ eks_admin_policy ;;
  ROLE_ARN <~ eks_admin_role ;;
  attached_ok <~ attach_role_policy "eks-admin-role" (arn_of POLICY_ARN) ;;
  if attached_ok then pure (POLICY_ARN, ROLE_ARN) else raise 1%Z.

(** ** The load balancer controller script (no [set -e]) *)

Definition POLICY_NAME : string := "AWSLoadBalancerControllerIAMPolicy".
Definition ROLE_NAME : string := "AmazonEKSLoadBalancerControllerRole".

(** [if aws iam get-policy ...; then POLICY_ARN=...; else curl ...;
    POLICY_ARN=$(aws iam create-policy ...); fi] *)
Definition lb_controller_policy (iam_policy_json : string) : Aws resolved :=
  account_number <~ get_caller_identity ;;
  present <~ get_policy POLICY_NAME ;;
  if present then
    account_number <~ get_caller_identity ;;
    pure (Found ("arn:aws:iam::" ++ account_number ++ ":policy/" ++ POLICY_NAME))
  else
    created <~ create_policy POLICY_NAME iam_policy_json ;;
    pure (Created (default "" created)).

(** [if aws iam get-role ...; then ROLE_ARN=$(aws iam get-role ...); else
    ...; ROLE_ARN=$(aws iam create-role ...); aws iam attach-role-policy ...; fi] *)
Definition lb_controller_role (OIDC_PROVIDER : string) (POLICY_ARN : string)
  : Aws resolved :=
  present <~ get_role ROLE_NAME ;;
  match present with
  | Some _ =>
      found <~ get_role ROLE_NAME ;;
      pure (Found (default "" found))
  | None =>
      account_number <~ get_caller_identity ;;
      created <~ create_role ROLE_NAME
                   ("trust-policy.json for " ++ account_number
                    ++ ":oidc-provider/" ++ OIDC_PROVIDER) ;;
      attach_role_policy ROLE_NAME POLICY_ARN ;;;
      pure (Created (default "" created))
  end.

Definition lb_controller_access (OIDC_PROVIDER iam_policy_json : string)
  : Aws (resolved * resolved) :=
  POLICY_ARN <~ lb_controller_policy iam_policy_json ;;
  ROLE_ARN <~ lb_controller_role OIDC_PROVIDER (arn_of POLICY_ARN) ;;
  pure (POLICY_ARN, ROLE_ARN).

(* ===================================================================== *)
(** * Sample worlds *)
(* ===================================================================== *)

Module Sample.

Definition id_field : FieldSchema :=
  {| name := "id"; description := ""; dtype := INT64; is_primary := true;
     auto_id := false; params := [] |}.

Definition vec_field : FieldSchema :=
  {| name := "vec"; description := ""; dtype := FLOAT_VECTOR;
     is_primary := false; auto_id := false; params := [("dim", 128%Z)] |}.

(** The collection [docs]: id (INT64, primary) and vec (FLOAT_VECTOR of
    dimension 128). *)
Definition docs : Collection :=
  {| schema := {| fields := [id_field; vec_field]; schema_description := "" |};
     indexes := [] |}.

(** A standalone deployment that serves [collections], with an empty
    backup bucket. *)
Definition serving (collections : gmap string Collection) : pyworld :=
  {| milvus := collections; refused_connects := 0;
     server_rejects := fun _ _ => false; bucket := ∅;
     stdout := []; api := [] |}.

(** The upgraded deployment: it serves [collections] and reads the bucket
    the backup left in [backed_up]. *)
Definition upgraded (collections : gmap string Collection)
    (backed_up : pyworld) : pyworld :=
  {| milvus := collections; refused_connects := 0;
     server_rejects := fun _ _ => false; bucket := bucket backed_up;
     stdout := []; api := [] |}.

(** A deployment whose server refuses every connection. *)
Definition unreachable : pyworld :=
  {| milvus := ∅; refused_connects := 1000;
     server_rejects := fun _ _ => false; bucket := ∅;
     stdout := []; api := [] |}.

(** An operator's shell with everything exported and installed, on
    2024-01-01 00:00:00 UTC. *)
Definition shell (answers : list string) (d : pyworld) : shworld :=
  {| vars := list_to_map
       [("EKS_CLUSTER_NAME", "milvus-cluster"); ("MILVUS_BUCKET_NAME", "vectors");
        ("AWS_ACCESS_KEY_ID", "AKIA"); ("AWS_SECRET_ACCESS_KEY", "secret")];
     tools := ["aws"; "kubectl"; "helm"];
     stdin := answers;
     files := ∅;
     clock := 1704067200;
     node_count := 3;
     storageclasses := "gp2 (default)";
     lb_hostname := "";
     backup_bucket_exists := false;
     mb_succeeds := fun bucket_name => negb (String.eqb bucket_name "");
     after_upgrade := ∅;
     jobs := ∅;
     deployment := d;
     console := [];
     calls := [] |}.

Definition score_field : FieldSchema :=
  {| name := "score"; description := ""; dtype := DOUBLE; is_primary := false;
     auto_id := false; params := [] |}.

(** The collection [audit]: id (INT64, primary) and score (DOUBLE, a type
    that the restore program's table does not name). *)
Definition audit : Collection :=
  {| schema := {| fields := [id_field; score_field]; schema_description := "" |};
     indexes := [] |}.

(** The world left by the backup job of timestamp 20240101000000 on a
    deployment that serves [collections]. *)
Definition backed_up (collections : gmap string Collection) : pyworld :=
  snd (backup_program "20240101000000" (serving collections)).

(** [docs] as it was created by hand on the upgraded cluster before the
    restore: a single VARCHAR field. *)
Definition stale_docs : Collection :=
  {| schema := {| fields := [ {| name := "title"; description := "";
                                 dtype := VARCHAR; is_primary := true;
                                 auto_id := false; params := [] |} ];
                  schema_description := "scratch" |};
     indexes := [ {| field_name := "title"; index_type := "TRIE";
                     index_params := [] |} ] |}.

(** The upgraded cluster already serves a hand-made [docs] when the
    restore of the backed-up [docs] starts. *)
Definition overwriting : pyworld :=
  upgraded {[ "docs" := stale_docs ]} (backed_up {[ "docs" := docs ]}).

(** The upgraded cluster already serves a hand-made [audit] and a
    hand-made [docs] when the restore of the backed-up [audit] and [docs]
    starts. *)
Definition overwriting_audit_and_docs : pyworld :=
  upgraded {[ "audit" := stale_docs; "docs" := stale_docs ]}
           (backed_up {[ "audit" := audit; "docs" := docs ]}).

(** The upgraded cluster is empty and the backup holds [audit] and [docs]. *)
Definition restoring_audit_and_docs : pyworld :=
  upgraded ∅ (backed_up {[ "audit" := audit; "docs" := docs ]}).

(** The upgraded cluster is empty and the backup holds [docs]. *)
Definition restoring_docs : pyworld :=
  upgraded ∅ (backed_up {[ "docs" := docs ]}).

(** A load balancer that stays pending. *)
Definition pending_forever : lbworld :=
  {| hostname_at := fun _ => "<pending>"; lb_polls := 0; lb_slept := 0;
     lb_console := [] |}.

(** The operator's shell in front of a deployment that serves [docs]. *)
Definition before_backup : shworld :=
  shell ["y"] (serving {[ "docs" := docs ]}).

(** A shell in which nothing is exported and nothing installed. *)
Definition unconfigured : shworld :=
  {| vars := ∅; tools := []; stdin := []; files := ∅; clock := 1704067200;
     node_count := 3; storageclasses := ""; lb_hostname := "";
     backup_bucket_exists := false; mb_succeeds := fun _ => false;
     after_upgrade := ∅; jobs := ∅;
     deployment := unreachable; console := []; calls := [] |}.

End Sample.

(* ===================================================================== *)
(** * Vocabulary of the statements *)
(* ===================================================================== *)

(** [x] is set to a non-empty value. *)
Definition is_set (s : shworld) (x : string) : bool :=
  negb (String.eqb (default "" (vars s !! x)) "").

Definition has_tool (s : shworld) (t : string) : bool :=
  existsb (String.eqb t) (tools s).

(** The required variables are set and the required tools installed. *)
Definition preconditions_met (s : shworld) : bool :=
  forallb (is_set s)
    ["EKS_CLUSTER_NAME"; "MILVUS_BUCKET_NAME";
     "AWS_ACCESS_KEY_ID"; "AWS_SECRET_ACCESS_KEY"]
  && forallb (has_tool s) ["aws"; "kubectl"; "helm"].

(** The answer the next [read -r] stores. *)
Definition next_answer (s : shworld) : string := hd "" (stdin s).

(** Nothing outside the shell process has changed between [s] and [s']:
    same files, same jobs, same deployment, same bucket. *)
Definition untouched (s s' : shworld) : Prop :=
  files s' = files s /\ jobs s' = jobs s /\ deployment s' = deployment s
  /\ backup_bucket_exists s' = backup_bucket_exists s.

(** The calls of [check_cluster_resources], all of them reads. *)
Definition resource_queries : list ext_call :=
  [kubectl_get "nodes --no-headers"; kubectl_get "nodes -o custom-columns";
   kubectl_get "storageclass"; kubectl_get "storageclass"].

Definition is_helm_upgrade (c : ext_call) : bool :=
  match c with helm_upgrade _ _ _ => true | _ => false end.

(** The backup job of [create_backup], started in world [s], has no pod
    that succeeds. *)
Definition backup_job_fails (s : shworld) : Prop :=
  fst (run_pods backoffLimit (backup_program (date_stamp (clock s)))
                (deployment s)) = false.

Definition continue_prompt : string :=
  "Do you want to continue with the upgrade anyway? (y/N)".

(** [f] is the field schema that the restore program builds from the
    field [fd] of a schema document. *)
Definition rebuilt_field (fd : field_dict) (f : FieldSchema) : Prop :=
  exists field_type_str field_name field_type,
    fd_type fd = Some field_type_str
    /\ fd_name fd = Some field_name
    /\ first_match dtype_map field_type_str = Some field_type
    /\ f = build_field_schema field_type field_name fd.

(** [i] is the index that the restore program creates from the entry [ix]
    of an index document. *)
Definition rebuilt_index (ix : index_dict) (i : Index) : Prop :=
  ix_field_name ix = Some (field_name i)
  /\ ix_index_type ix = Some (index_type i)
  /\ ix_params ix = Some (index_params i).

(** [c] is the collection that the restore program builds from the
    documents under [paths] in the bucket [b].  Its fields are the rebuilt
    ones, which need not be the fields that were backed up: a float vector
    is rebuilt as a FLOAT field. *)
Definition rebuilt_from (b : gmap string s3_object) (paths : list string)
    (c : Collection) : Prop :=
  exists schema_file doc fds,
    find_file "/schema.json" paths = Some schema_file
    /\ b !! schema_file = Some (SchemaJson doc)
    /\ sd_fields doc = Some fds
    /\ Forall2 rebuilt_field fds (fields (schema c))
    /\ schema_description (schema c) = default "" (sd_description doc)
    /\ match find_file "/indexes.json" paths with
       | None => indexes c = []
       | Some index_file =>
           exists doc, b !! index_file = Some doc
             /\ match doc with
                | IndexesJson ixs => Forall2 rebuilt_index ixs (indexes c)
                | SchemaJson d => schema_dict_keys d = [] /\ indexes c = []
                end
       end.

(** The effect of one iteration of the restore loop. *)
Definition restored (collection_name : string) (paths : list string)
    (w w' : pyworld) : Prop :=
  is_Some (find_file "/schema.json" paths) ->
  (exists c, milvus w' !! collection_name = Some c
             /\ rebuilt_from (bucket w) paths c)
  /\ (is_Some (milvus w !! collection_name) ->
      exists before after,
        api w' = (before ++ DropCollection collection_name
                         :: CreateCollection collection_name :: after)%list).

(** The keys that the listing of the restore program returns. *)
Definition manifest (MILVUS_BACKUP_PATH : string) (w : pyworld) : list string :=
  take 1000 (filter (fun k => Is_true (String.prefix (MILVUS_BACKUP_PATH ++ "/") k))
                    (sorted_keys (bucket w))).

(** No poll of the endpoint ever finds it ready. *)
Definition never_ready (w : lbworld) : Prop :=
  forall n, lb_ready (hostname_at w n) = false.

Definition timed_out_line : string :=
  "Timed out waiting for LoadBalancer (600s)".

(** The policy and the role exist in the account [a], and the policy is
    attached to the role. *)
Definition settled (a : account) (policy_name role_name : string) : Prop :=
  is_Some (policies a !! policy_name)
  /\ exists r, roles a !! role_name = Some r
               /\ policy_arn a policy_name ∈ attached r.


(** [k] is one of the keys that a backup of timestamp [TIMESTAMP] writes
    for the collections of [m]: the schema document of a collection, or its
    index document when one of its fields has an index. *)
Definition backup_key (TIMESTAMP : string) (m : gmap string Collection)
    (k : string) : Prop :=
  exists collection_name c,
    m !! collection_name = Some c
    /\ (k = schema_key ("backup-" ++ TIMESTAMP) collection_name
        \/ (backup_indexes c <> []
            /\ k = indexes_key ("backup-" ++ TIMESTAMP) collection_name)).

(** The outcome of running [c] from [s] satisfies [Q]. *)
Definition wp {St Ex A} (c : Eff St Ex A) (s : St)
    (Q : Ex + A -> St -> Prop) : Prop :=
  Q (fst (c s)) (snd (c s)).

(** Every exception that the program [c] can raise satisfies [P]. *)
Definition raises_only {A} (P : pyexc -> Prop) (c : Py A) : Prop :=
  forall w e w', c w = (inl e, w') -> P e.

(** [e] is caught by [except Exception]. *)
Definition caught (e : pyexc) : Prop := is_Exception e = true.

(* ===================================================================== *)
(** * The endpoint script (wait-for-milvus-endpoint.sh, lines 1-96) *)
(* ===================================================================== *)

Inductive ep_call :=
  | cloudformation_describe_stacks (stack_name : string)
  | lambda_update_function_configuration (function_name environment : string).

(** What the endpoint script runs against.  Its terminal is the console of
    [service]. *)
Record epworld := {
  env_file : bool;                 (* is there a lambda/.env *)
  service : lbworld;               (* the service that [wait_for_lb] polls *)
  stack_output : string;           (* LambdaFunctionName of MilvusStack,
                                      empty when the stack has none *)
  update_accepted : bool;          (* does Lambda accept a configuration *)
  lambda_environment : gmap string string; (* function -> its Variables *)
  ep_calls : list ep_call;
}.

Definition Ep (A : Type) : Type := Eff epworld Z A.

Definition on_service (f : lbworld -> lbworld) (w : epworld) : epworld :=
  {| env_file := env_file w; service := f (service w);
     stack_output := stack_output w; update_accepted := update_accepted w;
     lambda_environment := lambda_environment w; ep_calls := ep_calls w |}.

Definition ep_echo (line : string) : Ep unit := modify (on_service (lb_echo line)).

Definition ep_run (c : ep_call) : Ep unit :=
  modify (fun w =>
    {| env_file := env_file w; service := service w;
       stack_output := stack_output w; update_accepted := update_accepted w;
       lambda_environment := lambda_environment w;
       ep_calls := ep_calls w ++ [c] |}).

Definition set_lambda_environment (function_name variables : string)
    (w : epworld) : epworld :=
  {| env_file := env_file w; service := service w;
     stack_output := stack_output w; update_accepted := update_accepted w;
     lambda_environment := <[function_name := variables]> (lambda_environment w);
     ep_calls := ep_calls w |}.

(** [kubectl get svc milvus -n milvus -o jsonpath=...]. *)
Definition ep_poll : Ep string :=
  w <~ get ;;
  modify (on_service (fun l => snd (lb_poll l))) ;;;
  pure (fst (lb_poll (service w))).

(** [update_lambda "$1"]: its return status. *)
Definition update_lambda (arg1 : string) : Ep Z :=
  if String.eqb arg1 "" then
    ep_echo "No Milvus endpoint provided" ;;; pure 1%Z
  else
    let MILVUS_ENDPOINT := arg1 in
    ep_echo ("Updating Lambda function with Milvus endpoint: "
             ++ MILVUS_ENDPOINT) ;;;
    ep_run (cloudformation_describe_stacks "MilvusStack") ;;;
    w <~ get ;;
    let LAMBDA_FUNCTION := stack_output w in
    if String.eqb LAMBDA_FUNCTION "" then
      ep_echo "Could not find Lambda function from CloudFormation stack" ;;;
      pure 1%Z
    else
      ep_echo ("Updating Lambda function: " ++ LAMBDA_FUNCTION) ;;;
      let environment :=
        "Variables={MILVUS_HOST=" ++ MILVUS_ENDPOINT ++ ",MILVUS_PORT=19530}" in
      ep_run (lambda_update_function_configuration LAMBDA_FUNCTION environment) ;;;
      if update_accepted w then
        modify (set_lambda_environment LAMBDA_FUNCTION environment) ;;;
        ep_echo "Successfully updated Lambda environment variables" ;;;
        pure 0%Z
      else
        ep_echo "Failed to update Lambda environment variables" ;;;
        pure 1%Z.

(** The script, top to bottom.  The status of [update_lambda] is not
    looked at. *)
Definition endpoint_script : Ep unit :=
  (w <~ get ;;
   if env_file w then ep_echo "Loading AWS credentials from lambda/.env"
   else pure tt) ;;;
  w <~ get ;;
  modify (on_service (fun l => snd (wait_for_lb l))) ;;;
  MILVUS_ENDPOINT <~
    (if (fst (wait_for_lb (service w)) =? 0)%Z then
       MILVUS_ENDPOINT <~ ep_poll ;;
       (if negb (String.eqb MILVUS_ENDPOINT "") then
          update_lambda MILVUS_ENDPOINT ;;; pure tt
        else
          ep_echo "Could not retrieve Milvus endpoint" ;;; raise 1%Z) ;;;
       pure MILVUS_ENDPOINT
     else
       ep_echo "Failed to get Milvus endpoint" ;;; raise 1%Z) ;;
  ep_echo "==============================================================" ;;;
  ep_echo "Milvus deployment details:" ;;;
  ep_echo ("Milvus endpoint: " ++ MILVUS_ENDPOINT) ;;;
  ep_echo "Milvus port: 19530" ;;;
  ep_echo ("Check connection: nc -zv " ++ MILVUS_ENDPOINT ++ " 19530") ;;;
  ep_echo "==============================================================".

Module Scenario.

(** A load balancer whose host name shows at the third poll only. *)
Definition flapping : lbworld :=
  {| hostname_at := fun n => if (n =? 2)%nat then "milvus.elb.amazonaws.com"
                             else "<pending>";
     lb_polls := 0; lb_slept := 0; lb_console := [] |}.

(** The endpoint script in front of [l], with a stack that names the
    function [chat] and a Lambda service that accepts configurations. *)
Definition endpoint_world (l : lbworld) : epworld :=
  {| env_file := true; service := l; stack_output := "chat";
     update_accepted := true; lambda_environment := ∅; ep_calls := [] |}.

(** An account in which both roles were made by hand, with a trust policy
    of their own and no policy attached, and no policy exists yet. *)
Definition handmade_roles : account :=
  {| account_id := "615022891451";
     policies := ∅;
     roles := {[ "eks-admin-role"
                   := {| trust_policy := "by hand"; attached := ∅ |};
                 "AmazonEKSLoadBalancerControllerRole"
                   := {| trust_policy := "by hand"; attached := ∅ |} ]};
     iam_calls := [] |}.

(** An account with no policy and no role. *)
Definition fresh_account : account :=
  {| account_id := "615022891451"; policies := ∅; roles := ∅;
     iam_calls := [] |}.

(** A collection of identifiers alone. *)
Definition ids : Collection :=
  {| schema := {| fields := [Sample.id_field];
                  schema_description := "identifiers" |};
     indexes := [] |}.

(** An upgraded cluster that refuses a schema without a vector field.  It
    serves a hand-made [docs] and reads the backup of the original [docs]. *)
Definition strict_cluster : pyworld :=
  {| milvus := {[ "docs" := Sample.stale_docs ]};
     refused_connects := 0;
     server_rejects :=
       fun _ s => negb (existsb is_vector (map dtype (fields s)));
     bucket := bucket (Sample.backed_up {[ "docs" := Sample.docs ]});
     stdout := []; api := [] |}.

End Scenario.

(* ===================================================================== *)
(** * More vocabulary *)
(* ===================================================================== *)

(** The first of the [n] polls starting at poll [start] that finds the
    endpoint ready, counted from [start]. *)
Fixpoint first_ready (hostname_at : nat -> string) (start n : nat)
  : option nat :=
  match n with
  | O => None
  | S n' =>
      if lb_ready (hostname_at start) then Some O
      else option_map S (first_ready hostname_at (S start) n')
  end.

(** The value of --environment for an endpoint. *)
Definition lambda_variables (MILVUS_ENDPOINT : string) : string :=
  "Variables={MILVUS_HOST=" ++ MILVUS_ENDPOINT ++ ",MILVUS_PORT=19530}".

(** The calls of a connection that succeeds at attempt [k+1]: [k] refused
    attempts, each followed by a sleep, then one more attempt. *)
Fixpoint retried (k : nat) : list api_call :=
  match k with
  | O => [Connect]
  | S k' => Connect :: Sleep retry_interval :: retried k'
  end.

(** The schema document that the backup writes for a collection. *)
Definition schema_document (collection_name : string) (c : Collection)
  : s3_object :=
  SchemaJson
    {| sd_name := Some collection_name;
       sd_description := Some (schema_description (schema c));
       sd_fields := Some (map backup_field (fields (schema c))) |}.

(** The field that comes back from the backup of [f], when one does: the
    type as the table of the restore program resolves its name, and of the
    params only the dimension of a vector. *)
Definition restored_type (t : DataType) : option DataType :=
  match t with
  | INT64 => Some INT64
  | FLOAT | FLOAT_VECTOR => Some FLOAT
  | VARCHAR => Some VARCHAR
  | BINARY_VECTOR => Some BINARY_VECTOR
  | BOOL | INT8 | INT16 | INT32 | DOUBLE | JSON => None
  end.

Definition restored_field (f : FieldSchema) (t : DataType) : FieldSchema :=
  {| name := name f; description := description f; dtype := t;
     is_primary := is_primary f; auto_id := auto_id f;
     params := match t with
               | BINARY_VECTOR => [("dim", default 128%Z (dict_get "dim" (params f)))]
               | _ => []
               end |}.

(** The fields that a backup followed by a restore gives back as they
    were: a type that the table finds under its own name, and no params
    but the dimension of a binary vector. *)
Definition kept_by_restore (f : FieldSchema) : bool :=
  match dtype f with
  | INT64 | FLOAT | VARCHAR =>
      match params f with [] => true | _ => false end
  | BINARY_VECTOR =>
      match params f with
      | [(key, _)] => String.eqb key "dim"
      | _ => false
      end
  | _ => false
  end.

Fixpoint restored_fields (fs : list FieldSchema) : option (list FieldSchema) :=
  match fs with
  | [] => Some []
  | f :: rest =>
      match restored_type (dtype f), restored_fields rest with
      | Some t, Some l => Some (restored_field f t :: l)
      | _, _ => None
      end
  end.

(** The keys of a listing that belong to the collection [n], in the order
    of the listing. *)
Definition keys_of (n : string) (keys : list string) : list string :=
  List.filter (fun key => bool_decide (key_collection key = Some n)) keys.

(** [x] keeps its value when it is set to a non-empty one, and is given
    [value] otherwise. *)
Definition with_default (x value : string) (m : gmap string string)
  : gmap string string :=
  if String.eqb (default "" (m !! x)) "" then <[x := value]> m else m.

(** The variables after the checks at the top of the upgrade script. *)
Definition checked_environment (m : gmap string string) : gmap string string :=
  let m1 := with_default "AWS_REGION" "eu-central-1" m in
  let m2 := with_default "EKS_NAMESPACE" "milvus" m1 in
  with_default "MILVUS_BACKUP_BUCKET_NAME"
    (default "" (m2 !! "MILVUS_BUCKET_NAME") ++ "-backup") m2.

(* ===================================================================== *)
(** * Facts about the monad and the string functions *)
(* ===================================================================== *)

Section EffFacts.
Context {St Ex : Type}.

Lemma bind_ok {A B} (c : Eff St Ex A) (k : A -> Eff St Ex B) s a s' :
  c s = (inr a, s') -> bind c k s = k a s'.
Proof. intros H. unfold bind. rewrite H. reflexivity. Qed.

Lemma bind_fail {A B} (c : Eff St Ex A) (k : A -> Eff St Ex B) s e s' :
  c s = (inl e, s') -> bind c k s = (inl e, s').
Proof. intros H. unfold bind. rewrite H. reflexivity. Qed.

Lemma bind_inv_ok {A B} (c : Eff St Ex A) (k : A -> Eff St Ex B) s b s2 :
  bind c k s = (inr b, s2) ->
  exists a s1, c s = (inr a, s1) /\ k a s1 = (inr b, s2).
Proof.
  unfold bind. destruct (c s) as [[e|a] s1]; intros H; [discriminate|].
  exists a, s1. split; [reflexivity|exact H].
Qed.

Lemma bind_inv_fail {A B} (c : Eff St Ex A) (k : A -> Eff St Ex B) s e s2 :
  bind c k s = (inl e, s2) ->
  c s = (inl e, s2) \/ exists a s1, c s = (inr a, s1) /\ k a s1 = (inl e, s2).
Proof.
  unfold bind. destruct (c s) as [[e'|a] s1]; intros H.
  - left. inversion H; subst. reflexivity.
  - right. exists a, s1. split; [reflexivity|exact H].
Qed.

Lemma wp_pure {A} (a : A) (s : St) (Q : Ex + A -> St -> Prop) :
  Q (inr a) s -> wp (pure a) s Q.
Proof. exact (fun H => H). Qed.

Lemma wp_raise {A} (e : Ex) (s : St) (Q : Ex + A -> St -> Prop) :
  Q (inl e) s -> wp (raise e) s Q.
Proof. exact (fun H => H). Qed.

Lemma wp_get (s : St) (Q : Ex + St -> St -> Prop) :
  Q (inr s) s -> wp get s Q.
Proof. exact (fun H => H). Qed.

Lemma wp_modify (f : St -> St) (s : St) (Q : Ex + unit -> St -> Prop) :
  Q (inr tt) (f s) -> wp (modify f) s Q.
Proof. exact (fun H => H). Qed.

Lemma wp_bind {A B} (c : Eff St Ex A) (k : A -> Eff St Ex B) (s : St)
    (Q : Ex + B -> St -> Prop) :
  wp c s (fun r s1 => match r with
                      | inl e => Q (inl e) s1
                      | inr a => wp (k a) s1 Q
                      end) ->
  wp (bind c k) s Q.
Proof.
  unfold wp, bind. destruct (c s) as [[e|a] s1]; exact (fun H => H).
Qed.

Lemma wp_run {A} (c : Eff St Ex A) (s : St) (r : Ex + A)
    (P : St -> Prop) :
  wp c s (fun r' s' => r' = r /\ P s') ->
  exists s', c s = (r, s') /\ P s'.
Proof.
  unfold wp. destruct (c s) as [r' s']. cbn. intros [-> H].
  exists s'. auto.
Qed.

Lemma wp_try {A} (c : Eff St Ex A) (caught : Ex -> bool)
    (handler : Ex -> Eff St Ex A) (s : St) (Q : Ex + A -> St -> Prop) :
  wp c s (fun r s1 => match r with
                      | inl e => if caught e then wp (handler e) s1 Q
                                 else Q (inl e) s1
                      | inr a => Q (inr a) s1
                      end) ->
  wp (try_except c caught handler) s Q.
Proof.
  unfold wp, try_except. destruct (c s) as [[e|a] s1]; cbn [fst snd].
  - destruct (caught e); exact (fun H => H).
  - exact (fun H => H).
Qed.

Lemma wp_mono {A} (c : Eff St Ex A) (s : St)
    (Q Q' : Ex + A -> St -> Prop) :
  wp c s Q -> (forall r s', Q r s' -> Q' r s') -> wp c s Q'.
Proof. unfold wp. intros H HQ. apply HQ. exact H. Qed.

Lemma wp_known {A} (c : Eff St Ex A) (s s' : St) (r : Ex + A)
    (Q : Ex + A -> St -> Prop) :
  c s = (r, s') -> Q r s' -> wp c s Q.
Proof. unfold wp. intros ->. exact (fun H => H). Qed.
End EffFacts.

Module StrFacts.

Lemma endswith_app (a suffix : string) :
  Str.endswith (a ++ suffix) suffix = true.
Proof.
  induction a as [|c a IH]; simpl.
  - destruct suffix as [|c r]; [reflexivity|].
    change (String.eqb (String c r) (String c r)
            || Str.endswith r (String c r) = true).
    rewrite String.eqb_refl. reflexivity.
  - rewrite IH. apply orb_true_r.
Qed.

Lemma split_cons_lacks (sep : ascii) (a rest : string) :
  Str.lacks sep a = true ->
  Str.split sep (a ++ String sep rest) = a :: Str.split sep rest.
Proof.
  induction a as [|c a IH]; simpl; intros H.
  - rewrite Ascii.eqb_refl. reflexivity.
  - apply andb_true_iff in H as [Hc Ha].
    apply negb_true_iff in Hc. rewrite Hc, (IH Ha). reflexivity.
Qed.

Lemma prefix_app (p s : string) : String.prefix p (p ++ s) = true.
Proof.
  induction p as [|c p IH]; simpl.
  - destruct s; reflexivity.
  - destruct (ascii_dec c c); [exact IH|congruence].
Qed.

Lemma is_yes_false (answer : string) :
  answer <> "y" -> answer <> "Y" -> Str.is_yes answer = false.
Proof.
  intros Hy HY. unfold Str.is_yes.
  apply String.eqb_neq in Hy, HY. rewrite Hy, HY. reflexivity.
Qed.

End StrFacts.

(* ===================================================================== *)
(** * The upgrade script: environment checks and the two prompts *)
(* ===================================================================== *)

(** Normal form of the state and of the conditions after a step. *)
Ltac sh_lookup :=
  repeat match goal with
         | |- context [<[?k:=?v]> ?m !! ?k'] =>
             first [ rewrite (lookup_insert_eq m k v)
                   | rewrite (lookup_insert_ne m k k' v) by discriminate ]
         end.

Ltac wp_norm :=
  cbv beta;
  cbn [vars tools stdin files clock node_count storageclasses lb_hostname
       backup_bucket_exists mb_succeeds after_upgrade jobs deployment
       console calls
       set_vars set_stdin set_files set_backup_bucket_exists set_job
       set_deployment fst snd negb orb andb];
  sh_lookup;
  cbn [from_option id negb orb andb].

(** The term a condition or a [match] depends on. *)
Ltac scrutinee b :=
  lazymatch b with
  | negb ?x => scrutinee x
  | orb ?x _ => scrutinee x
  | andb ?x _ => scrutinee x
  | match ?x with _ => _ end => scrutinee x
  | _ => b
  end.

Ltac wp_split x :=
  let a := scrutinee x in
  first
    [ match goal with H : a = _ |- _ => rewrite H end
    | match goal with H : forall _, _ = _ |- _ => rewrite H end
    | destruct a eqn:? ].

(** One step of a shell function run on a symbolic world. *)
Ltac wp_step :=
  lazymatch goal with
  | |- wp (bind _ _) _ _ => apply wp_bind
  | |- wp (pure _) _ _ => apply wp_pure
  | |- wp get _ _ => apply wp_get
  | |- wp (modify _) _ _ => apply wp_modify
  | |- wp (raise _) _ _ => apply wp_raise
  | |- wp (exit _) _ _ => apply wp_raise
  | |- wp (match ?x with _ => _ end) _ _ => wp_split x
  | |- wp (echo _) _ _ => unfold echo
  | |- wp (run _) _ _ => unfold run
  | |- wp (var _) _ _ => unfold var
  | |- wp (assign _ _) _ _ => unfold assign
  | |- wp (is_empty _) _ _ => unfold is_empty
  | |- wp (command_v _) _ _ => unfold command_v
  | |- wp (read _) _ _ => unfold read
  | |- wp (write_file _ _) _ _ => unfold write_file
  | |- wp (job_succeeded _) _ _ => unfold job_succeeded
  | |- wp (apply_manifest _) _ _ => unfold apply_manifest
  end;
  wp_norm.

Ltac wp_go := wp_norm; repeat wp_step.

Lemma check_environment_fails (s : shworld) :
  preconditions_met s = false ->
  exists s', check_environment s = (inl 1%Z, s')
             /\ calls s' = calls s /\ untouched s s'.
Proof.
  intros H. apply wp_run.
  unfold preconditions_met, is_set, has_tool in H. cbn [forallb] in H.
  unfold check_environment, untouched.
  wp_go.
  all: try (cbn; auto 10; fail).
  all: exfalso;
    repeat match goal with
           | E : String.eqb _ _ = _ |- _ => rewrite E in H; clear E
           | E : existsb _ _ = _ |- _ => rewrite E in H; clear E
           end;
    discriminate H.
Qed.

Lemma check_environment_passes (s : shworld) :
  preconditions_met s = true ->
  exists s', check_environment s = (inr tt, s')
    /\ calls s' = calls s /\ untouched s s' /\ stdin s' = stdin s
    /\ default "" (vars s' !! "AWS_REGION")
       = (if is_set s "AWS_REGION" then default "" (vars s !! "AWS_REGION")
          else "eu-central-1")
    /\ default "" (vars s' !! "EKS_NAMESPACE")
       = (if is_set s "EKS_NAMESPACE" then default "" (vars s !! "EKS_NAMESPACE")
          else "milvus").
Proof.
  intros H. apply wp_run.
  unfold preconditions_met, is_set, has_tool in H. cbn [forallb] in H.
  rewrite !andb_true_iff, !negb_true_iff in H.
  destruct H as ((V1 & V2 & V3 & V4 & _) & (T1 & T2 & T3 & _)).
  unfold check_environment, untouched, is_set.
  wp_go.
  all: repeat match goal with E : String.eqb _ "" = _ |- _ => rewrite E end;
       cbn [negb]; auto 10.
Qed.

Lemma confirm_spec (s : shworld) :
  exists s', confirm s = (inr (Str.is_yes (next_answer s)), s')
    /\ calls s' = (calls s ++ resource_queries)%list /\ untouched s s'.
Proof.
  apply wp_run.
  unfold confirm, check_cluster_resources, next_answer, untouched,
    resource_queries.
  wp_go.
  all: rewrite <- ?app_assoc; cbn [hd]; auto 10.
Qed.

(** C7. A required variable that is unset or empty (EKS_CLUSTER_NAME,
    MILVUS_BUCKET_NAME, AWS_ACCESS_KEY_ID, AWS_SECRET_ACCESS_KEY) or a
    missing tool (aws, kubectl, helm) makes the script exit with status 1
    without a single external call and with nothing changed outside the
    shell.  When they are all there, the checks fall through to the rest of
    the script, with AWS_REGION and EKS_NAMESPACE set to eu-central-1 and
    milvus where they were missing. *)
Theorem fatal_precondition_checks (s : shworld) :
  (preconditions_met s = false ->
   exists s', main s = (inl 1%Z, s')
              /\ calls s' = calls s /\ untouched s s')
  /\ (preconditions_met s = true ->
      exists s', check_environment s = (inr tt, s')
        /\ calls s' = calls s
        /\ default "" (vars s' !! "AWS_REGION")
           = (if is_set s "AWS_REGION"
              then default "" (vars s !! "AWS_REGION") else "eu-central-1")
        /\ default "" (vars s' !! "EKS_NAMESPACE")
           = (if is_set s "EKS_NAMESPACE"
              then default "" (vars s !! "EKS_NAMESPACE") else "milvus")).
Proof.
  split; intros H.
  - destruct (check_environment_fails s H) as (s' & Hrun & Hcalls & Hsame).
    exists s'. split; [|auto].
    unfold main. apply bind_fail. exact Hrun.
  - destruct (check_environment_passes s H)
      as (s' & Hrun & Hcalls & _ & _ & Hregion & Hns).
    exists s'. auto.
Qed.

Lemma fatal_precondition_checks_witness :
  (exists s', main Sample.unconfigured = (inl 1%Z, s')
              /\ calls s' = calls Sample.unconfigured
              /\ untouched Sample.unconfigured s')
  /\ (exists s', check_environment (Sample.shell [] Sample.unreachable)
                 = (inr tt, s')
        /\ calls s' = calls (Sample.shell [] Sample.unreachable)
        /\ default "" (vars s' !! "AWS_REGION") = "eu-central-1"
        /\ default "" (vars s' !! "EKS_NAMESPACE") = "milvus").
Proof.
  split.
  - apply (proj1 (fatal_precondition_checks Sample.unconfigured)).
    vm_compute. reflexivity.
  - apply (proj2 (fatal_precondition_checks (Sample.shell [] Sample.unreachable))).
    vm_compute. reflexivity.
Defined.

(** C4. When the checks pass and the operator's answer to the first prompt
    is neither y nor Y, the script exits with status 0; the only external
    calls of the whole run are the four kubectl queries made before the
    prompt, and files, jobs, deployment and bucket are as they were. *)
Theorem abort_on_decline (s : shworld) :
  preconditions_met s = true ->
  next_answer s <> "y" ->
  next_answer s <> "Y" ->
  exists asked s',
    (check_environment ;;; confirm) s = (inr false, asked)
    /\ main s = (inl 0%Z, s')
    /\ calls s' = calls asked
    /\ calls s' = (calls s ++ resource_queries)%list
    /\ untouched s s'.
Proof.
  intros Hpre Hy HY.
  destruct (check_environment_passes s Hpre)
    as (s1 & Hrun1 & Hcalls1 & Hsame1 & Hin1 & _).
  destruct (confirm_spec s1) as (s2 & Hrun2 & Hcalls2 & Hsame2).
  assert (Hno : Str.is_yes (next_answer s1) = false).
  { unfold next_answer in *. rewrite Hin1.
    apply StrFacts.is_yes_false; assumption. }
  rewrite Hno in Hrun2.
  exists s2. eexists. split; [|split].
  - rewrite (bind_ok _ _ _ _ _ Hrun1). exact Hrun2.
  - unfold main. rewrite (bind_ok _ _ _ _ _ Hrun1).
    rewrite (bind_ok _ _ _ _ _ Hrun2). reflexivity.
  - unfold untouched in *.
    cbn [calls files jobs deployment backup_bucket_exists].
    destruct Hsame1 as (F1 & J1 & D1 & B1), Hsame2 as (F2 & J2 & D2 & B2).
    rewrite Hcalls2, Hcalls1, F2, F1, J2, J1, D2, D1, B2, B1.
    auto 10.
Qed.

Lemma abort_on_decline_witness :
  exists asked s',
    (check_environment ;;; confirm) (Sample.shell ["n"] Sample.unreachable)
      = (inr false, asked)
    /\ main (Sample.shell ["n"] Sample.unreachable) = (inl 0%Z, s')
    /\ calls s' = calls asked
    /\ calls s' = (calls (Sample.shell ["n"] Sample.unreachable)
                   ++ resource_queries)%list
    /\ untouched (Sample.shell ["n"] Sample.unreachable) s'.
Proof.
  apply (abort_on_decline (Sample.shell ["n"] Sample.unreachable)).
  - vm_compute. reflexivity.
  - vm_compute. discriminate.
  - vm_compute. discriminate.
Defined.

Lemma upgrade_to_cluster_spec (s : shworld) :
  exists s', upgrade_to_cluster s = (inr tt, s')
             /\ existsb is_helm_upgrade (calls s') = true.
Proof.
  apply wp_run. unfold upgrade_to_cluster. wp_go.
  split; [reflexivity|].
  rewrite !existsb_app. cbn [existsb is_helm_upgrade orb].
  rewrite !orb_true_r. reflexivity.
Qed.

Lemma create_backup_failed (s : shworld) :
  backup_job_fails s ->
  exists s1,
    create_backup s
      = (if Str.is_yes (next_answer s) then inr tt else inl 1%Z, s1)
    /\ In continue_prompt (console s1)
    /\ (exists made, calls s1 = (calls s ++ made)%list
                     /\ existsb is_helm_upgrade made = false)
    /\ files s1 !! "milvus-backup-info.env" = files s !! "milvus-backup-info.env".
Proof.
  unfold backup_job_fails, next_answer, continue_prompt. intros Hfail.
  apply wp_run.
  destruct (run_pods backoffLimit (backup_program (date_stamp (clock s)))
                     (deployment s)) as [ok p] eqn:Hpods.
  cbn [fst] in Hfail. subst ok.
  assert (Hgrep : Str.grep_q "1" "" = false) by reflexivity.
  unfold create_backup. wp_go.
  all: cbn [hd]; rewrite ?Heqb0; (split; [reflexivity|]);
    (split; [rewrite ?in_app_iff; cbn [In]; tauto|]);
    (split; [eexists; split; [rewrite <- ?app_assoc; reflexivity|reflexivity]|]);
    reflexivity.
Qed.

(** C5. When no pod of the backup job succeeds, [create_backup] asks the
    operator whether to continue.  On y or Y it returns, the upgrade stage
    runs next and invokes helm upgrade, and no backup-info file has been
    written; on any other answer the script exits with status 1 and helm
    upgrade is not among the calls made. *)
Theorem gated_backup_failure (s : shworld) :
  backup_job_fails s ->
  exists s1,
    In continue_prompt (console s1)
    /\ (exists made, calls s1 = (calls s ++ made)%list
                     /\ existsb is_helm_upgrade made = false)
    /\ files s1 !! "milvus-backup-info.env" = files s !! "milvus-backup-info.env"
    /\ (Str.is_yes (next_answer s) = true ->
        create_backup s = (inr tt, s1)
        /\ exists s2, upgrade_to_cluster s1 = (inr tt, s2)
             /\ existsb is_helm_upgrade (calls s2) = true
             /\ upgrade_process s = (restore_data ;;; verify_deployment) s2)
    /\ (Str.is_yes (next_answer s) = false ->
        upgrade_process s = (inl 1%Z, s1)).
Proof.
  intros Hfail.
  destruct (create_backup_failed s Hfail) as (s1 & Hrun & Hprompt & Hcalls & Hfile).
  exists s1. split; [exact Hprompt|]. split; [exact Hcalls|].
  split; [exact Hfile|]. split.
  - intros Hyes. rewrite Hyes in Hrun. split; [exact Hrun|].
    destruct (upgrade_to_cluster_spec s1) as (s2 & Hup & Hhelm).
    exists s2. split; [exact Hup|]. split; [exact Hhelm|].
    unfold upgrade_process.
    rewrite (bind_ok _ _ _ _ _ Hrun). rewrite (bind_ok _ _ _ _ _ Hup).
    reflexivity.
  - intros Hno. rewrite Hno in Hrun.
    unfold upgrade_process. apply bind_fail. exact Hrun.
Qed.

Lemma gated_backup_failure_witness :
  exists s1,
    In continue_prompt (console s1)
    /\ (exists made,
          calls s1 = (calls (Sample.shell ["y"] Sample.unreachable) ++ made)%list
          /\ existsb is_helm_upgrade made = false)
    /\ files s1 !! "milvus-backup-info.env"
       = files (Sample.shell ["y"] Sample.unreachable) !! "milvus-backup-info.env"
    /\ (Str.is_yes (next_answer (Sample.shell ["y"] Sample.unreachable)) = true ->
        create_backup (Sample.shell ["y"] Sample.unreachable) = (inr tt, s1)
        /\ exists s2, upgrade_to_cluster s1 = (inr tt, s2)
             /\ existsb is_helm_upgrade (calls s2) = true
             /\ upgrade_process (Sample.shell ["y"] Sample.unreachable)
                = (restore_data ;;; verify_deployment) s2)
    /\ (Str.is_yes (next_answer (Sample.shell ["y"] Sample.unreachable)) = false ->
        upgrade_process (Sample.shell ["y"] Sample.unreachable) = (inl 1%Z, s1)).
Proof.
  apply (gated_backup_failure (Sample.shell ["y"] Sample.unreachable)).
  vm_compute. reflexivity.
Defined.

(* ===================================================================== *)
(** * The restore job: what it can raise, and its exit status *)
(* ===================================================================== *)

Section Raises.
Variable P : pyexc -> Prop.

Lemma raises_pure {A} (a : A) : raises_only P (pure a).
Proof. intros w e w' H. discriminate H. Qed.

Lemma raises_get : raises_only P get.
Proof. intros w e w' H. discriminate H. Qed.

Lemma raises_modify f : raises_only P (modify f).
Proof. intros w e w' H. discriminate H. Qed.

Lemma raises_raise {A} e : P e -> raises_only P (raise (A := A) e).
Proof. intros He w e' w' H. inversion H; subst. exact He. Qed.

Lemma raises_bind {A B} (c : Py A) (k : A -> Py B) :
  raises_only P c -> (forall a, raises_only P (k a)) ->
  raises_only P (bind c k).
Proof.
  intros Hc Hk w e w' H.
  apply bind_inv_fail in H as [H|(a & w1 & _ & H)].
  - exact (Hc _ _ _ H).
  - exact (Hk _ _ _ _ H).
Qed.

Lemma raises_for_each {A} (body : A -> Py unit) (l : list A) :
  (forall a, raises_only P (body a)) -> raises_only P (for_each body l).
Proof.
  intros Hbody. induction l as [|a l IH]; cbn [for_each].
  - apply raises_pure.
  - apply raises_bind; [apply Hbody|intros _; exact IH].
Qed.
End Raises.

(** Walks through a program made of the combinators above. *)
Ltac raises_step :=
  first
    [ apply raises_pure | apply raises_get | apply raises_modify
    | apply raises_raise; reflexivity
    | apply raises_bind; [|intros ?]
    | apply raises_for_each; intros ?
    | match goal with
      | |- raises_only _ (match ?x with _ => _ end) => destruct x
      | |- raises_only _ (if ?x then _ else _) => destruct x
      end ].

Ltac raises :=
  repeat first
    [ raises_step
    | progress unfold print, call, require, time_sleep, download_json,
        has_collection, drop_collection, new_Collection, create_index,
        list_objects_v2, field_getitem, restore_index ].

Lemma restore_field_raises (field : field_dict) :
  raises_only caught (restore_field field).
Proof. unfold restore_field, caught. raises. Qed.

Lemma restore_fields_raises (fs : list field_dict) :
  raises_only caught (restore_fields fs).
Proof.
  induction fs as [|field fs IH]; cbn [restore_fields].
  - apply raises_pure.
  - apply raises_bind; [apply restore_field_raises|intros ?].
    apply raises_bind; [exact IH|intros ?]. apply raises_pure.
Qed.

Lemma restore_collection_raises (item : string * list string) :
  raises_only caught (restore_collection item).
Proof.
  unfold restore_collection. destruct item as [collection_name paths].
  unfold caught.
  repeat first
    [ apply restore_fields_raises
    | raises_step
    | progress unfold print, call, require, time_sleep, download_json,
        has_collection, drop_collection, new_Collection, create_index,
        restore_index ].
Qed.

(** The [try] block of the restore program raises nothing but exceptions
    that its handler catches, and the [exit(0)] of an empty listing. *)
Lemma restore_listing_raises (path : string) :
  raises_only (fun e => caught e \/ e = SystemExit 0) (restore_listing path).
Proof.
  unfold restore_listing.
  apply raises_bind.
  - unfold list_objects_v2, call. repeat raises_step.
  - intros [keys|].
    + apply raises_bind; [|intros ?; unfold print; apply raises_modify].
      intros w e w' H. left.
      exact (raises_for_each caught _ _ restore_collection_raises _ _ _ H).
    + apply raises_bind; [unfold print; apply raises_modify|intros _].
      apply raises_raise. right. reflexivity.
Qed.

(** One step of a job's program run on a symbolic world. *)
Ltac py_norm :=
  cbv beta;
  cbn [milvus refused_connects server_rejects bucket stdout api
       with_milvus with_bucket with_refused fst snd negb orb andb
       from_option id].

Ltac py_step :=
  lazymatch goal with
  | |- wp (bind _ _) _ _ => apply wp_bind
  | |- wp (pure _) _ _ => apply wp_pure
  | |- wp get _ _ => apply wp_get
  | |- wp (modify _) _ _ => apply wp_modify
  | |- wp (raise _) _ _ => apply wp_raise
  | |- wp (match ?x with _ => _ end) _ _ => wp_split x
  | |- wp (print _) _ _ => unfold print
  | |- wp (call _) _ _ => unfold call
  | |- wp (require _ _) _ _ => unfold require
  | |- wp connect _ _ => unfold connect
  | |- wp (time_sleep _) _ _ => unfold time_sleep
  | |- wp (list_objects_v2 _) _ _ => unfold list_objects_v2
  | |- wp (download_json _) _ _ => unfold download_json
  | |- wp (upload_json _ _) _ _ => unfold upload_json
  | |- wp list_collections _ _ => unfold list_collections
  | |- wp (get_collection _) _ _ => unfold get_collection
  | |- wp (has_collection _) _ _ => unfold has_collection
  | |- wp (drop_collection _) _ _ => unfold drop_collection
  | |- wp (new_Collection _ _) _ _ => unfold new_Collection
  | |- wp (create_index _ _) _ _ => unfold create_index
  end;
  py_norm.

Ltac py_go := py_norm; repeat py_step.

Lemma connect_loop_connects (n i : nat) (w : pyworld) :
  (i + n = max_retries)%nat ->
  (refused_connects w < n)%nat ->
  wp (connect_loop (seq i n)) w
     (fun r w' => r = inr tt /\ milvus w' = milvus w /\ bucket w' = bucket w
                  /\ server_rejects w' = server_rejects w).
Proof.
  revert i w. induction n as [|n IH]; intros i w Hi Hr; [lia|].
  cbn [seq connect_loop].
  destruct (refused_connects w) as [|r] eqn:Er.
  - py_go. auto.
  - assert (Hlt : (i <? max_retries - 1)%nat = true).
    { apply Nat.ltb_lt. unfold max_retries in *. lia. }
    py_go.
    eapply wp_mono; [apply IH; [lia|cbn [refused_connects]; lia]|].
    cbn [milvus bucket server_rejects]. intros r' w' H. exact H.
Qed.

Lemma connect_with_retries_connects (w : pyworld) :
  (refused_connects w < max_retries)%nat ->
  exists w', connect_with_retries w = (inr tt, w')
             /\ milvus w' = milvus w /\ bucket w' = bucket w
             /\ server_rejects w' = server_rejects w.
Proof.
  intros Hr. apply wp_run. unfold connect_with_retries.
  apply connect_loop_connects; [reflexivity|exact Hr].
Qed.

Lemma restore_program_exit (path : string) (w : pyworld) :
  (refused_connects w < max_retries)%nat ->
  python_exit (fst (restore_program path w)) = 0%Z.
Proof.
  intros Hr. unfold restore_program.
  change (wp (print "Waiting for Milvus to be ready..." ;;;
              time_sleep 120 ;;; connect_with_retries ;;;
              try_except (restore_listing path) is_Exception
                (fun e => print ("Error during restoration: " ++ str_exc e)))
             w (fun r _ => python_exit r = 0%Z)).
  py_go.
  match goal with
  | |- wp connect_with_retries ?w1 _ =>
      destruct (connect_with_retries_connects w1 Hr) as (w' & Hrun & _)
  end.
  eapply wp_known; [exact Hrun|]. py_norm.
  unfold wp, try_except.
  destruct (restore_listing path w') as [[e|[]] w''] eqn:Hl; [|reflexivity].
  destruct (restore_listing_raises path _ _ _ Hl) as [Hc| ->].
  - unfold caught in Hc. rewrite Hc. reflexivity.
  - reflexivity.
Qed.

Lemma restore_job_succeeds (path : string) (d : pyworld) :
  (refused_connects d < max_retries)%nat ->
  fst (run_pods backoffLimit (restore_program path) d) = true.
Proof.
  intros Hr. unfold backoffLimit. cbn [run_pods].
  pose proof (restore_program_exit path d Hr) as Hexit.
  destruct (restore_program path d) as [r d']. cbn [fst] in Hexit.
  rewrite Hexit. reflexivity.
Qed.

Lemma restore_data_reports_success (s : shworld) (info : file_content) :
  files s !! "milvus-backup-info.env" = Some info ->
  (refused_connects (deployment s) < max_retries)%nat ->
  exists s', restore_data s = (inr tt, s')
    /\ jobs s' !! "milvus-restore" = Some true
    /\ In "Restoration completed successfully" (console s').
Proof.
  intros Hfile Hr. apply wp_run.
  assert (Hjob : forall path,
             run_pods backoffLimit (restore_program path) (deployment s)
             = (true, snd (run_pods backoffLimit (restore_program path)
                                    (deployment s)))).
  { intros path. pose proof (restore_job_succeeds path _ Hr) as Hok.
    destruct (run_pods backoffLimit (restore_program path) (deployment s))
      as [ok p].
    cbn [fst] in Hok. subst ok. reflexivity. }
  assert (Hgrep : Str.grep_q "1" "1" = true) by reflexivity.
  unfold restore_data. wp_go.
  all: split; [reflexivity|]; split; [reflexivity|];
       rewrite ?in_app_iff; cbn [In]; tauto.
Qed.

Lemma restore_data_skipped (s : shworld) :
  files s !! "milvus-backup-info.env" = None ->
  exists s', restore_data s = (inr tt, s')
             /\ calls s' = calls s /\ untouched s s'.
Proof.
  intros Hfile. apply wp_run. unfold restore_data, untouched. wp_go.
  auto 10.
Qed.

(** C10. Once connected, the restore program exits with status 0 whatever
    the listing and the recreation of the collections do: every exception
    of the [try] block is caught by a handler that only prints.  So the
    restore job succeeds and [restore_data] prints that the restoration
    completed successfully.  Without the backup-info file [restore_data]
    makes no external call and changes nothing. *)
Theorem restore_failures_are_swallowed :
  (forall path w,
      (refused_connects w < max_retries)%nat ->
      python_exit (fst (restore_program path w)) = 0%Z)
  /\ (forall s info,
         files s !! "milvus-backup-info.env" = Some info ->
         (refused_connects (deployment s) < max_retries)%nat ->
         exists s', restore_data s = (inr tt, s')
           /\ jobs s' !! "milvus-restore" = Some true
           /\ In "Restoration completed successfully" (console s'))
  /\ (forall s,
         files s !! "milvus-backup-info.env" = None ->
         exists s', restore_data s = (inr tt, s')
                    /\ calls s' = calls s /\ untouched s s').
Proof.
  split; [|split].
  - exact restore_program_exit.
  - exact restore_data_reports_success.
  - exact restore_data_skipped.
Qed.

Lemma restore_failures_are_swallowed_witness :
  python_exit (fst (restore_program "backup-20240101000000"
                      Sample.restoring_audit_and_docs)) = 0%Z
  /\ (exists s',
        restore_data
          (set_files (insert "milvus-backup-info.env"
                             (BackupInfo "backup-20240101000000"))
                     (Sample.shell [] Sample.restoring_audit_and_docs))
        = (inr tt, s')
        /\ jobs s' !! "milvus-restore" = Some true
        /\ In "Restoration completed successfully" (console s'))
  /\ (exists s',
        restore_data (Sample.shell [] Sample.restoring_audit_and_docs)
        = (inr tt, s')
        /\ calls s' = calls (Sample.shell [] Sample.restoring_audit_and_docs)
        /\ untouched (Sample.shell [] Sample.restoring_audit_and_docs) s').
Proof.
  split; [|split].
  - apply (proj1 restore_failures_are_swallowed).
    unfold max_retries. cbn. lia.
  - apply (proj1 (proj2 restore_failures_are_swallowed)
             _ (BackupInfo "backup-20240101000000")).
    + reflexivity.
    + unfold max_retries. cbn. lia.
  - apply (proj2 (proj2 restore_failures_are_swallowed)). reflexivity.
Defined.

(* ===================================================================== *)
(** * The restore job: what it recreates *)
(* ===================================================================== *)

Ltac py_lookup :=
  repeat match goal with
         | |- context [<[?k:=?v]> ?m !! ?k] => rewrite (lookup_insert_eq m k v)
         | |- context [delete ?k ?m !! ?k] => rewrite (lookup_delete_eq m k)
         end.

Lemma restore_field_spec (field : field_dict) (w : pyworld) :
  wp (restore_field field) w
     (fun r w' =>
        (exists out, w' = {| milvus := milvus w;
                             refused_connects := refused_connects w;
                             server_rejects := server_rejects w;
                             bucket := bucket w; stdout := out;
                             api := api w |})
        /\ forall fs, r = inr fs -> exists f, fs = [f] /\ rebuilt_field field f).
Proof.
  assert (Hkey : warning_subscript = Some KType) by reflexivity.
  destruct w. unfold restore_field, field_getitem. py_go.
  all: split; [eexists; reflexivity|]; intros fs Hfs; try discriminate Hfs.
  inversion Hfs; subst. eexists. split; [reflexivity|].
  unfold rebuilt_field. eauto 10.
Qed.

Lemma restore_fields_spec (fds : list field_dict) (w : pyworld) :
  wp (restore_fields fds) w
     (fun r w' =>
        (exists out, w' = {| milvus := milvus w;
                             refused_connects := refused_connects w;
                             server_rejects := server_rejects w;
                             bucket := bucket w; stdout := out;
                             api := api w |})
        /\ forall fs, r = inr fs -> Forall2 rebuilt_field fds fs).
Proof.
  revert w. induction fds as [|field fds IH]; intros w; cbn [restore_fields].
  - py_go. split; [exists (stdout w); destruct w; reflexivity|].
    intros fs Hfs. inversion Hfs; subst. constructor.
  - apply wp_bind. eapply wp_mono; [apply restore_field_spec|].
    intros [e|one] w1 ((out1 & ->) & Hone).
    + split; [eexists; reflexivity|]. intros fs Hfs. discriminate Hfs.
    + apply wp_bind. eapply wp_mono; [apply IH|].
      cbn [milvus refused_connects server_rejects bucket api].
      intros [e|more] w2 ((out2 & ->) & Hmore).
      * split; [eexists; reflexivity|]. intros fs Hfs. discriminate Hfs.
      * py_go. split; [eexists; reflexivity|].
        intros fs Hfs. inversion Hfs; subst.
        destruct (Hone _ eq_refl) as (f & -> & Hf).
        constructor; [exact Hf|]. apply Hmore. reflexivity.
Qed.

(** The trace of calls has only grown. *)
Ltac extends :=
  eexists; rewrite <- ?app_assoc;
  first [reflexivity | symmetry; apply app_nil_r].

(** The part of a postcondition that says what a step left alone. *)
Ltac frame :=
  split; [reflexivity|]; split; [reflexivity|];
  split; [intros other Hother;
          rewrite ?lookup_insert_ne, ?lookup_delete_ne by congruence;
          reflexivity|];
  split; [extends|].

Lemma restore_indexes_spec (collection_name : string) (ixs : list index_dict)
    (w : pyworld) (c : Collection) :
  milvus w !! collection_name = Some c ->
  wp (for_each (restore_index collection_name) ixs) w
     (fun r w' =>
        bucket w' = bucket w /\ server_rejects w' = server_rejects w
        /\ (forall other, other <> collection_name ->
                          milvus w' !! other = milvus w !! other)
        /\ (exists made, api w' = (api w ++ made)%list)
        /\ (r = inr tt ->
            exists added, Forall2 rebuilt_index ixs added
              /\ milvus w' !! collection_name
                 = Some {| schema := schema c;
                           indexes := (indexes c ++ added)%list |})).
Proof.
  revert w c. induction ixs as [|ix ixs IH]; intros w c Hc; cbn [for_each].
  - py_go. repeat split; auto.
    + extends.
    + intros _. exists []. split; [constructor|].
      rewrite app_nil_r, Hc. destruct c; reflexivity.
  - unfold restore_index at 1.
    destruct (ix_field_name ix) as [f|] eqn:Hf,
             (ix_index_type ix) as [t|] eqn:Ht,
             (ix_params ix) as [p|] eqn:Hp; py_go.
    all: try (frame; intros Hr; discriminate Hr).
    eapply wp_mono; [apply IH; cbn [milvus]; apply lookup_insert_eq|].
    py_norm. cbn [schema indexes field_name index_type index_params].
    intros r w' (Hb & Hs & Hother & (made & Hapi) & Hok).
    repeat split; auto.
    + intros other Hne. rewrite (Hother other Hne).
      apply lookup_insert_ne. congruence.
    + eexists. rewrite Hapi, <- app_assoc. reflexivity.
    + intros Hr. destruct (Hok Hr) as (added & Hadded & Hfinal).
      exists ({| field_name := f; index_type := t; index_params := p |} :: added).
      split.
      * constructor; [|exact Hadded]. unfold rebuilt_index. auto.
      * rewrite Hfinal, <- app_assoc. reflexivity.
Qed.

Lemma restore_collection_spec (collection_name : string) (paths : list string)
    (w : pyworld) :
  wp (restore_collection (collection_name, paths)) w
     (fun r w' =>
        bucket w' = bucket w /\ server_rejects w' = server_rejects w
        /\ (forall other, other <> collection_name ->
                          milvus w' !! other = milvus w !! other)
        /\ (exists made, api w' = (api w ++ made)%list)
        /\ (r = inr tt -> restored collection_name paths w w')).
Proof.
  unfold restore_collection.
  destruct (find_file "/schema.json" paths) as [schema_file|] eqn:Hschema;
    [|py_go; frame; intros _; unfold restored; rewrite Hschema;
      intros [? Hsome]; discriminate Hsome].
  assert (Hdec : forall c : Collection,
             bool_decide (is_Some (Some c)) = true)
    by (intros c; apply bool_decide_eq_true_2; eauto).
  assert (Hdec' : bool_decide (is_Some (@None Collection)) = false)
    by (apply bool_decide_eq_false_2; intros [? H]; discriminate H).
  destruct (bucket w !! schema_file) as [[doc|ixs0]|] eqn:Hdoc;
    [destruct (sd_fields doc) as [fds|] eqn:Hfds| |];
    py_go; try (frame; intros Hr; discriminate Hr).
  eapply wp_mono; [apply restore_fields_spec|].
  intros [e|field_schemas] w1 ((out & ->) & Hfields);
    py_norm; [frame; intros Hr; discriminate Hr|].
  specialize (Hfields _ eq_refl).
  destruct (server_rejects w collection_name
              {| fields := field_schemas;
                 schema_description := default "" (sd_description doc) |})
    eqn:Hrejects.
  all: destruct (find_file "/indexes.json" paths) as [index_file|] eqn:Hindex;
    [destruct (bucket w !! index_file) as [[doc'|ixs]|] eqn:Hixs|].
  all: destruct (milvus w !! collection_name) as [old|] eqn:Hold.
  all: repeat (py_step; rewrite ?Hold; py_lookup).
  all: try (frame; intros Hr; discriminate Hr).
  (* the index document is an empty dict: nothing to iterate over *)
  1, 2: frame; intros _; unfold restored; intros _; (split;
      [eexists; split; [apply lookup_insert_eq|]; unfold rebuilt_from;
       exists schema_file, doc, fds; rewrite Hindex; cbn [schema fields
         schema_description indexes];
       do 5 (split; [solve [eauto]|]);
       exists (SchemaJson doc'); split; [exact Hixs|]; split;
       [assumption|reflexivity]|]).
  (* with an index document *)
  3, 4: eapply wp_mono;
    [eapply restore_indexes_spec; py_norm; apply lookup_insert_eq|];
    py_norm; cbn [schema indexes app];
    intros [e|[]] w' (Hb & Hs & Hother & (made & Hapi) & Hok); py_go;
    (split; [exact Hb|]); (split; [exact Hs|]);
    (split; [intros other Hne; rewrite (Hother other Hne);
             rewrite ?lookup_insert_ne, ?lookup_delete_ne by congruence;
             reflexivity|]);
    (split; [eexists; rewrite Hapi, <- !app_assoc; reflexivity|]);
    (intros Hr; try discriminate Hr);
    destruct (Hok eq_refl) as (added & Hadded & Hfinal);
    unfold restored; intros _; (split;
      [eexists; split; [exact Hfinal|]; unfold rebuilt_from;
       exists schema_file, doc, fds; rewrite Hindex; cbn [schema fields
         schema_description indexes];
       do 5 (split; [solve [eauto]|]);
       exists (IndexesJson ixs); split; [exact Hixs|exact Hadded]|]).
  (* without one *)
  5, 6: frame; intros _; unfold restored; intros _; (split;
      [eexists; split; [apply lookup_insert_eq|]; unfold rebuilt_from;
       exists schema_file, doc, fds; rewrite Hindex; cbn [schema fields
         schema_description indexes]; eauto 10|]).
  all: rewrite Hold; intros Hwas; try (destruct Hwas as [? Hwas];
                                       discriminate Hwas).
  - exists (api w ++ [Download schema_file; HasCollection collection_name])%list.
    eexists. rewrite <- !app_assoc. reflexivity.
  - exists (api w ++ [Download schema_file; HasCollection collection_name])%list.
    eexists. rewrite Hapi, <- !app_assoc. reflexivity.
  - exists (api w ++ [Download schema_file; HasCollection collection_name])%list.
    eexists. rewrite <- !app_assoc. reflexivity.
Qed.

Lemma restore_loop_spec (items : list (string * list string)) (w : pyworld) :
  List.NoDup (map fst items) ->
  wp (for_each restore_collection items) w
     (fun r w' =>
        bucket w' = bucket w /\ server_rejects w' = server_rejects w
        /\ (forall other, ~ In other (map fst items) ->
                          milvus w' !! other = milvus w !! other)
        /\ (exists made, api w' = (api w ++ made)%list)
        /\ (r = inr tt ->
            forall collection_name paths,
              In (collection_name, paths) items ->
              restored collection_name paths w w')).
Proof.
  revert w. induction items as [|[first_name first_paths] items IH];
    intros w Hnodup; cbn [for_each].
  - py_go. split; [reflexivity|]. split; [reflexivity|].
    split; [reflexivity|]. split; [extends|]. intros _ ? ? [].
  - cbn [map fst] in Hnodup. apply List.NoDup_cons_iff in Hnodup as [Hfresh Hnodup].
    apply wp_bind. eapply wp_mono; [apply restore_collection_spec|].
    intros [e|[]] w1 (Hb1 & Hs1 & Hother1 & (made1 & Hapi1) & Hok1).
    + split; [exact Hb1|]. split; [exact Hs1|].
      split; [intros other Hnot; apply Hother1; intros ->; apply Hnot;
              left; reflexivity|].
      split; [eexists; exact Hapi1|]. intros Hr. discriminate Hr.
    + specialize (Hok1 eq_refl).
      eapply wp_mono; [apply (IH w1 Hnodup)|].
      intros r w' (Hb & Hs & Hother & (made & Hapi) & Hok).
      split; [congruence|]. split; [congruence|].
      split; [intros other Hnot; rewrite Hother, Hother1;
              [reflexivity|intros ->|intros Hin]; apply Hnot;
              [left; reflexivity|right; exact Hin]|].
      split; [eexists; rewrite Hapi, Hapi1, <- app_assoc; reflexivity|].
      intros Hr collection_name paths [Hhere|Hlater].
      * inversion Hhere; subst. unfold restored in *. intros Hfile.
        destruct (Hok1 Hfile) as ((c & Hc & Hrebuilt) & Htrace).
        split.
        -- exists c. split; [|exact Hrebuilt].
           rewrite (Hother collection_name Hfresh). exact Hc.
        -- intros Hwas. destruct (Htrace Hwas) as (before & after & Hsplit).
           exists before. eexists.
           rewrite Hapi, Hsplit, <- app_assoc. reflexivity.
      * assert (Hne : collection_name <> first_name).
        { intros ->. apply Hfresh. apply in_map_iff.
          exists (first_name, paths). auto. }
        pose proof (Hok Hr collection_name paths Hlater) as Hrest.
        unfold restored in *. intros Hfile.
        destruct (Hrest Hfile) as ((c & Hc & Hrebuilt) & Htrace).
        split.
        -- exists c. split; [exact Hc|]. rewrite <- Hb1. exact Hrebuilt.
        -- intros Hwas. apply Htrace. rewrite (Hother1 _ Hne). exact Hwas.
Qed.

Lemma dict_append_keys (collection_name key : string)
    (d : list (string * list string)) :
  map fst (dict_append collection_name key d)
  = if existsb (String.eqb collection_name) (map fst d) then map fst d
    else (map fst d ++ [collection_name])%list.
Proof.
  induction d as [|[n paths] d IH]; cbn [dict_append map fst existsb app].
  - reflexivity.
  - rewrite (String.eqb_sym collection_name n).
    destruct (String.eqb n collection_name) eqn:Hn; cbn [orb map fst].
    + reflexivity.
    + rewrite IH. destruct (existsb _ _); reflexivity.
Qed.

Lemma dict_append_NoDup (collection_name key : string)
    (d : list (string * list string)) :
  List.NoDup (map fst d) ->
  List.NoDup (map fst (dict_append collection_name key d)).
Proof.
  intros Hd. rewrite dict_append_keys.
  destruct (existsb _ _) eqn:Hin; [exact Hd|].
  apply NoDup_ListNoDup, NoDup_app.
  split; [apply NoDup_ListNoDup; exact Hd|]. split.
  - intros x Hx Hx'. apply list_elem_of_In in Hx'.
    destruct Hx' as [Heq|[]]. subst x.
    assert (existsb (String.eqb collection_name) (map fst d) = true); [|congruence].
    apply existsb_exists. exists collection_name.
    split; [apply list_elem_of_In; exact Hx|apply String.eqb_refl].
  - apply NoDup_singleton.
Qed.

Lemma collection_paths_NoDup (keys : list string) :
  List.NoDup (map fst (collection_paths keys)).
Proof.
  unfold collection_paths.
  assert (Hgen : forall d, List.NoDup (map fst d) ->
    List.NoDup (map fst (fold_left
      (fun d key => match key_collection key with
                    | Some collection_name => dict_append collection_name key d
                    | None => d
                    end) keys d))).
  { induction keys as [|key keys IH]; intros d Hd; cbn [fold_left].
    - exact Hd.
    - apply IH. destruct (key_collection key); [|exact Hd].
      apply dict_append_NoDup. exact Hd. }
  apply Hgen. constructor.
Qed.

Lemma rebuilt_fields_functional (fds : list field_dict)
    (fs fs' : list FieldSchema) :
  Forall2 rebuilt_field fds fs -> Forall2 rebuilt_field fds fs' -> fs = fs'.
Proof.
  intros H. revert fs'.
  induction H as [|fd f fds fs Hf _ IH]; intros fs' H'; inversion H'; subst.
  - reflexivity.
  - f_equal; [|apply IH; assumption].
    destruct Hf as (t1 & n1 & d1 & Ht1 & Hn1 & Hd1 & ->).
    match goal with
    | Hf' : rebuilt_field fd _ |- _ =>
        destruct Hf' as (t2 & n2 & d2 & Ht2 & Hn2 & Hd2 & ->)
    end.
    congruence.
Qed.

Lemma rebuilt_indexes_functional (ixs : list index_dict) (l l' : list Index) :
  Forall2 rebuilt_index ixs l -> Forall2 rebuilt_index ixs l' -> l = l'.
Proof.
  intros H. revert l'.
  induction H as [|ix i ixs l Hi _ IH]; intros l' H'; inversion H'; subst.
  - reflexivity.
  - f_equal; [|apply IH; assumption].
    destruct Hi as (Hf & Ht & Hp).
    match goal with
    | Hi' : rebuilt_index ix ?i' |- _ =>
        destruct Hi' as (Hf' & Ht' & Hp'); destruct i, i'
    end.
    cbn [field_name index_type index_params] in *. congruence.
Qed.

(** The backup documents determine the collection: nothing else enters. *)
Lemma rebuilt_from_functional (b : gmap string s3_object) (paths : list string)
    (c c' : Collection) :
  rebuilt_from b paths c -> rebuilt_from b paths c' -> c = c'.
Proof.
  intros (f1 & doc1 & fds1 & Hfile1 & Hdoc1 & Hfds1 & Hfields1 & Hdesc1 & Hix1)
         (f2 & doc2 & fds2 & Hfile2 & Hdoc2 & Hfds2 & Hfields2 & Hdesc2 & Hix2).
  assert (f2 = f1) by congruence. subst f2.
  assert (doc2 = doc1) by congruence. subst doc2.
  assert (fds2 = fds1) by congruence. subst fds2.
  pose proof (rebuilt_fields_functional _ _ _ Hfields1 Hfields2) as Hfields.
  assert (Hindexes : indexes c = indexes c').
  { destruct (find_file "/indexes.json" paths) as [index_file|].
    - destruct Hix1 as (d1 & Hd1 & Hm1), Hix2 as (d2 & Hd2 & Hm2).
      assert (d2 = d1) by congruence. subst d2.
      destruct d1 as [d|ixs].
      + destruct Hm1 as [_ ->], Hm2 as [_ ->]. reflexivity.
      + exact (rebuilt_indexes_functional _ _ _ Hm1 Hm2).
    - congruence. }
  destruct c as [[fs1 desc1] ix1], c' as [[fs2 desc2] ix2].
  cbn [schema fields schema_description indexes] in *. congruence.
Qed.

(** What a loop that runs to its end leaves behind: every collection of
    the manifest that has a schema document is the collection that the
    restore program builds from its documents, whatever the cluster held
    before, and when a collection of that name existed the calls show a
    drop_collection of the name immediately followed by its creation.
    Nothing is said here of a loop that a failing collection ends, nor of
    how the rebuilt fields compare with the backed-up ones. *)
Lemma completed_loop_rebuilds (MILVUS_BACKUP_PATH collection_name : string)
    (paths : list string) (w w' : pyworld) :
  restore_listing MILVUS_BACKUP_PATH w = (inr tt, w') ->
  In (collection_name, paths) (collection_paths (manifest MILVUS_BACKUP_PATH w)) ->
  is_Some (find_file "/schema.json" paths) ->
  (exists c, milvus w' !! collection_name = Some c
             /\ rebuilt_from (bucket w) paths c
             /\ forall c', rebuilt_from (bucket w) paths c' -> c' = c)
  /\ (is_Some (milvus w !! collection_name) ->
      exists before after,
        api w' = (before ++ DropCollection collection_name
                         :: CreateCollection collection_name :: after)%list).
Proof.
  intros Hrun Hin Hfile.
  assert (Hwp : wp (restore_listing MILVUS_BACKUP_PATH) w
                   (fun r w' => r = inr tt ->
                                restored collection_name paths w w')).
  { unfold restore_listing.
    destruct (manifest MILVUS_BACKUP_PATH w) as [|key keys] eqn:Hkeys;
      unfold manifest in Hkeys; py_go.
    - intros Hr. discriminate Hr.
    - eapply wp_mono; [apply restore_loop_spec, collection_paths_NoDup|].
      py_norm.
      intros [e|[]] w1 (Hb & Hs & Hother & (made & Hapi) & Hok); py_go;
        intros Hr; [discriminate Hr|].
      pose proof (Hok eq_refl collection_name paths Hin) as Hrest.
      unfold restored in *. intros Hf. destruct (Hrest Hf) as (Hc & Htrace).
      split; [exact Hc|].
      intros Hwas. destruct (Htrace Hwas) as (before & after & Hsplit).
      exists before, after. exact Hsplit. }
  unfold wp in Hwp. rewrite Hrun in Hwp. cbn [fst snd] in Hwp.
  destruct (Hwp eq_refl Hfile) as ((c & Hc & Hrebuilt) & Htrace).
  split; [|exact Htrace].
  exists c. split; [exact Hc|]. split; [exact Hrebuilt|].
  intros c' Hc'. exact (rebuilt_from_functional _ _ _ _ Hc' Hrebuilt).
Qed.

(* ===================================================================== *)
(** * The restore job on two backups *)
(* ===================================================================== *)

(** C1. The backup and restore of [docs], fields id (INT64, primary) and
    vec (FLOAT_VECTOR, dim 128): the restore program looks the recorded
    type up with a substring test, in the order of its table, so that
    DataType.FLOAT_VECTOR is taken for DataType.FLOAT.  After the round
    trip [docs] exists with a field vec of type FLOAT and no dimension; the
    field list is not the one that was backed up.  The other four entries
    of the table are found under their own name. *)
Theorem roundtrip_restores_vector_as_float :
  first_match dtype_map (str_dtype FLOAT_VECTOR) = Some FLOAT
  /\ first_match dtype_map (str_dtype INT64) = Some INT64
  /\ first_match dtype_map (str_dtype FLOAT) = Some FLOAT
  /\ first_match dtype_map (str_dtype BINARY_VECTOR) = Some BINARY_VECTOR
  /\ first_match dtype_map (str_dtype VARCHAR) = Some VARCHAR
  /\ (let r := restore_program "backup-20240101000000" Sample.restoring_docs in
      python_exit (fst r) = 0%Z
      /\ milvus (snd r) !! "docs"
         = Some {| schema :=
                     {| fields :=
                          [ Sample.id_field;
                            {| name := "vec"; description := "";
                               dtype := FLOAT; is_primary := false;
                               auto_id := false; params := [] |} ];
                        schema_description := "" |};
                   indexes := [] |}
      /\ milvus (snd r) !! "docs" <> Some Sample.docs).
Proof.
  do 5 (split; [reflexivity|]).
  vm_compute. split; [reflexivity|]. split; [reflexivity|].
  intros H. discriminate H.
Qed.

(** A field whose recorded type matches no entry of the table makes the
    loop body raise KeyError, whatever the world. *)
Lemma restore_field_unknown_type (field : field_dict) (field_type_str : string)
    (w : pyworld) :
  fd_type field = Some field_type_str ->
  first_match dtype_map field_type_str = None ->
  restore_field field w = (inl (KeyError "<class 'type'>"), w).
Proof.
  intros Htype Hnone. unfold restore_field, require. rewrite Htype.
  cbv [bind pure]. rewrite Hnone. reflexivity.
Qed.

(** C2. A field whose recorded type matches no entry of the table does not
    reach the warning: the whole program is the single-quoted argument of
    python -c, so the quotes around type in the f-string of the warning end
    and reopen the shell word, and Python is given the subscript [type],
    the builtin class, which is no key of the field.  The KeyError leaves
    the loop through the handler of the restore program.  With a backup of
    [audit] (one DOUBLE field) and [docs], no warning is printed and neither
    collection is restored, while the program exits with status 0. *)
Theorem unknown_type_aborts_restore :
  subscript_key warning_subscript_written = Some (KStr "type")
  /\ warning_subscript = Some KType
  /\ first_match dtype_map (str_dtype DOUBLE) = None
  /\ restore_field (backup_field Sample.score_field)
                   Sample.restoring_audit_and_docs
     = (inl (KeyError "<class 'type'>"), Sample.restoring_audit_and_docs)
  /\ (let r := restore_program "backup-20240101000000"
                 Sample.restoring_audit_and_docs in
      python_exit (fst r) = 0%Z
      /\ stdout (snd r)
         = ["Waiting for Milvus to be ready..."; "Connected to Milvus";
            "Processing collection: audit";
            "Error during restoration: <class 'type'>"]
      /\ milvus (snd r) !! "audit" = None
      /\ milvus (snd r) !! "docs" = None).
Proof.
  split; [reflexivity|]. split; [reflexivity|]. split; [reflexivity|].
  split; [apply (restore_field_unknown_type _ (str_dtype DOUBLE));
          reflexivity|].
  vm_compute. auto.
Qed.

(** C3. A collection that is named in the backup and exists at restore
    time is not always dropped and recreated with its backed-up shape.
    With a backup of [audit] (one DOUBLE field) and [docs] and a cluster
    that already serves a hand-made [audit] and [docs], both names are in
    the manifest and [audit] comes first; its DOUBLE field raises KeyError
    in the warning for an unknown type, the handler ends the loop, and the
    program exits with status 0 after the download of one schema document:
    no has_collection, no drop_collection, and both hand-made collections
    are still served.  With a backup of [docs] alone and a hand-made [docs]
    in the cluster, [docs] is dropped and then created, and the hand-made
    one is gone, but the new [docs] has the field vec as FLOAT without
    dimension, as the substring lookup in the table of types finds it: its
    fields are not the backed-up ones. *)
Theorem stale_collection_survives_restore :
  (let w := Sample.overwriting_audit_and_docs in
   let r := restore_program "backup-20240101000000" w in
   map fst (collection_paths (manifest "backup-20240101000000" w))
   = ["audit"; "docs"]
   /\ milvus w !! "audit" = Some Sample.stale_docs
   /\ milvus w !! "docs" = Some Sample.stale_docs
   /\ python_exit (fst r) = 0%Z
   /\ api (snd r)
      = [Sleep 120; Connect; ListObjects "backup-20240101000000/";
         Download "backup-20240101000000/audit/schema.json"]
   /\ stdout (snd r)
      = ["Waiting for Milvus to be ready..."; "Connected to Milvus";
         "Processing collection: audit";
         "Error during restoration: <class 'type'>"]
   /\ milvus (snd r) !! "audit" = Some Sample.stale_docs
   /\ milvus (snd r) !! "docs" = Some Sample.stale_docs)
  /\ (let w := Sample.overwriting in
      let r := restore_program "backup-20240101000000" w in
      map fst (collection_paths (manifest "backup-20240101000000" w))
      = ["docs"]
      /\ milvus w !! "docs" = Some Sample.stale_docs
      /\ python_exit (fst r) = 0%Z
      /\ api (snd r)
         = [Sleep 120; Connect; ListObjects "backup-20240101000000/";
            Download "backup-20240101000000/docs/schema.json";
            HasCollection "docs"; DropCollection "docs";
            CreateCollection "docs"]
      /\ milvus (snd r) !! "docs"
         = Some {| schema :=
                     {| fields :=
                          [ Sample.id_field;
                            {| name := "vec"; description := "";
                               dtype := FLOAT; is_primary := false;
                               auto_id := false; params := [] |} ];
                        schema_description := "" |};
                   indexes := [] |}
      /\ option_map (fun c => fields (schema c)) (milvus (snd r) !! "docs")
         <> Some (fields (schema Sample.docs))).
Proof.
  split.
  - vm_compute. repeat (split; [reflexivity|]). reflexivity.
  - vm_compute. repeat (split; [reflexivity|]).
    intros H. discriminate H.
Qed.

(* ===================================================================== *)
(** * The endpoint wait loop *)
(* ===================================================================== *)

Lemma wait_loop_times_out (k : nat) (w : lbworld) :
  (k <= 40)%nat ->
  never_ready w ->
  exists w', wait_loop 600 (600 - 15 * Z.of_nat k) w = (1%Z, w')
    /\ lb_polls w' = (lb_polls w + k)%nat
    /\ lb_slept w' = (lb_slept w + 15 * Z.of_nat k)%Z
    /\ last (lb_console w') = Some timed_out_line.
Proof.
  revert w. induction k as [|k IH]; intros w Hk Hnever.
  - replace (600 - 15 * Z.of_nat 0)%Z with 600%Z by lia.
    simp wait_loop. destruct (Z_lt_dec 600 600) as [Hlt|Hge]; [lia|].
    cbn [wait_loop_unfold_clause_1]. eexists. split; [reflexivity|].
    cbn [lb_echo lb_polls lb_slept lb_console].
    split; [lia|]. split; [lia|]. rewrite last_snoc. reflexivity.
  - simp wait_loop.
    destruct (Z_lt_dec (600 - 15 * Z.of_nat (S k)) 600) as [Hlt|Hge]; [|lia].
    cbn [wait_loop_unfold_clause_1 lb_poll fst snd].
    rewrite (Hnever (lb_polls w)).
    replace (600 - 15 * Z.of_nat (S k) + 15)%Z
      with (600 - 15 * Z.of_nat k)%Z by lia.
    match goal with
    | |- context [wait_loop 600 _ ?w1] =>
        destruct (IH w1) as (w' & Hrun & Hpolls & Hslept & Hlast);
          [lia|exact Hnever|]
    end.
    exists w'. split; [exact Hrun|].
    cbn [lb_sleep lb_echo lb_polls lb_slept lb_console] in Hpolls, Hslept.
    split; [lia|]. split; [lia|]. exact Hlast.
Qed.

(** C6. When the endpoint never becomes available (every poll prints the
    empty string or <pending>), [wait_for_lb] returns status 1 after
    exactly 40 polls and 600 seconds of sleep, and the last line it prints
    reports the timeout. *)
Theorem bounded_polling (w : lbworld) :
  never_ready w ->
  exists w', wait_for_lb w = (1%Z, w')
    /\ lb_polls w' = (lb_polls w + 40)%nat
    /\ lb_slept w' = (lb_slept w + 600)%Z
    /\ last (lb_console w') = Some timed_out_line.
Proof.
  intros Hnever. unfold wait_for_lb.
  destruct (wait_loop_times_out 40
              (lb_echo "Waiting for Milvus LoadBalancer to be provisioned..." w))
    as (w' & Hrun & Hpolls & Hslept & Hlast); [lia|exact Hnever|].
  exists w'. split; [exact Hrun|]. auto.
Qed.

Lemma bounded_polling_witness :
  exists w', wait_for_lb Sample.pending_forever = (1%Z, w')
    /\ lb_polls w' = (lb_polls Sample.pending_forever + 40)%nat
    /\ lb_slept w' = (lb_slept Sample.pending_forever + 600)%Z
    /\ last (lb_console w') = Some timed_out_line.
Proof.
  apply (bounded_polling Sample.pending_forever).
  intros n. reflexivity.
Defined.

(* ===================================================================== *)
(** * The access bootstrap: running it twice *)
(* ===================================================================== *)

Ltac aws_norm :=
  cbv beta;
  cbn [account_id policies roles iam_calls set_policies set_roles
       policy_arn role_arn arn_of fst snd from_option id];
  py_lookup.

Ltac aws_step :=
  lazymatch goal with
  | |- wp (bind _ _) _ _ => apply wp_bind
  | |- wp (pure _) _ _ => apply wp_pure
  | |- wp get _ _ => apply wp_get
  | |- wp (modify _) _ _ => apply wp_modify
  | |- wp (raise _) _ _ => apply wp_raise
  | |- wp (match ?x with _ => _ end) _ _ => wp_split x
  | |- wp (aws _) _ _ => unfold aws
  | |- wp (create_policy _ _) _ _ => unfold create_policy
  | |- wp (list_policies_arn _) _ _ => unfold list_policies_arn
  | |- wp (get_policy _) _ _ => unfold get_policy
  | |- wp (create_role _ _) _ _ => unfold create_role
  | |- wp (get_role _) _ _ => unfold get_role
  | |- wp (attach_role_policy _ _) _ _ => unfold attach_role_policy
  | |- wp get_caller_identity _ _ => unfold get_caller_identity
  | |- wp eks_admin_policy _ _ => unfold eks_admin_policy
  | |- wp eks_admin_role _ _ => unfold eks_admin_role
  | |- wp (lb_controller_policy _) _ _ => unfold lb_controller_policy
  | |- wp (lb_controller_role _ _) _ _ => unfold lb_controller_role
  end;
  aws_norm.

Ltac aws_go := aws_norm; repeat aws_step.

Lemma eks_admin_access_first (a : account) :
  exists p r a1,
    eks_admin_access a = (inr (p, r), a1)
    /\ settled a1 "EksAdminPolicy" "eks-admin-role"
    /\ arn_of p = policy_arn a1 "EksAdminPolicy"
    /\ arn_of r = role_arn a1 "eks-admin-role".
Proof.
  assert (Hwp : wp eks_admin_access a
    (fun res a1 => exists p r, res = inr (p, r)
       /\ settled a1 "EksAdminPolicy" "eks-admin-role"
       /\ arn_of p = policy_arn a1 "EksAdminPolicy"
       /\ arn_of r = role_arn a1 "eks-admin-role")).
  { unfold eks_admin_access, settled.
    destruct (policies a !! "EksAdminPolicy") as [doc|] eqn:Hp,
             (roles a !! "eks-admin-role") as [old|] eqn:Hr;
      aws_go; rewrite ?Hp; cbn [attached];
      (do 2 eexists; split; [reflexivity|]);
      (split; [split; [eauto|]; eexists; split; [reflexivity|];
               cbn [attached]; set_solver|]);
      split; reflexivity. }
  unfold wp in Hwp. destruct (eks_admin_access a) as [res a1].
  cbn [fst snd] in Hwp. destruct Hwp as (p & r & -> & H). exists p, r, a1. auto.
Qed.

Lemma eks_admin_access_again (a : account) :
  settled a "EksAdminPolicy" "eks-admin-role" ->
  exists a',
    eks_admin_access a
    = (inr (Found (policy_arn a "EksAdminPolicy"),
            Found (role_arn a "eks-admin-role")), a')
    /\ policies a' = policies a /\ roles a' = roles a.
Proof.
  intros ((doc & Hp) & (old & Hr & Hattached)).
  apply wp_run. unfold eks_admin_access. aws_go.
  rewrite ?Hp. unfold policy_arn, role_arn. cbn [account_id].
  split; [reflexivity|]. split; [reflexivity|].
  apply map_eq. intros name.
  destruct (decide (name = "eks-admin-role")) as [->|Hne].
  - rewrite lookup_insert_eq, Hr. destruct old as [trust set].
    cbn [trust_policy attached] in *. f_equal. f_equal. set_solver.
  - rewrite lookup_insert_ne by congruence. reflexivity.
Qed.

Lemma lb_controller_access_first (OIDC_PROVIDER iam_policy_json : string)
    (a : account) :
  exists p r a1,
    lb_controller_access OIDC_PROVIDER iam_policy_json a = (inr (p, r), a1)
    /\ is_Some (policies a1 !! POLICY_NAME)
    /\ is_Some (roles a1 !! ROLE_NAME)
    /\ arn_of p = policy_arn a1 POLICY_NAME
    /\ arn_of r = role_arn a1 ROLE_NAME.
Proof.
  assert (Hwp : wp (lb_controller_access OIDC_PROVIDER iam_policy_json) a
    (fun res a1 => exists p r, res = inr (p, r)
       /\ is_Some (policies a1 !! POLICY_NAME)
       /\ is_Some (roles a1 !! ROLE_NAME)
       /\ arn_of p = policy_arn a1 POLICY_NAME
       /\ arn_of r = role_arn a1 ROLE_NAME)).
  { assert (Hdec : forall (A : Type) (x : A),
               bool_decide (is_Some (Some x)) = true)
      by (intros A x; apply bool_decide_eq_true_2; eauto).
    assert (Hdec' : forall A : Type,
               bool_decide (is_Some (@None A)) = false)
      by (intros A; apply bool_decide_eq_false_2; intros [? H];
          discriminate H).
    unfold lb_controller_access.
    destruct (policies a !! POLICY_NAME) as [doc|] eqn:Hp,
             (roles a !! ROLE_NAME) as [old|] eqn:Hr;
      repeat (aws_step; rewrite ?Hp, ?Hr, ?Hdec, ?Hdec');
      rewrite ?Hp, ?Hr; unfold policy_arn, role_arn; cbn [account_id];
      (do 2 eexists; split; [reflexivity|]);
      cbn [arn_of from_option id]; eauto 10. }
  unfold wp in Hwp.
  destruct (lb_controller_access OIDC_PROVIDER iam_policy_json a) as [res a1].
  cbn [fst snd] in Hwp. destruct Hwp as (p & r & -> & H). exists p, r, a1. auto.
Qed.

Lemma lb_controller_access_again (OIDC_PROVIDER iam_policy_json : string)
    (a : account) :
  is_Some (policies a !! POLICY_NAME) ->
  is_Some (roles a !! ROLE_NAME) ->
  exists a',
    lb_controller_access OIDC_PROVIDER iam_policy_json a
    = (inr (Found (policy_arn a POLICY_NAME), Found (role_arn a ROLE_NAME)), a')
    /\ policies a' = policies a /\ roles a' = roles a.
Proof.
  intros [doc Hp] [old Hr]. apply wp_run.
  assert (Hdec : forall (A : Type) (x : A),
             bool_decide (is_Some (Some x)) = true)
    by (intros A x; apply bool_decide_eq_true_2; eauto).
  unfold lb_controller_access.
  repeat (aws_step; rewrite ?Hp, ?Hr, ?Hdec).
  rewrite ?Hp, ?Hr. unfold policy_arn, role_arn. cbn [account_id from_option id].
  auto.
Qed.

(** C8. Both bootstrap scripts can be run twice: the second run of the IAM
    steps finds the policy and the role that the first run created or
    found, resolves the same two ARNs through the lookup commands, and
    leaves the policies and roles of the account as the first run left
    them. *)
Theorem access_bootstrap_idempotent :
  (forall a, exists p r a1 a2,
      eks_admin_access a = (inr (p, r), a1)
      /\ eks_admin_access a1
         = (inr (Found (arn_of p), Found (arn_of r)), a2)
      /\ policies a2 = policies a1 /\ roles a2 = roles a1)
  /\ (forall OIDC_PROVIDER iam_policy_json a, exists p r a1 a2,
         lb_controller_access OIDC_PROVIDER iam_policy_json a
         = (inr (p, r), a1)
         /\ lb_controller_access OIDC_PROVIDER iam_policy_json a1
            = (inr (Found (arn_of p), Found (arn_of r)), a2)
         /\ policies a2 = policies a1 /\ roles a2 = roles a1).
Proof.
  split.
  - intros a.
    destruct (eks_admin_access_first a) as (p & r & a1 & Hrun & Hset & Hp & Hr).
    destruct (eks_admin_access_again a1 Hset) as (a2 & Hrun2 & Hsame).
    exists p, r, a1, a2. rewrite Hp, Hr. auto.
  - intros OIDC_PROVIDER iam_policy_json a.
    destruct (lb_controller_access_first OIDC_PROVIDER iam_policy_json a)
      as (p & r & a1 & Hrun & Hpol & Hrole & Hp & Hr).
    destruct (lb_controller_access_again OIDC_PROVIDER iam_policy_json a1
                Hpol Hrole) as (a2 & Hrun2 & Hsame).
    exists p, r, a1, a2. rewrite Hp, Hr. auto.
Qed.


(* ===================================================================== *)
(** * The layout of a backup in the bucket *)
(* ===================================================================== *)

Lemma backup_loop_spec (TIMESTAMP : string) (names : list string)
    (w : pyworld) :
  (forall n, In n names -> is_Some (milvus w !! n)) ->
  wp (for_each (backup_collection TIMESTAMP) names) w
     (fun r w' =>
        r = inr tt /\ milvus w' = milvus w
        /\ forall k, is_Some (bucket w' !! k) <->
             is_Some (bucket w !! k)
             \/ exists collection_name c,
                  In collection_name names
                  /\ milvus w !! collection_name = Some c
                  /\ (k = schema_key ("backup-" ++ TIMESTAMP) collection_name
                      \/ (backup_indexes c <> []
                          /\ k = indexes_key ("backup-" ++ TIMESTAMP)
                                             collection_name))).
Proof.
  revert w. induction names as [|n names IH]; intros w Hnames; cbn [for_each].
  - py_go. split; [reflexivity|]. split; [reflexivity|].
    intros k. split; [auto|]. intros [H|(? & ? & [] & _)]. exact H.
  - destruct (Hnames n (or_introl eq_refl)) as [c Hc].
    apply wp_bind. unfold backup_collection at 1. py_go.
    apply wp_try.
    destruct (backup_indexes c) as [|ix ixs] eqn:Hix; py_go.
    all: (eapply wp_mono; [apply IH; py_norm; intros n' Hn';
                           apply Hnames; right; exact Hn'|]);
      py_norm; intros r w' (-> & Hm & Hkeys);
      (split; [reflexivity|]); (split; [exact Hm|]);
      intros k; rewrite Hkeys; clear Hkeys.
    + rewrite lookup_insert_is_Some. cbn [In].
      destruct (decide (schema_key ("backup-" ++ TIMESTAMP) n = k)) as [Hk|Hk].
      * split; [intros _|auto]. right. exists n, c. auto 10.
      * split.
        -- intros [[?|[_ ?]]|(n' & c' & Hin & Hc' & Hk')];
             [contradiction|auto|]. right. exists n', c'. auto 10.
        -- intros [?|(n' & c' & [<-|Hin] & Hc' & Hk')]; [auto| |].
           ++ rewrite Hc in Hc'. inversion Hc'; subst c'. rewrite Hix in Hk'.
              destruct Hk' as [->|[Hne _]]; congruence.
           ++ right. exists n', c'. auto.
    + rewrite !lookup_insert_is_Some. cbn [In].
      destruct (decide (indexes_key ("backup-" ++ TIMESTAMP) n = k)) as [Hk|Hk].
      * split; [intros _|auto]. right. exists n, c. rewrite Hix.
        split; [auto|]. split; [exact Hc|]. right. split; [discriminate|auto].
      * destruct (decide (schema_key ("backup-" ++ TIMESTAMP) n = k))
          as [Hk2|Hk2].
        -- split; [intros _|auto]. right. exists n, c. auto 10.
        -- split.
           ++ intros [[?|[_ [?|[_ ?]]]]|(n' & c' & Hin & Hc' & Hk')];
                [contradiction|contradiction|auto|].
              right. exists n', c'. auto 10.
           ++ intros [?|(n' & c' & [<-|Hin] & Hc' & Hk')]; [auto 10| |].
              ** destruct Hk' as [->|[_ ->]]; congruence.
              ** right. exists n', c'. auto.
Qed.

Lemma backup_program_keys (TIMESTAMP : string) (w : pyworld) :
  (refused_connects w < max_retries)%nat ->
  exists w', backup_program TIMESTAMP w = (inr tt, w')
    /\ forall k, is_Some (bucket w' !! k) <->
         is_Some (bucket w !! k) \/ backup_key TIMESTAMP (milvus w) k.
Proof.
  intros Hr. apply wp_run. unfold backup_program.
  apply wp_bind.
  destruct (connect_with_retries_connects w Hr) as (w1 & Hrun & Hm & Hb & _).
  eapply wp_known; [exact Hrun|]. py_go.
  eapply wp_mono.
  { apply backup_loop_spec. py_norm. intros n Hn.
    apply in_map_iff in Hn as ([n' c] & <- & Hin).
    apply list_elem_of_In, elem_of_map_to_list in Hin. eauto. }
  py_norm. intros r w' (-> & Hm' & Hkeys). py_go.
  split; [reflexivity|]. intros k. rewrite Hkeys, Hb, Hm. clear Hkeys.
  unfold backup_key. split.
  - intros [Hk|(n & c & _ & Hc & Hk)]; [auto|]. right. eauto.
  - intros [Hk|(n & c & Hc & Hk)]; [auto|]. right. exists n, c.
    split; [|auto]. apply in_map_iff. exists (n, c).
    split; [reflexivity|]. apply list_elem_of_In, elem_of_map_to_list. exact Hc.
Qed.

Lemma append_cons (x : ascii) (a b : string) :
  String x a ++ b = String x (a ++ b).
Proof. reflexivity. Qed.

Lemma append_assoc (a b c : string) : (a ++ b) ++ c = a ++ b ++ c.
Proof.
  induction a as [|x a IH]; [reflexivity|].
  rewrite !append_cons, IH. reflexivity.
Qed.

Lemma length_append (a b : string) :
  String.length (a ++ b) = (String.length a + String.length b)%nat.
Proof.
  induction a as [|x a IH]; [reflexivity|].
  rewrite append_cons. cbn [String.length]. rewrite IH. reflexivity.
Qed.

Lemma lacks_app (c : ascii) (a b : string) :
  Str.lacks c (a ++ b) = Str.lacks c a && Str.lacks c b.
Proof.
  induction a as [|x a IH]; [reflexivity|].
  rewrite append_cons. cbn [Str.lacks]. rewrite IH. apply andb_assoc.
Qed.






Lemma eqb_length (a b : string) :
  String.eqb a b = true -> String.length a = String.length b.
Proof. intros H. apply String.eqb_eq in H. subst. reflexivity. Qed.

Lemma endswith_cons (c : ascii) (s suffix : string) :
  Str.endswith (String c s) suffix
  = String.eqb (String c s) suffix || Str.endswith s suffix.
Proof. reflexivity. Qed.

Lemma endswith_longer (a : string) :
  Str.endswith (a ++ "/indexes.json") "/schema.json" = false
  /\ Str.endswith (a ++ "/schema.json") "/indexes.json" = false.
Proof.
  induction a as [|c a [IH1 IH2]].
  - split; reflexivity.
  - rewrite !append_cons, !endswith_cons, IH1, IH2. split.
    + rewrite orb_false_r. apply not_true_is_false. intros H.
      apply eqb_length in H. cbn [String.length] in H.
      rewrite length_append in H. cbn in H. clear - H. lia.
    + rewrite orb_false_r. destruct a as [|c' a].
      * cbn [String.append String.eqb]. destruct (Ascii.eqb c "/"); reflexivity.
      * apply not_true_is_false. intros H.
        apply eqb_length in H. rewrite append_cons in H.
        cbn [String.length] in H.
        rewrite length_append in H. cbn in H. clear - H. lia.
Qed.

(** How the restore program reads the keys that the backup program
    writes. *)
Lemma backup_keys_are_read (backup_path collection_name : string) :
  Str.lacks "/" backup_path = true ->
  Str.lacks "/" collection_name = true ->
  String.prefix (backup_path ++ "/") (schema_key backup_path collection_name)
    = true
  /\ String.prefix (backup_path ++ "/") (indexes_key backup_path collection_name)
     = true
  /\ key_collection (schema_key backup_path collection_name)
     = Some collection_name
  /\ key_collection (indexes_key backup_path collection_name)
     = Some collection_name
  /\ find_file "/schema.json"
       [indexes_key backup_path collection_name;
        schema_key backup_path collection_name]
     = Some (schema_key backup_path collection_name)
  /\ find_file "/indexes.json"
       [indexes_key backup_path collection_name;
        schema_key backup_path collection_name]
     = Some (indexes_key backup_path collection_name).
Proof.
  intros Hpath Hname. unfold schema_key, indexes_key, key_collection, find_file.
  change (backup_path ++ "/" ++ collection_name ++ "/schema.json")
    with (backup_path ++ String "/" (collection_name ++ String "/" "schema.json")).
  change (backup_path ++ "/" ++ collection_name ++ "/indexes.json")
    with (backup_path ++ String "/" (collection_name ++ String "/" "indexes.json")).
  rewrite !(StrFacts.split_cons_lacks _ _ _ Hpath).
  rewrite !(StrFacts.split_cons_lacks _ _ _ Hname).
  split; [|split].
  1, 2: match goal with
        | |- String.prefix _ (?p ++ String "/" ?x) = true =>
            change (p ++ String "/" x) with (p ++ "/" ++ x);
            rewrite <- (append_assoc p "/" x);
            apply StrFacts.prefix_app
        end.
  split; [reflexivity|]. split; [reflexivity|].
  cbn [find].
  change (backup_path ++ String "/" (collection_name ++ String "/" "indexes.json"))
    with (backup_path ++ "/" ++ collection_name ++ "/indexes.json").
  change (backup_path ++ String "/" (collection_name ++ String "/" "schema.json"))
    with (backup_path ++ "/" ++ collection_name ++ "/schema.json").
  rewrite <- !append_assoc.
  destruct (endswith_longer ((backup_path ++ "/") ++ collection_name)) as [H1 H2].
  rewrite H1, !StrFacts.endswith_app. split; reflexivity.
Qed.






(* ===================================================================== *)
(** * The endpoint wait loop and the script around it *)
(* ===================================================================== *)

Lemma first_ready_Some_iff (hostname_at : nat -> string) (start n k : nat) :
  first_ready hostname_at start n = Some k <->
  (k < n)%nat /\ lb_ready (hostname_at (start + k)%nat) = true
  /\ forall i, (i < k)%nat -> lb_ready (hostname_at (start + i)%nat) = false.
Proof.
  revert start k. induction n as [|n IH]; intros start k; cbn [first_ready].
  - split; [discriminate|]. intros [H _]. lia.
  - destruct (lb_ready (hostname_at start)) eqn:Hready.
    + split.
      * intros H. inversion H; subst. rewrite Nat.add_0_r.
        split; [lia|]. split; [exact Hready|]. intros i Hi. lia.
      * intros (_ & Hk & Hbefore). destruct k as [|k]; [reflexivity|].
        specialize (Hbefore 0%nat ltac:(lia)). rewrite Nat.add_0_r in Hbefore.
        congruence.
    + destruct (first_ready hostname_at (S start) n) as [k'|] eqn:Hrest;
        cbn [option_map].
      * apply IH in Hrest as (Hlt & Hk' & Hbefore). split.
        -- intros H. inversion H; subst.
           split; [lia|].
           replace (start + S k')%nat with (S start + k')%nat by lia.
           split; [exact Hk'|]. intros i Hi. destruct i as [|i].
           ++ rewrite Nat.add_0_r. exact Hready.
           ++ replace (start + S i)%nat with (S start + i)%nat by lia.
              apply Hbefore. lia.
        -- intros (Hlt' & Hk & Hbefore'). f_equal.
           destruct k as [|k]; [rewrite Nat.add_0_r in Hk; congruence|].
           f_equal.
           destruct (Nat.lt_trichotomy k k') as [Hc|[Hc|Hc]]; [|exact (eq_sym Hc)|].
           ++ specialize (Hbefore k Hc).
              replace (start + S k)%nat with (S start + k)%nat in Hk by lia.
              congruence.
           ++ specialize (Hbefore' (S k') ltac:(lia)).
              replace (start + S k')%nat with (S start + k')%nat in Hbefore' by lia.
              congruence.
      * split; [discriminate|]. intros (Hlt & Hk & Hbefore).
        destruct k as [|k]; [rewrite Nat.add_0_r in Hk; congruence|].
        assert (Hsome : first_ready hostname_at (S start) n = Some k).
        { apply IH. split; [lia|].
          replace (S start + k)%nat with (start + S k)%nat by lia.
          split; [exact Hk|]. intros i Hi.
          replace (S start + i)%nat with (start + S i)%nat by lia.
          apply Hbefore. lia. }
        congruence.
Qed.

Lemma wait_loop_outcome (n j : nat) (w : lbworld) :
  (j + n = 40)%nat ->
  exists w', wait_loop 600 (15 * Z.of_nat j) w
             = (match first_ready (hostname_at w) (lb_polls w) n with
                | Some _ => 0%Z | None => 1%Z end, w')
    /\ hostname_at w' = hostname_at w
    /\ lb_polls w'
       = (lb_polls w + match first_ready (hostname_at w) (lb_polls w) n with
                       | Some k => S k | None => n end)%nat
    /\ lb_slept w'
       = (lb_slept w
          + 15 * Z.of_nat (match first_ready (hostname_at w) (lb_polls w) n with
                           | Some k => k | None => n end))%Z
    /\ last (lb_console w')
       = Some (match first_ready (hostname_at w) (lb_polls w) n with
               | Some k => "LoadBalancer is ready with endpoint: "
                           ++ hostname_at w (lb_polls w + k)
               | None => timed_out_line
               end).
Proof.
  revert j w. induction n as [|n IH]; intros j w Hj.
  - replace (15 * Z.of_nat j)%Z with 600%Z by lia.
    simp wait_loop. destruct (Z_lt_dec 600 600) as [Hlt|Hge]; [lia|].
    cbn [wait_loop_unfold_clause_1 first_ready]. eexists.
    split; [reflexivity|]. cbn [lb_echo hostname_at lb_polls lb_slept lb_console].
    split; [reflexivity|]. split; [lia|]. split; [lia|].
    rewrite last_snoc. reflexivity.
  - simp wait_loop.
    destruct (Z_lt_dec (15 * Z.of_nat j) 600) as [Hlt|Hge]; [|lia].
    cbn [wait_loop_unfold_clause_1 lb_poll fst snd first_ready].
    destruct (lb_ready (hostname_at w (lb_polls w))) eqn:Hready.
    + eexists. split; [reflexivity|].
      cbn [lb_echo hostname_at lb_polls lb_slept lb_console].
      split; [reflexivity|]. split; [lia|]. split; [lia|].
      rewrite last_snoc, Nat.add_0_r. reflexivity.
    + replace (15 * Z.of_nat j + 15)%Z with (15 * Z.of_nat (S j))%Z by lia.
      match goal with
      | |- context [wait_loop 600 _ ?w1] =>
          destruct (IH (S j) w1) as (w' & Hrun & Hhost & Hpolls & Hslept & Hlast);
            [lia|]
      end.
      cbn [lb_sleep lb_echo hostname_at lb_polls lb_slept lb_console] in *.
      exists w'. split.
      * rewrite Hrun.
        destruct (first_ready (hostname_at w) (S (lb_polls w)) n); reflexivity.
      * split; [exact Hhost|].
        destruct (first_ready (hostname_at w) (S (lb_polls w)) n) as [k|];
          cbn [option_map]; (split; [lia|]); (split; [lia|]); rewrite Hlast;
          [replace (lb_polls w + S k)%nat with (S (lb_polls w) + k)%nat by lia|];
          reflexivity.
Qed.

(** X1.  What [wait_for_lb] does in every environment, read off the first of
    its forty polls that finds a host name other than the empty string and
    <pending>.  If that is poll [k], it returns 0 after [k+1] polls and
    [15*k] seconds of sleep, and its last line names the host.  If there is
    none it returns 1 after 40 polls and 600 seconds, and its last line
    reports the timeout.  The first ready poll is the one before which
    every poll printed the empty string or <pending>. *)
Theorem wait_for_lb_outcome (w : lbworld) :
  exists w',
    wait_for_lb w
    = (match first_ready (hostname_at w) (lb_polls w) 40 with
       | Some _ => 0%Z | None => 1%Z end, w')
    /\ lb_polls w'
       = (lb_polls w + match first_ready (hostname_at w) (lb_polls w) 40 with
                       | Some k => S k | None => 40 end)%nat
    /\ lb_slept w'
       = (lb_slept w
          + 15 * Z.of_nat (match first_ready (hostname_at w) (lb_polls w) 40 with
                           | Some k => k | None => 40 end))%Z
    /\ last (lb_console w')
       = Some (match first_ready (hostname_at w) (lb_polls w) 40 with
               | Some k => "LoadBalancer is ready with endpoint: "
                           ++ hostname_at w (lb_polls w + k)
               | None => timed_out_line
               end)
    /\ (forall k,
          first_ready (hostname_at w) (lb_polls w) 40 = Some k <->
          (k < 40)%nat
          /\ lb_ready (hostname_at w (lb_polls w + k)%nat) = true
          /\ forall i, (i < k)%nat ->
                       lb_ready (hostname_at w (lb_polls w + i)%nat) = false).
Proof.
  unfold wait_for_lb.
  destruct (wait_loop_outcome 40 0
              (lb_echo "Waiting for Milvus LoadBalancer to be provisioned..." w))
    as (w' & Hrun & _ & Hpolls & Hslept & Hlast); [reflexivity|].
  cbn [lb_echo hostname_at lb_polls lb_slept] in *.
  exists w'. change (15 * Z.of_nat 0)%Z with 0%Z in Hrun.
  split; [exact Hrun|]. split; [exact Hpolls|]. split; [exact Hslept|].
  split; [exact Hlast|]. intros k. apply first_ready_Some_iff.
Qed.

Lemma wait_for_lb_outcome_witness :
  exists w',
    wait_for_lb Scenario.flapping = (0%Z, w')
    /\ lb_polls w' = 3%nat /\ lb_slept w' = 30%Z
    /\ first_ready (hostname_at Scenario.flapping)
                   (lb_polls Scenario.flapping) 40 = Some 2%nat.
Proof.
  destruct (wait_for_lb_outcome Scenario.flapping)
    as (w' & Hrun & Hpolls & Hslept & _ & Hfirst).
  exists w'. split; [exact Hrun|]. split; [exact Hpolls|].
  split; [exact Hslept|].
  apply (Hfirst 2%nat). split; [lia|]. split; [reflexivity|].
  intros [|[|i]] Hi; [reflexivity|reflexivity|lia].
Defined.

Ltac ep_norm :=
  cbv beta delta [on_service set_lambda_environment];
  cbn [env_file service stack_output update_accepted lambda_environment
       ep_calls fst snd negb].

Ltac ep_step :=
  lazymatch goal with
  | |- wp (bind _ _) _ _ => apply wp_bind
  | |- wp (pure _) _ _ => apply wp_pure
  | |- wp get _ _ => apply wp_get
  | |- wp (modify _) _ _ => apply wp_modify
  | |- wp (raise _) _ _ => apply wp_raise
  | |- wp (match ?x with _ => _ end) _ _ => wp_split x
  | |- wp (ep_echo _) _ _ => unfold ep_echo
  | |- wp (ep_run _) _ _ => unfold ep_run
  | |- wp ep_poll _ _ => unfold ep_poll
  end;
  ep_norm.

Ltac ep_go := ep_norm; repeat ep_step.

(** The Variables that [update_lambda] sends for an endpoint. *)
Lemma update_lambda_spec (arg1 : string) (w : epworld) :
  wp (update_lambda arg1) w
     (fun r w' =>
        r = inr (if negb (String.eqb arg1 "")
                    && negb (String.eqb (stack_output w) "")
                    && update_accepted w then 0%Z else 1%Z)
        /\ ep_calls w'
           = (ep_calls w
              ++ (if String.eqb arg1 "" then []
                  else cloudformation_describe_stacks "MilvusStack"
                       :: (if String.eqb (stack_output w) "" then []
                           else [lambda_update_function_configuration
                                   (stack_output w) (lambda_variables arg1)])))%list
        /\ lambda_environment w'
           = (if negb (String.eqb arg1 "")
                 && negb (String.eqb (stack_output w) "")
                 && update_accepted w
              then <[stack_output w := lambda_variables arg1]>
                     (lambda_environment w)
              else lambda_environment w)
        /\ hostname_at (service w') = hostname_at (service w)
        /\ lb_polls (service w') = lb_polls (service w)
        /\ stack_output w' = stack_output w
        /\ update_accepted w' = update_accepted w).
Proof.
  unfold update_lambda, lambda_variables.
  destruct (String.eqb arg1 "") eqn:Harg;
    [|destruct (String.eqb (stack_output w) "") eqn:Hstack;
      [|destruct (update_accepted w) eqn:Hok]];
    ep_go; rewrite ?Hstack, ?Hok; cbn [negb andb];
    rewrite <- ?app_assoc, ?app_nil_r; auto 10.
Qed.

(** X2.  What [update_lambda] does for every argument.  It returns 0 exactly
    when the argument is not empty, the stack names a function and Lambda
    accepts the configuration, and only then is the function's environment
    changed, to the host given and port 19530.  With an empty argument it
    makes no call; without a function name it only reads the stack. *)
Theorem update_lambda_outcome (arg1 : string) (w : epworld) :
  exists w',
    update_lambda arg1 w
    = (inr (if negb (String.eqb arg1 "")
               && negb (String.eqb (stack_output w) "")
               && update_accepted w then 0%Z else 1%Z), w')
    /\ ep_calls w'
       = (ep_calls w
          ++ (if String.eqb arg1 "" then []
              else cloudformation_describe_stacks "MilvusStack"
                   :: (if String.eqb (stack_output w) "" then []
                       else [lambda_update_function_configuration
                               (stack_output w) (lambda_variables arg1)])))%list
    /\ lambda_environment w'
       = (if negb (String.eqb arg1 "")
             && negb (String.eqb (stack_output w) "")
             && update_accepted w
          then <[stack_output w := lambda_variables arg1]>
                 (lambda_environment w)
          else lambda_environment w).
Proof.
  apply wp_run. eapply wp_mono; [apply update_lambda_spec|].
  cbv beta. intros r w' (Hr & Hcalls & Henv & _). auto.
Qed.

Lemma endpoint_script_spec (w : epworld) :
  wp endpoint_script w
     (fun r w' =>
        match first_ready (hostname_at (service w)) (lb_polls (service w)) 40 with
        | None =>
            r = inl 1%Z /\ ep_calls w' = ep_calls w
            /\ lambda_environment w' = lambda_environment w
            /\ lb_polls (service w') = (lb_polls (service w) + 40)%nat
            /\ last (lb_console (service w')) = Some "Failed to get Milvus endpoint"
        | Some k =>
            let MILVUS_ENDPOINT :=
              hostname_at (service w) (lb_polls (service w) + S k) in
            lb_polls (service w') = (lb_polls (service w) + S (S k))%nat
            /\ if String.eqb MILVUS_ENDPOINT "" then
                 r = inl 1%Z /\ ep_calls w' = ep_calls w
                 /\ lambda_environment w' = lambda_environment w
                 /\ last (lb_console (service w'))
                    = Some "Could not retrieve Milvus endpoint"
               else
                 r = inr tt
                 /\ In ("Milvus endpoint: " ++ MILVUS_ENDPOINT)
                       (lb_console (service w'))
                 /\ ep_calls w'
                    = (ep_calls w
                       ++ cloudformation_describe_stacks "MilvusStack"
                          :: (if String.eqb (stack_output w) "" then []
                              else [lambda_update_function_configuration
                                      (stack_output w)
                                      (lambda_variables MILVUS_ENDPOINT)]))%list
                 /\ lambda_environment w'
                    = (if negb (String.eqb (stack_output w) "")
                          && update_accepted w
                       then <[stack_output w := lambda_variables MILVUS_ENDPOINT]>
                              (lambda_environment w)
                       else lambda_environment w)
        end).
Proof.
  unfold endpoint_script.
  apply wp_bind.
  assert (Hfirst : wp (w0 <~ get ;;
                       if env_file w0
                       then ep_echo "Loading AWS credentials from lambda/.env"
                       else pure tt) w
                      (fun r w1 => r = inr tt
                         /\ hostname_at (service w1) = hostname_at (service w)
                         /\ lb_polls (service w1) = lb_polls (service w)
                         /\ ep_calls w1 = ep_calls w
                         /\ lambda_environment w1 = lambda_environment w
                         /\ stack_output w1 = stack_output w
                         /\ update_accepted w1 = update_accepted w)).
  { destruct (env_file w) eqn:Henv; ep_go; cbn [lb_echo hostname_at lb_polls];
      auto 10. }
  eapply wp_mono; [exact Hfirst|]. cbv beta.
  intros r w1 (-> & Hhost & Hpolls & Hcalls & Henv & Hstack & Hok).
  destruct (wait_loop_outcome 40 0
              (lb_echo "Waiting for Milvus LoadBalancer to be provisioned..."
                       (service w1)))
    as (l & Hrun & Hhost' & Hpolls' & _ & Hlast); [reflexivity|].
  change (15 * Z.of_nat 0)%Z with 0%Z in Hrun.
  change (wait_loop 600 0 _) with (wait_for_lb (service w1)) in Hrun.
  cbn [lb_echo hostname_at lb_polls] in Hrun, Hhost', Hpolls'.
  rewrite Hhost, Hpolls in Hrun, Hpolls'. rewrite Hhost in Hhost'.
  apply wp_bind, wp_get. ep_norm. apply wp_bind, wp_modify. ep_norm.
  rewrite Hrun. cbn [fst snd].
  destruct (first_ready (hostname_at (service w)) (lb_polls (service w)) 40)
    as [k|] eqn:Hk.
  - change (0 =? 0)%Z with true. cbv iota.
    apply wp_bind. apply wp_bind. unfold ep_poll.
    apply wp_bind, wp_get. ep_norm. apply wp_bind, wp_modify. ep_norm.
    apply wp_pure. ep_norm. cbn [lb_poll fst snd].
    rewrite Hhost', Hpolls'.
    destruct (String.eqb (hostname_at (service w) (lb_polls (service w) + S k)) "")
      eqn:Hempty.
    + ep_go. cbn [lb_echo lb_polls lb_console].
      split; [lia|]. split; [reflexivity|]. split; [exact Hcalls|].
      split; [exact Henv|]. rewrite last_snoc. reflexivity.
    + cbn [negb]. apply wp_bind. apply wp_bind.
      eapply wp_mono; [apply update_lambda_spec|]. ep_norm.
      rewrite Hempty. cbn [negb andb lb_polls].
      intros r w2 (-> & Hcalls2 & Henv2 & _ & Hpolls2 & _).
      ep_go. cbn [lb_echo lb_polls lb_console].
      split; [rewrite Hpolls2; lia|]. split; [reflexivity|].
      split; [rewrite !in_app_iff; cbn [In]; tauto|].
      rewrite Hcalls2, Henv2, Hstack, Hok, Hcalls, Henv. auto.
  - change (1 =? 0)%Z with false. cbv iota. ep_go.
    cbn [lb_echo lb_polls lb_console].
    split; [reflexivity|]. split; [exact Hcalls|]. split; [exact Henv|].
    split; [lia|]. rewrite last_snoc. reflexivity.
Qed.

(** X3.  The exit status of the endpoint script depends on the polls alone:
    1 when none of the forty polls of [wait_for_lb] finds the endpoint, or
    when the query made after the wait prints nothing, with no call to
    CloudFormation or Lambda in either case; 0 otherwise, whether or not
    [update_lambda] succeeded. *)
Theorem endpoint_script_exit_status (w : epworld) :
  exists w',
    endpoint_script w
    = (match first_ready (hostname_at (service w)) (lb_polls (service w)) 40 with
       | None => inl 1%Z
       | Some k =>
           if String.eqb (hostname_at (service w) (lb_polls (service w) + S k)) ""
           then inl 1%Z else inr tt
       end, w')
    /\ (fst (endpoint_script w) = inl 1%Z ->
        ep_calls w' = ep_calls w
        /\ lambda_environment w' = lambda_environment w).
Proof.
  pose proof (endpoint_script_spec w) as H. unfold wp in H.
  destruct (endpoint_script w) as [r w']. cbn [fst snd] in *.
  exists w'.
  destruct (first_ready (hostname_at (service w)) (lb_polls (service w)) 40)
    as [k|].
  - cbv zeta in H. destruct H as [_ H].
    destruct (String.eqb (hostname_at (service w) (lb_polls (service w) + S k)) "").
    + destruct H as (-> & Hc & He & _). auto.
    + destruct H as (-> & _). split; [reflexivity|]. intros Hr. discriminate Hr.
  - destruct H as (-> & Hc & He & _). auto.
Qed.

(** X4.  The host that the endpoint script hands to Lambda is the one printed
    by the query it makes after [wait_for_lb] has returned, and that query
    is only tested for being non-empty. *)
Theorem endpoint_is_queried_again (w : epworld) (k : nat) :
  first_ready (hostname_at (service w)) (lb_polls (service w)) 40 = Some k ->
  hostname_at (service w) (lb_polls (service w) + S k) <> "" ->
  stack_output w <> "" ->
  update_accepted w = true ->
  exists w',
    endpoint_script w = (inr tt, w')
    /\ lambda_environment w' !! stack_output w
       = Some (lambda_variables
                 (hostname_at (service w) (lb_polls (service w) + S k)))
    /\ lb_polls (service w') = (lb_polls (service w) + k + 2)%nat.
Proof.
  intros Hk Hhost Hstack Hok.
  pose proof (endpoint_script_spec w) as H. unfold wp in H.
  destruct (endpoint_script w) as [r w']. cbn [fst snd] in *.
  rewrite Hk in H. cbv zeta in H. destruct H as [Hpolls H].
  apply String.eqb_neq in Hhost, Hstack. rewrite Hhost in H.
  destruct H as (-> & _ & _ & Henv).
  rewrite Hstack, Hok in Henv. cbn [negb andb] in Henv.
  exists w'. split; [reflexivity|]. split; [|lia].
  rewrite Henv. apply lookup_insert_eq.
Qed.

Lemma endpoint_is_queried_again_witness :
  exists w',
    endpoint_script (Scenario.endpoint_world Scenario.flapping) = (inr tt, w')
    /\ lambda_environment w' !! "chat"
       = Some "Variables={MILVUS_HOST=<pending>,MILVUS_PORT=19530}"
    /\ lb_polls (service w') = 4%nat.
Proof.
  apply (endpoint_is_queried_again
           (Scenario.endpoint_world Scenario.flapping) 2).
  - reflexivity.
  - vm_compute. discriminate.
  - vm_compute. discriminate.
  - reflexivity.
Defined.

Lemma endpoint_script_exit_status_witness :
  exists w',
    endpoint_script (Scenario.endpoint_world Sample.pending_forever)
    = (inl 1%Z, w')
    /\ ep_calls w' = ep_calls (Scenario.endpoint_world Sample.pending_forever).
Proof.
  destruct (endpoint_script_exit_status
              (Scenario.endpoint_world Sample.pending_forever))
    as (w' & Hrun & Hquiet).
  exists w'. split; [exact Hrun|]. apply Hquiet. rewrite Hrun. reflexivity.
Defined.

(* ===================================================================== *)
(** * The jobs' programs: connection, backup and restore *)
(* ===================================================================== *)

Lemma connect_loop_run (n i : nat) (w : pyworld) :
  (i + n = max_retries)%nat ->
  (0 < n)%nat ->
  wp (connect_loop (seq i n)) w
     (fun r w' =>
        r = (if (refused_connects w <? n)%nat then inr tt
             else inl (SystemExit 1))
        /\ api w' = (api w ++ retried (Nat.min (refused_connects w) (n - 1)))%list
        /\ refused_connects w' = (refused_connects w - n)%nat
        /\ milvus w' = milvus w /\ bucket w' = bucket w
        /\ server_rejects w' = server_rejects w).
Proof.
  revert i w. induction n as [|n IH]; intros i w Hi Hn; [lia|].
  cbn [seq connect_loop].
  destruct (refused_connects w) as [|r] eqn:Er.
  - py_go. cbn [retried Nat.min]. auto 10.
  - destruct n as [|n].
    + assert (Hlt : (i <? max_retries - 1)%nat = false).
      { apply Nat.ltb_ge. unfold max_retries in *. lia. }
      py_go. cbn [retried Nat.min Nat.sub].
      repeat split; try reflexivity; lia.
    + assert (Hlt : (i <? max_retries - 1)%nat = true).
      { apply Nat.ltb_lt. unfold max_retries in *. lia. }
      py_go.
      eapply wp_mono; [apply (IH (S i)); lia|].
      cbn [milvus bucket server_rejects refused_connects api].
      intros r' w' (-> & Hapi & Hrefused & Hm & Hb & Hs).
      split.
      * destruct (r <? S n)%nat eqn:E1, (S r <? S (S n))%nat eqn:E2;
          try reflexivity;
          [apply Nat.ltb_lt in E1; apply Nat.ltb_ge in E2
          |apply Nat.ltb_ge in E1; apply Nat.ltb_lt in E2]; lia.
      * split; [|repeat split; try assumption; lia].
        rewrite Hapi, <- !app_assoc.
        replace (S (S n) - 1)%nat with (S n) by lia.
        replace (S n - 1)%nat with n by lia.
        cbn [Nat.min retried app]. reflexivity.
Qed.

(** X5.  The connection is attempted ten times at most, with a sleep of five
    seconds between two attempts and none after the last.  It is made at
    the first attempt that the server does not refuse; when all ten are
    refused the program is left by [exit(1)].  Nothing but connection
    attempts and sleeps happens meanwhile. *)
Theorem connection_is_retried (w : pyworld) :
  exists w',
    connect_with_retries w
    = (if (refused_connects w <? 10)%nat then inr tt
       else inl (SystemExit 1), w')
    /\ api w' = (api w ++ retried (Nat.min (refused_connects w) 9))%list
    /\ milvus w' = milvus w /\ bucket w' = bucket w.
Proof.
  apply wp_run. unfold connect_with_retries.
  eapply wp_mono; [apply (connect_loop_run max_retries 0); unfold max_retries; lia|].
  cbv beta. unfold max_retries. cbn [Nat.sub].
  intros r w' (-> & Hapi & _ & Hm & Hb & _). auto.
Qed.

Lemma unreachable_backup (TIMESTAMP : string) (w : pyworld) :
  (max_retries <= refused_connects w)%nat ->
  exists w', backup_program TIMESTAMP w = (inl (SystemExit 1), w')
    /\ api w' = (api w ++ retried 9)%list
    /\ milvus w' = milvus w /\ bucket w' = bucket w.
Proof.
  intros Hr. apply wp_run. unfold backup_program. apply wp_bind.
  unfold connect_with_retries.
  eapply wp_mono; [apply (connect_loop_run max_retries 0); unfold max_retries; lia|].
  cbv beta. unfold max_retries in *. cbn [Nat.sub].
  intros r w' (-> & Hapi & _ & Hm & Hb & _).
  replace (refused_connects w <? 10)%nat with false
    by (symmetry; apply Nat.ltb_ge; clear - Hr; lia).
  rewrite Nat.min_r in Hapi by (clear - Hr; lia). auto.
Qed.

Lemma unreachable_restore (MILVUS_BACKUP_PATH : string) (w : pyworld) :
  (max_retries <= refused_connects w)%nat ->
  exists w', restore_program MILVUS_BACKUP_PATH w = (inl (SystemExit 1), w')
    /\ api w' = (api w ++ Sleep 120 :: retried 9)%list
    /\ milvus w' = milvus w /\ bucket w' = bucket w.
Proof.
  intros Hr. apply wp_run. unfold restore_program.
  py_go.
  unfold connect_with_retries.
  eapply wp_mono; [apply (connect_loop_run max_retries 0); unfold max_retries; lia|].
  py_norm. unfold max_retries in *. cbn [Nat.sub].
  intros r w' (-> & Hapi & _ & Hm & Hb & _).
  replace (refused_connects w <? 10)%nat with false
    by (symmetry; apply Nat.ltb_ge; clear - Hr; lia).
  rewrite Nat.min_r in Hapi by (clear - Hr; lia).
  rewrite Hapi, <- app_assoc. auto.
Qed.

(** X6.  The exit status of the two programs is decided by the connection
    alone: it is 1 when the ten attempts are all refused, and then the
    program has made no call but its attempts and left the collections and
    the bucket as they were; it is 0 in every other case. *)
Theorem program_exit_status (TIMESTAMP MILVUS_BACKUP_PATH : string)
    (w : pyworld) :
  python_exit (fst (backup_program TIMESTAMP w))
  = (if (refused_connects w <? 10)%nat then 0%Z else 1%Z)
  /\ python_exit (fst (restore_program MILVUS_BACKUP_PATH w))
     = (if (refused_connects w <? 10)%nat then 0%Z else 1%Z)
  /\ ((10 <= refused_connects w)%nat ->
      api (snd (backup_program TIMESTAMP w)) = (api w ++ retried 9)%list
      /\ bucket (snd (backup_program TIMESTAMP w)) = bucket w
      /\ api (snd (restore_program MILVUS_BACKUP_PATH w))
         = (api w ++ Sleep 120 :: retried 9)%list
      /\ milvus (snd (restore_program MILVUS_BACKUP_PATH w)) = milvus w).
Proof.
  destruct (refused_connects w <? 10)%nat eqn:Hr.
  - apply Nat.ltb_lt in Hr.
    destruct (backup_program_keys TIMESTAMP w Hr) as (w1 & Hrun & _).
    rewrite Hrun. split; [reflexivity|].
    split; [apply restore_program_exit; exact Hr|]. intros Hge. lia.
  - apply Nat.ltb_ge in Hr.
    destruct (unreachable_backup TIMESTAMP w Hr) as (w1 & Hrun & Hapi & _ & Hb).
    destruct (unreachable_restore MILVUS_BACKUP_PATH w Hr)
      as (w2 & Hrun2 & Hapi2 & Hm & _).
    rewrite Hrun, Hrun2. cbn [fst snd python_exit]. auto 10.
Qed.

Lemma program_exit_status_witness :
  python_exit (fst (backup_program "20240101000000" Sample.unreachable)) = 1%Z
  /\ bucket (snd (backup_program "20240101000000" Sample.unreachable))
     = bucket Sample.unreachable.
Proof.
  destruct (program_exit_status "20240101000000" "backup-20240101000000"
              Sample.unreachable) as (Hexit & _ & Hquiet).
  split; [exact Hexit|].
  apply Hquiet. cbn [Sample.unreachable refused_connects]. lia.
Defined.

Lemma append_inv_head (p a b : string) : p ++ a = p ++ b -> a = b.
Proof.
  induction p as [|x p IH]; intros H; [exact H|].
  rewrite !append_cons in H. inversion H. auto.
Qed.

Lemma append_inv_tail (a b s : string) : a ++ s = b ++ s -> a = b.
Proof.
  revert b. induction a as [|x a IH]; intros b H.
  - destruct b as [|y b]; [reflexivity|]. exfalso.
    apply (f_equal String.length) in H.
    rewrite append_cons in H. cbn [String.length] in H.
    change ("" ++ s) with s in H. rewrite length_append in H. lia.
  - destruct b as [|y b].
    + exfalso. apply (f_equal String.length) in H.
      rewrite append_cons in H. cbn [String.length] in H.
      change ("" ++ s) with s in H. rewrite length_append in H. lia.
    + rewrite !append_cons in H. inversion H. f_equal. auto.
Qed.

Lemma schema_key_inj (p n1 n2 : string) :
  schema_key p n1 = schema_key p n2 -> n1 = n2.
Proof.
  unfold schema_key. intros H.
  apply append_inv_head, append_inv_head in H.
  exact (append_inv_tail _ _ _ H).
Qed.

Lemma indexes_key_inj (p n1 n2 : string) :
  indexes_key p n1 = indexes_key p n2 -> n1 = n2.
Proof.
  unfold indexes_key. intros H.
  apply append_inv_head, append_inv_head in H.
  exact (append_inv_tail _ _ _ H).
Qed.

Lemma schema_key_not_indexes_key (p n1 n2 : string) :
  schema_key p n1 <> indexes_key p n2.
Proof.
  unfold schema_key, indexes_key. intros H.
  assert (H1 : Str.endswith (p ++ "/" ++ n1 ++ "/schema.json") "/schema.json"
               = true).
  { rewrite <- !append_assoc. apply StrFacts.endswith_app. }
  rewrite H in H1. rewrite <- !append_assoc in H1.
  rewrite (proj1 (endswith_longer _)) in H1. discriminate H1.
Qed.

Lemma backup_loop_documents (TIMESTAMP : string) (names : list string)
    (w : pyworld) :
  List.NoDup names ->
  (forall n, In n names -> is_Some (milvus w !! n)) ->
  wp (for_each (backup_collection TIMESTAMP) names) w
     (fun r w' =>
        milvus w' = milvus w
        /\ (forall n c,
              In n names -> milvus w !! n = Some c ->
              bucket w' !! schema_key ("backup-" ++ TIMESTAMP) n
              = Some (schema_document n c)
              /\ (backup_indexes c <> [] ->
                  bucket w' !! indexes_key ("backup-" ++ TIMESTAMP) n
                  = Some (IndexesJson (backup_indexes c))))
        /\ (forall k,
              (forall n c,
                 In n names -> milvus w !! n = Some c ->
                 k <> schema_key ("backup-" ++ TIMESTAMP) n
                 /\ (backup_indexes c <> [] ->
                     k <> indexes_key ("backup-" ++ TIMESTAMP) n)) ->
              bucket w' !! k = bucket w !! k)).
Proof.
  revert w. induction names as [|n names IH]; intros w Hnodup Hnames;
    cbn [for_each].
  - py_go. split; [reflexivity|]. split; [intros ? ? []|]. reflexivity.
  - apply List.NoDup_cons_iff in Hnodup as [Hfresh Hnodup].
    destruct (Hnames n (or_introl eq_refl)) as [c Hc].
    apply wp_bind. unfold backup_collection at 1. py_go.
    apply wp_try.
    destruct (backup_indexes c) as [|ix ixs] eqn:Hix; py_go.
    all: (eapply wp_mono; [apply IH; [exact Hnodup|]; py_norm; intros n' Hn';
                           apply Hnames; right; exact Hn'|]);
      py_norm; intros r w' (Hm & Hdocs & Hframe);
      (split; [exact Hm|]).
    all: assert (Hne : forall n', In n' names -> n' <> n)
           by (intros n' Hin ->; contradiction).
    + split.
      * intros n0 c0 [<-|Hin] Hc0.
        -- rewrite Hc in Hc0. inversion Hc0; subst c0. rewrite Hix.
           split; [|intros Hno; contradiction].
           rewrite Hframe; [apply lookup_insert_eq|].
           intros n' c' Hin' _. split.
           ++ intros Heq. apply schema_key_inj in Heq.
              exact (Hne n' Hin' (eq_sym Heq)).
           ++ intros _. apply schema_key_not_indexes_key.
        -- apply Hdocs; assumption.
      * intros k Hk. rewrite Hframe.
        -- apply lookup_insert_ne.
           intros Heq. exact (proj1 (Hk n c (or_introl eq_refl) Hc) (eq_sym Heq)).
        -- intros n' c' Hin' Hc'. apply Hk; [right; exact Hin'|exact Hc'].
    + split.
      * intros n0 c0 [<-|Hin] Hc0.
        -- rewrite Hc in Hc0. inversion Hc0; subst c0. rewrite Hix. split.
           ++ rewrite Hframe.
              ** rewrite lookup_insert_ne
                   by (intros Heq; exact (schema_key_not_indexes_key _ _ _ (eq_sym Heq))).
                 apply lookup_insert_eq.
              ** intros n' c' Hin' _. split.
                 --- intros Heq. apply schema_key_inj in Heq.
                     exact (Hne n' Hin' (eq_sym Heq)).
                 --- intros _. apply schema_key_not_indexes_key.
           ++ intros _. rewrite Hframe; [apply lookup_insert_eq|].
              intros n' c' Hin' _. split.
              ** intros Heq. exact (schema_key_not_indexes_key _ _ _ (eq_sym Heq)).
              ** intros _ Heq. apply indexes_key_inj in Heq.
                 exact (Hne n' Hin' (eq_sym Heq)).
        -- apply Hdocs; assumption.
      * intros k Hk. rewrite Hframe.
        -- destruct (Hk n c (or_introl eq_refl) Hc) as [Hk1 Hk2].
           rewrite Hix in Hk2.
           rewrite !lookup_insert_ne; [reflexivity| |].
           ++ intros Heq. exact (Hk1 (eq_sym Heq)).
           ++ intros Heq. apply Hk2; [discriminate|exact (eq_sym Heq)].
        -- intros n' c' Hin' Hc'. apply Hk; [right; exact Hin'|exact Hc'].
Qed.

Lemma backup_program_documents (TIMESTAMP : string) (w : pyworld) :
  (refused_connects w < 10)%nat ->
  exists w',
    backup_program TIMESTAMP w = (inr tt, w')
    /\ milvus w' = milvus w
    /\ (forall n c,
          milvus w !! n = Some c ->
          bucket w' !! schema_key ("backup-" ++ TIMESTAMP) n
          = Some (schema_document n c)
          /\ (backup_indexes c <> [] ->
              bucket w' !! indexes_key ("backup-" ++ TIMESTAMP) n
              = Some (IndexesJson (backup_indexes c))))
    /\ (forall k,
          ~ backup_key TIMESTAMP (milvus w) k ->
          bucket w' !! k = bucket w !! k).
Proof.
  intros Hr.
  destruct (backup_program_keys TIMESTAMP w Hr) as (w' & Hrun & _).
  exists w'. split; [exact Hrun|].
  assert (Hwp : wp (backup_program TIMESTAMP) w
            (fun _ w' =>
               milvus w' = milvus w
               /\ (forall n c,
                     milvus w !! n = Some c ->
                     bucket w' !! schema_key ("backup-" ++ TIMESTAMP) n
                     = Some (schema_document n c)
                     /\ (backup_indexes c <> [] ->
                         bucket w' !! indexes_key ("backup-" ++ TIMESTAMP) n
                         = Some (IndexesJson (backup_indexes c))))
               /\ (forall k,
                     ~ backup_key TIMESTAMP (milvus w) k ->
                     bucket w' !! k = bucket w !! k))).
  { unfold backup_program. apply wp_bind.
    destruct (connect_with_retries_connects w Hr) as (w1 & Hrun1 & Hm & Hb & _).
    eapply wp_known; [exact Hrun1|]. py_go.
    eapply wp_mono.
    { apply backup_loop_documents; py_norm.
      - apply NoDup_ListNoDup, NoDup_fst_map_to_list.
      - intros n Hn. apply in_map_iff in Hn as ([n' c] & <- & Hin).
        apply list_elem_of_In, elem_of_map_to_list in Hin. eauto. }
    py_norm. intros r w2 (Hm' & Hdocs & Hframe).
    assert (Hin : forall n c, milvus w !! n = Some c ->
                              In n (map fst (map_to_list (milvus w1)))).
    { intros n c Hc. apply in_map_iff. exists (n, c).
      split; [reflexivity|].
      apply list_elem_of_In, elem_of_map_to_list. rewrite Hm. exact Hc. }
    assert (Hgoal : milvus w2 = milvus w
               /\ (forall n c,
                     milvus w !! n = Some c ->
                     bucket w2 !! schema_key ("backup-" ++ TIMESTAMP) n
                     = Some (schema_document n c)
                     /\ (backup_indexes c <> [] ->
                         bucket w2 !! indexes_key ("backup-" ++ TIMESTAMP) n
                         = Some (IndexesJson (backup_indexes c))))
               /\ (forall k,
                     ~ backup_key TIMESTAMP (milvus w) k ->
                     bucket w2 !! k = bucket w !! k)).
    { split; [congruence|]. split.
      - intros n c Hc. apply Hdocs; [exact (Hin n c Hc)|].
        rewrite Hm. exact Hc.
      - intros k Hk. rewrite Hframe, Hb; [reflexivity|].
        intros n c _ Hc. rewrite Hm in Hc. split.
        + intros ->. apply Hk. exists n, c. auto.
        + intros Hix ->. apply Hk. exists n, c. auto. }
    destruct r as [e|[]]; py_go; exact Hgoal. }
  unfold wp in Hwp. rewrite Hrun in Hwp. exact Hwp.
Qed.

(** X7.  What a backup leaves in the bucket, once connected.  For every
    collection the schema document lists each field with its name,
    description, type string, primary flag, auto_id flag and params; the
    index document, written only when a field has an index, lists those
    indexes.  The collections themselves are not touched, and an object of
    the bucket under any other key is as it was. *)
Theorem backup_writes_documents (TIMESTAMP : string) (w : pyworld) :
  (refused_connects w < 10)%nat ->
  exists w',
    backup_program TIMESTAMP w = (inr tt, w')
    /\ milvus w' = milvus w
    /\ (forall n c,
          milvus w !! n = Some c ->
          bucket w' !! schema_key ("backup-" ++ TIMESTAMP) n
          = Some (schema_document n c)
          /\ (backup_indexes c <> [] ->
              bucket w' !! indexes_key ("backup-" ++ TIMESTAMP) n
              = Some (IndexesJson (backup_indexes c))))
    /\ (forall k,
          ~ backup_key TIMESTAMP (milvus w) k ->
          bucket w' !! k = bucket w !! k).
Proof. exact (backup_program_documents TIMESTAMP w). Qed.

Lemma backup_writes_documents_witness :
  exists w',
    backup_program "20240101000000" (Sample.serving {[ "docs" := Sample.docs ]})
    = (inr tt, w')
    /\ bucket w' !! "backup-20240101000000/docs/schema.json"
       = Some (schema_document "docs" Sample.docs).
Proof.
  destruct (backup_writes_documents "20240101000000"
              (Sample.serving {[ "docs" := Sample.docs ]}))
    as (w' & Hrun & _ & Hdocs & _).
  - cbn. lia.
  - exists w'. split; [exact Hrun|].
    apply (Hdocs "docs" Sample.docs). reflexivity.
Defined.

Lemma restore_field_of_backup (f : FieldSchema) (w : pyworld) :
  restore_field (backup_field f) w
  = (match restored_type (dtype f) with
     | Some t => inr [restored_field f t]
     | None => inl (KeyError "<class 'type'>")
     end, w).
Proof.
  destruct f as [n d t p a ps].
  unfold restore_field, backup_field, require, restored_field.
  cbn [fd_type fd_name fd_description fd_is_primary fd_auto_id fd_params
       name description dtype is_primary auto_id params].
  cbv [bind pure].
  destruct t;
    match goal with
    | |- context [first_match dtype_map (str_dtype ?t)] =>
        let r := eval vm_compute in (first_match dtype_map (str_dtype t)) in
        change (first_match dtype_map (str_dtype t)) with r
    end;
    cbv iota beta; try reflexivity.
  all: change warning_subscript with (Some KType); reflexivity.
Qed.

Lemma restored_field_kept (f : FieldSchema) :
  kept_by_restore f = true ->
  restored_type (dtype f) = Some (dtype f)
  /\ restored_field f (dtype f) = f.
Proof.
  destruct f as [n d t p a ps]. unfold kept_by_restore, restored_field.
  cbn [dtype params name description is_primary auto_id].
  destruct t; try discriminate;
    destruct ps as [|[key v] [|? ?]]; try discriminate; intros H;
    (split; [reflexivity|]); try reflexivity.
  apply String.eqb_eq in H. subst key. reflexivity.
Qed.

Lemma restored_fields_kept (fs : list FieldSchema) :
  forallb kept_by_restore fs = true -> restored_fields fs = Some fs.
Proof.
  induction fs as [|f fs IH]; cbn [forallb restored_fields]; [reflexivity|].
  intros H. apply andb_true_iff in H as [Hf Hfs].
  destruct (restored_field_kept f Hf) as [Ht Heq].
  rewrite Ht, (IH Hfs), Heq. reflexivity.
Qed.

Lemma restore_fields_of_backup (fs : list FieldSchema) (w : pyworld) :
  restore_fields (map backup_field fs) w
  = (match restored_fields fs with
     | Some l => inr l
     | None => inl (KeyError "<class 'type'>")
     end, w).
Proof.
  induction fs as [|f fs IH]; cbn [map restore_fields restored_fields];
    [reflexivity|].
  unfold bind at 1. rewrite restore_field_of_backup.
  destruct (restored_type (dtype f)) as [t|]; [|reflexivity].
  unfold bind at 1. rewrite IH.
  destruct (restored_fields fs) as [l|]; reflexivity.
Qed.

(** X8.  What the restore program makes of the fields that the backup program
    recorded, for every list of fields.  A FLOAT_VECTOR comes back as a
    FLOAT, the params of a field are dropped but for the dimension of a
    BINARY_VECTOR (128 when it has none), and a field of a type outside
    the table (BOOL, INT8, INT16, INT32, DOUBLE, JSON) ends the loop with a
    KeyError.  Name, description, primary and auto_id flags are kept.  The
    fields of INT64, FLOAT and VARCHAR type without params, and of
    BINARY_VECTOR type with the dimension alone, come back as they were. *)
Theorem backed_up_fields_restored (fs : list FieldSchema) (w : pyworld) :
  restore_fields (map backup_field fs) w
  = (match restored_fields fs with
     | Some l => inr l
     | None => inl (KeyError "<class 'type'>")
     end, w)
  /\ (restored_fields fs = None <->
      exists f, In f fs /\ restored_type (dtype f) = None)
  /\ (forallb kept_by_restore fs = true -> restored_fields fs = Some fs).
Proof.
  split; [apply restore_fields_of_backup|].
  split; [|apply restored_fields_kept].
  induction fs as [|f fs IH]; cbn [restored_fields In].
  - split; [discriminate|]. intros (f & [] & _).
  - destruct (restored_type (dtype f)) as [t|] eqn:Ht.
    + destruct (restored_fields fs) as [l|].
      * split; [discriminate|]. intros (f' & [<-|Hin] & Hnone); [congruence|].
        destruct IH as [_ IH]. discriminate IH. eauto.
      * split; [|reflexivity]. intros _.
        destruct IH as [IH _]. destruct (IH eq_refl) as (f' & Hin & Hnone).
        eauto.
    + split; [|reflexivity]. intros _. eauto.
Qed.

Lemma backed_up_fields_restored_witness :
  restored_fields [Sample.id_field] = Some [Sample.id_field].
Proof.
  apply (proj2 (proj2 (backed_up_fields_restored [Sample.id_field]
                         (Sample.serving ∅)))).
  reflexivity.
Defined.

Lemma prefix_append_l (a b s : string) :
  String.prefix (a ++ b) s = true -> String.prefix a s = true.
Proof.
  revert s. induction a as [|x a IH]; intros s H.
  - destruct s; reflexivity.
  - rewrite append_cons in H. destruct s as [|y s]; [discriminate H|].
    cbn [String.prefix] in *.
    destruct (ascii_dec x y); [|discriminate H]. apply IH. exact H.
Qed.

Lemma py_in_append_l (a b s : string) :
  Str.py_in (a ++ b) s = true -> Str.py_in a s = true.
Proof.
  induction s as [|y s IH]; cbn [Str.py_in]; intros H.
  - rewrite orb_false_r in *. apply (prefix_append_l a b). exact H.
  - apply orb_true_iff in H as [H|H].
    + rewrite (prefix_append_l a b _ H). reflexivity.
    + rewrite (IH H). apply orb_true_r.
Qed.

Lemma first_match_never_float_vector (field_type_str : string) :
  first_match dtype_map field_type_str <> Some FLOAT_VECTOR.
Proof.
  unfold dtype_map. cbn [first_match].
  destruct (Str.py_in "DataType.INT64" field_type_str); [discriminate|].
  destruct (Str.py_in "DataType.FLOAT" field_type_str) eqn:Hfloat;
    [discriminate|].
  destruct (Str.py_in "DataType.FLOAT_VECTOR" field_type_str) eqn:Hvec.
  - change "DataType.FLOAT_VECTOR" with ("DataType.FLOAT" ++ "_VECTOR") in Hvec.
    apply py_in_append_l in Hvec. congruence.
  - destruct (Str.py_in "DataType.BINARY_VECTOR" field_type_str); [discriminate|].
    destruct (Str.py_in "DataType.VARCHAR" field_type_str); discriminate.
Qed.

(** X9.  Whatever a schema document says, the restore program never builds a
    FLOAT_VECTOR field: a type string in which the table would find
    DataType.FLOAT_VECTOR is one in which it finds DataType.FLOAT first. *)
Theorem restore_never_builds_float_vector (fds : list field_dict)
    (w w' : pyworld) (fs : list FieldSchema) :
  restore_fields fds w = (inr fs, w') ->
  Forall (fun f => dtype f <> FLOAT_VECTOR) fs.
Proof.
  intros Hrun.
  pose proof (restore_fields_spec fds w) as H. unfold wp in H.
  rewrite Hrun in H. cbn [fst snd] in H. destruct H as [_ H].
  specialize (H fs eq_refl). clear Hrun.
  induction H as [|fd f fds fs Hf _ IH]; constructor; [|exact IH].
  destruct Hf as (t & n & d & _ & _ & Hmatch & ->).
  cbn [build_field_schema dtype]. intros ->.
  exact (first_match_never_float_vector t Hmatch).
Qed.

Lemma restore_never_builds_float_vector_witness :
  Forall (fun f => dtype f <> FLOAT_VECTOR)
         [Sample.id_field;
          {| name := "vec"; description := ""; dtype := FLOAT;
             is_primary := false; auto_id := false; params := [] |}].
Proof.
  apply (restore_never_builds_float_vector
           (map backup_field (fields (schema Sample.docs)))
           (Sample.serving ∅) (Sample.serving ∅)).
  reflexivity.
Defined.

Lemma backup_indexes_none (c : Collection) :
  indexes c = [] -> backup_indexes c = [].
Proof.
  intros H. unfold backup_indexes, index_of. rewrite H. cbn [find].
  induction (fields (schema c)) as [|f fs IH]; [reflexivity|exact IH].
Qed.

Lemma lone_schema_key (backup_path n : string) :
  Str.lacks "/" backup_path = true ->
  Str.lacks "/" n = true ->
  collection_paths [schema_key backup_path n]
  = [(n, [schema_key backup_path n])]
  /\ find_file "/schema.json" [schema_key backup_path n]
     = Some (schema_key backup_path n)
  /\ find_file "/indexes.json" [schema_key backup_path n] = None.
Proof.
  intros Hp Hn.
  destruct (backup_keys_are_read backup_path n Hp Hn)
    as (_ & _ & Hkey & _ & _ & _).
  split; [|split].
  - unfold collection_paths. cbn [fold_left]. rewrite Hkey. reflexivity.
  - unfold find_file, schema_key. cbn [find].
    rewrite <- !append_assoc, StrFacts.endswith_app. reflexivity.
  - unfold find_file, schema_key. cbn [find].
    rewrite <- !append_assoc, (proj2 (endswith_longer _)). reflexivity.
Qed.

Lemma lone_backup_bucket (TIMESTAMP n : string) (c : Collection)
    (w : pyworld) :
  milvus w = {[ n := c ]} ->
  bucket w = ∅ ->
  indexes c = [] ->
  (refused_connects w < 10)%nat ->
  bucket (snd (backup_program TIMESTAMP w))
  = {[ schema_key ("backup-" ++ TIMESTAMP) n := schema_document n c ]}.
Proof.
  intros Hm Hb Hix Hr.
  destruct (backup_program_documents TIMESTAMP w Hr)
    as (w' & Hrun & _ & Hdocs & Hframe).
  rewrite Hrun. cbn [snd]. apply map_eq. intros k.
  destruct (decide (k = schema_key ("backup-" ++ TIMESTAMP) n)) as [->|Hne].
  - rewrite lookup_singleton_eq.
    refine (proj1 (Hdocs n c _)). rewrite Hm. apply lookup_singleton_eq.
  - rewrite lookup_singleton_ne by congruence.
    rewrite Hframe, Hb; [apply lookup_empty|].
    intros (n0 & c0 & Hc0 & Hk). rewrite Hm in Hc0.
    apply lookup_singleton_Some in Hc0 as [<- <-].
    rewrite (backup_indexes_none c Hix) in Hk.
    destruct Hk as [->|[Hno _]]; congruence.
Qed.

Lemma lone_manifest (backup_path n : string) (doc : s3_object) (u : pyworld) :
  Str.lacks "/" backup_path = true ->
  Str.lacks "/" n = true ->
  bucket u = {[ schema_key backup_path n := doc ]} ->
  manifest backup_path u = [schema_key backup_path n].
Proof.
  intros Hp Hn Hb. unfold manifest, sorted_keys. rewrite Hb.
  rewrite map_to_list_singleton. cbn [map fst].
  destruct (backup_keys_are_read backup_path n Hp Hn) as (Hprefix & _).
  change (merge_sort (λ a c : string, String.leb a c) [schema_key backup_path n])
    with [schema_key backup_path n].
  rewrite filter_cons_True by (rewrite Hprefix; exact I).
  reflexivity.
Qed.

(** X10.  A collection whose fields are all kept by the restore and which has
    no index is given back by the two programs as it was: the backup of a
    deployment that serves it alone, restored on an empty cluster that
    accepts its schema, recreates the same collection. *)
Theorem kept_collection_makes_the_round_trip (TIMESTAMP n : string)
    (c : Collection) (w u : pyworld) :
  Str.lacks "/" TIMESTAMP = true ->
  Str.lacks "/" n = true ->
  forallb kept_by_restore (fields (schema c)) = true ->
  indexes c = [] ->
  milvus w = {[ n := c ]} ->
  bucket w = ∅ ->
  (refused_connects w < 10)%nat ->
  milvus u = ∅ ->
  bucket u = bucket (snd (backup_program TIMESTAMP w)) ->
  (refused_connects u < 10)%nat ->
  server_rejects u n (schema c) = false ->
  exists u',
    restore_program ("backup-" ++ TIMESTAMP) u = (inr tt, u')
    /\ milvus u' = {[ n := c ]}.
Proof.
  intros Hts Hn Hkept Hix Hm Hb Hr Hmu Hbu Hru Hrej.
  assert (Hp : Str.lacks "/" ("backup-" ++ TIMESTAMP) = true)
    by (rewrite lacks_app, Hts; reflexivity).
  rewrite (lone_backup_bucket TIMESTAMP n c w Hm Hb Hix Hr) in Hbu.
  destruct (lone_schema_key _ n Hp Hn) as (Hpaths & Hschema & Hindexes).
  destruct c as [[fs desc] ixs]. cbn [indexes schema fields] in *. subst ixs.
  unfold schema_document in Hbu. cbn [schema fields schema_description] in Hbu.
  apply wp_run. unfold restore_program. py_go.
  match goal with
  | |- wp connect_with_retries ?w1 _ =>
      destruct (connect_with_retries_connects w1 Hru)
        as (u1 & Hrun & Hm1 & Hb1 & Hs1)
  end.
  eapply wp_known; [exact Hrun|]. py_norm. cbn [milvus bucket server_rejects] in *.
  apply wp_try. unfold restore_listing.
  assert (Hkeys : manifest ("backup-" ++ TIMESTAMP) u1
                  = [schema_key ("backup-" ++ TIMESTAMP) n])
    by (eapply (lone_manifest _ n _ u1 Hp Hn); rewrite Hb1; exact Hbu).
  unfold manifest in Hkeys.
  assert (Hdoc : bucket u1 !! schema_key ("backup-" ++ TIMESTAMP) n
                 = Some (SchemaJson
                           {| sd_name := Some n; sd_description := Some desc;
                              sd_fields := Some (map backup_field fs) |}))
    by (rewrite Hb1, Hbu; apply lookup_singleton_eq).
  assert (Hnone : milvus u1 !! n = None)
    by (rewrite Hm1, Hmu; apply lookup_empty).
  assert (Hdec : bool_decide (is_Some (@None Collection)) = false)
    by (apply bool_decide_eq_false_2; intros [? H]; discriminate H).
  assert (Hrej1 : server_rejects u1 n
                    {| fields := fs; schema_description := desc |} = false)
    by (rewrite Hs1; exact Hrej).
  py_go. rewrite Hpaths. cbn [for_each]. unfold restore_collection.
  repeat (lazymatch goal with
          | |- wp (restore_fields _) _ _ => fail
          | _ => py_step
          end).
  all: match goal with
       | H : sd_fields _ = _ |- _ =>
           cbn [sd_fields] in H;
           first [discriminate H | inversion H; subst; clear H]
       end.
  eapply wp_known;
    [rewrite restore_fields_of_backup, (restored_fields_kept fs Hkept);
     reflexivity|].
  py_norm.
  repeat (py_step; cbn [sd_description sd_fields from_option id];
          rewrite ?Hnone, ?Hdec, ?Hrej1; py_lookup).
  split; [reflexivity|].
  rewrite Hm1, Hmu. apply insert_empty.
Qed.

Lemma kept_collection_makes_the_round_trip_witness :
  exists u',
    restore_program "backup-20240101000000"
      (Sample.upgraded ∅ (Sample.backed_up {[ "ids" := Scenario.ids ]}))
    = (inr tt, u')
    /\ milvus u' = {[ "ids" := Scenario.ids ]}.
Proof.
  apply (kept_collection_makes_the_round_trip "20240101000000" "ids"
           Scenario.ids (Sample.serving {[ "ids" := Scenario.ids ]})
           (Sample.upgraded ∅ (Sample.backed_up {[ "ids" := Scenario.ids ]}))).
  - reflexivity.
  - reflexivity.
  - reflexivity.
  - reflexivity.
  - reflexivity.
  - reflexivity.
  - cbn [Sample.serving refused_connects]; lia.
  - reflexivity.
  - unfold Sample.upgraded, Sample.backed_up; cbn [bucket]; reflexivity.
  - cbn [Sample.upgraded refused_connects]; lia.
  - reflexivity.
Defined.

Lemma dict_append_In (n key : string) (d : list (string * list string))
    (m : string) (ps : list string) :
  List.NoDup (map fst d) ->
  In (m, ps) (dict_append n key d) <->
  (m <> n /\ In (m, ps) d)
  \/ (m = n /\ ((exists ps0, In (n, ps0) d /\ ps = (ps0 ++ [key])%list)
                \/ (~ In n (map fst d) /\ ps = [key]))).
Proof.
  induction d as [|[n0 ps0] d IH]; cbn [dict_append map fst In]; intros Hd.
  - split.
    + intros [H|[]]. inversion H; subst. right. split; [reflexivity|].
      right. split; [tauto|reflexivity].
    + intros [[_ []]|[-> [(? & [] & _)|[_ ->]]]]. left. reflexivity.
  - apply List.NoDup_cons_iff in Hd as [Hfresh Hd]. specialize (IH Hd).
    destruct (String.eqb n0 n) eqn:Hn.
    + apply String.eqb_eq in Hn. subst n0. cbn [In]. split.
      * intros [H|H].
        -- inversion H; subst. right. split; [reflexivity|]. left.
           exists ps0. split; [left; reflexivity|reflexivity].
        -- left. split; [|right; exact H].
           intros ->. apply Hfresh. apply in_map_iff. exists (n, ps). auto.
      * intros [[Hne [H|H]]|[-> [(ps1 & [H|H] & ->)|[Hnot _]]]].
        -- inversion H; subst. contradiction.
        -- right. exact H.
        -- inversion H; subst. left. reflexivity.
        -- exfalso. apply Hfresh. apply in_map_iff. exists (n, ps1). auto.
        -- exfalso. apply Hnot. left. reflexivity.
    + apply String.eqb_neq in Hn. cbn [In]. rewrite IH. split.
      * intros [H|[[Hne H]|[-> [(ps1 & H & ->)|[Hnot ->]]]]].
        -- inversion H; subst. left. split; [exact Hn|left; reflexivity].
        -- left. split; [exact Hne|right; exact H].
        -- right. split; [reflexivity|]. left. exists ps1. auto.
        -- right. split; [reflexivity|]. right. split; [|reflexivity].
           intros [Heq|Hin]; [congruence|contradiction].
      * intros [[Hne [H|H]]|[-> [(ps1 & [H|H] & ->)|[Hnot ->]]]].
        -- left. exact H.
        -- right. left. auto.
        -- inversion H; subst. congruence.
        -- right. right. split; [reflexivity|]. left. eauto.
        -- right. right. split; [reflexivity|]. right. split; [|reflexivity].
           intros Hin. apply Hnot. right. exact Hin.
Qed.

Lemma keys_of_snoc (n key : string) (keys : list string) :
  keys_of n (keys ++ [key])
  = (keys_of n keys
     ++ if bool_decide (key_collection key = Some n) then [key] else [])%list.
Proof.
  unfold keys_of. rewrite List.filter_app. cbn [List.filter].
  destruct (bool_decide (key_collection key = Some n)); reflexivity.
Qed.

Lemma collection_paths_snoc (keys : list string) (key : string) :
  collection_paths (keys ++ [key])
  = match key_collection key with
    | Some collection_name =>
        dict_append collection_name key (collection_paths keys)
    | None => collection_paths keys
    end.
Proof. unfold collection_paths. rewrite fold_left_app. reflexivity. Qed.

Lemma collection_paths_spec (keys : list string) (n : string)
    (paths : list string) :
  In (n, paths) (collection_paths keys) <->
  paths <> [] /\ paths = keys_of n keys.
Proof.
  revert n paths. induction keys as [|key keys IH] using rev_ind;
    intros n paths.
  - cbn. split; [intros []|]. intros [Hne ->]. congruence.
  - rewrite collection_paths_snoc, keys_of_snoc.
    destruct (key_collection key) as [m|] eqn:Hkey.
    + rewrite dict_append_In by apply collection_paths_NoDup.
      destruct (decide (n = m)) as [->|Hne].
      * rewrite bool_decide_eq_true_2 by reflexivity. split.
        -- intros [[Hne _]|[_ [(ps0 & Hin & ->)|[Hnot ->]]]]; [congruence| |].
           ++ apply IH in Hin as [_ ->].
              split; [|reflexivity]. intros H. apply app_eq_nil in H as [_ H].
              discriminate H.
           ++ split; [discriminate|].
              destruct (keys_of m keys) as [|k0 ks] eqn:Hks; [reflexivity|].
              exfalso. apply Hnot. apply in_map_iff.
              exists (m, k0 :: ks). split; [reflexivity|].
              apply IH. split; [discriminate|]. symmetry. exact Hks.
        -- intros [_ ->]. right. split; [reflexivity|].
           destruct (keys_of m keys) as [|k0 ks] eqn:Hks.
           ++ right. split; [|reflexivity].
              intros Hin. apply in_map_iff in Hin as ([m' ps] & Heq & Hin).
              cbn [fst] in Heq. subst m'.
              apply IH in Hin as [Hne' ->]. congruence.
           ++ left. exists (k0 :: ks). split; [|reflexivity].
              apply IH. split; [discriminate|]. symmetry. exact Hks.
      * rewrite bool_decide_eq_false_2 by congruence. rewrite app_nil_r.
        rewrite <- IH. split.
        -- intros [[_ H]|[Heq _]]; [exact H|contradiction].
        -- intros H. left. auto.
    + rewrite bool_decide_eq_false_2 by congruence. rewrite app_nil_r.
      apply IH.
Qed.

(** X11.  How the restore program groups a listing.  The collections it visits
    are the second parts of the keys that have at least three parts, each
    one once; the paths it holds for a collection are the keys of the
    listing that belong to it, all of them and in the order of the listing.
    A key of fewer than three parts belongs to no collection. *)
Theorem listing_is_grouped_by_collection (keys : list string) :
  List.NoDup (map fst (collection_paths keys))
  /\ (forall n paths,
        In (n, paths) (collection_paths keys) <->
        paths <> [] /\ paths = keys_of n keys)
  /\ (forall key n,
        In key keys -> key_collection key = Some n ->
        exists paths, In (n, paths) (collection_paths keys) /\ In key paths)
  /\ (forall key,
        (length (Str.split "/" key) < 3)%nat -> key_collection key = None).
Proof.
  split; [apply collection_paths_NoDup|].
  split; [apply collection_paths_spec|]. split.
  - intros key n Hin Hkey.
    assert (Hk : In key (keys_of n keys)).
    { unfold keys_of. apply List.filter_In. split; [exact Hin|].
      apply bool_decide_eq_true_2. exact Hkey. }
    exists (keys_of n keys). split; [|exact Hk].
    apply collection_paths_spec. split; [|reflexivity].
    intros Hnil. rewrite Hnil in Hk. destruct Hk.
  - intros key Hlen. unfold key_collection.
    destruct (Str.split "/" key) as [|a [|b [|c l]]]; try reflexivity.
    cbn [length] in Hlen. lia.
Qed.

Lemma listing_is_grouped_by_collection_witness :
  exists paths,
    In ("docs", paths)
       (collection_paths ["backup-1/docs/indexes.json"; "backup-1/readme";
                          "backup-1/docs/schema.json"])
    /\ In "backup-1/docs/schema.json" paths.
Proof.
  apply (proj1 (proj2 (proj2 (listing_is_grouped_by_collection
           ["backup-1/docs/indexes.json"; "backup-1/readme";
            "backup-1/docs/schema.json"])))).
  - right. right. left. reflexivity.
  - reflexivity.
Defined.

Lemma restore_listing_frame (MILVUS_BACKUP_PATH : string) (w : pyworld) :
  wp (restore_listing MILVUS_BACKUP_PATH) w
     (fun r w' =>
        bucket w' = bucket w
        /\ (forall other,
              ~ In other (map fst (collection_paths (manifest MILVUS_BACKUP_PATH w))) ->
              milvus w' !! other = milvus w !! other)
        /\ (manifest MILVUS_BACKUP_PATH w = [] ->
            r = inl (SystemExit 0) /\ milvus w' = milvus w
            /\ api w' = (api w ++ [ListObjects (MILVUS_BACKUP_PATH ++ "/")])%list
            /\ last (stdout w') = Some "No backup content found")).
Proof.
  unfold restore_listing.
  destruct (manifest MILVUS_BACKUP_PATH w) as [|key keys] eqn:Hkeys;
    unfold manifest in Hkeys; py_go.
  - split; [reflexivity|]. split; [reflexivity|]. intros _.
    split; [reflexivity|]. split; [reflexivity|]. split; [reflexivity|].
    apply last_snoc.
  - eapply wp_mono; [apply restore_loop_spec, collection_paths_NoDup|].
    py_norm.
    intros [e|[]] w1 (Hb & _ & Hother & _); py_go;
      (split; [exact Hb|]); (split; [exact Hother|]); intros Hnil;
      discriminate Hnil.
Qed.

(** X12.  The restore program reads the bucket and never writes it, and it
    leaves alone every collection of the cluster that the listing of the
    backup does not name, whether it ends normally, in its handler or
    without a connection. *)
Theorem restore_touches_named_collections_only (MILVUS_BACKUP_PATH : string)
    (w : pyworld) :
  bucket (snd (restore_program MILVUS_BACKUP_PATH w)) = bucket w
  /\ forall other,
       ~ In other (map fst (collection_paths (manifest MILVUS_BACKUP_PATH w))) ->
       milvus (snd (restore_program MILVUS_BACKUP_PATH w)) !! other
       = milvus w !! other.
Proof.
  destruct (Nat.lt_ge_cases (refused_connects w) max_retries) as [Hr|Hr].
  - assert (Hwp : wp (restore_program MILVUS_BACKUP_PATH) w
              (fun _ w' =>
                 bucket w' = bucket w
                 /\ forall other,
                      ~ In other (map fst (collection_paths
                                             (manifest MILVUS_BACKUP_PATH w))) ->
                      milvus w' !! other = milvus w !! other)).
    { unfold restore_program. py_go.
      match goal with
      | |- wp connect_with_retries ?w1 _ =>
          destruct (connect_with_retries_connects w1 Hr)
            as (w2 & Hrun & Hm & Hb & _)
      end.
      eapply wp_known; [exact Hrun|]. py_norm. cbn [milvus bucket] in Hm, Hb.
      apply wp_try. eapply wp_mono; [apply restore_listing_frame|].
      cbv beta. unfold manifest. rewrite Hb, Hm.
      intros [e|[]] w3 (Hb' & Hother & _).
      - destruct (is_Exception e); py_go; auto.
      - auto. }
    exact Hwp.
  - destruct (unreachable_restore MILVUS_BACKUP_PATH w Hr)
      as (w' & Hrun & _ & Hm & Hb).
    rewrite Hrun. cbn [snd]. rewrite Hm, Hb. auto.
Qed.

Lemma restore_touches_named_collections_only_witness :
  bucket (snd (restore_program "backup-20240101000000" Sample.overwriting))
  = bucket Sample.overwriting
  /\ milvus (snd (restore_program "backup-20240101000000" Sample.overwriting))
       !! "audit"
     = milvus Sample.overwriting !! "audit".
Proof.
  destruct (restore_touches_named_collections_only
              "backup-20240101000000" Sample.overwriting) as [Hb Hother].
  split; [exact Hb|]. apply Hother. vm_compute. intros [H|[]]. discriminate H.
Defined.

(** X13.  With no object under the prefix, the restore program prints that it
    found no backup content and stops with [exit(0)] right after the
    listing: the exit status is 0 and no collection has been looked at. *)
Theorem restore_of_empty_backup (MILVUS_BACKUP_PATH : string) (w : pyworld) :
  (refused_connects w < 10)%nat ->
  manifest MILVUS_BACKUP_PATH w = [] ->
  exists w',
    restore_program MILVUS_BACKUP_PATH w = (inl (SystemExit 0), w')
    /\ milvus w' = milvus w
    /\ api w'
       = (api w ++ Sleep 120 :: retried (refused_connects w)
                ++ [ListObjects (MILVUS_BACKUP_PATH ++ "/")])%list
    /\ last (stdout w') = Some "No backup content found".
Proof.
  intros Hr Hempty. apply wp_run. unfold restore_program. py_go.
  unfold connect_with_retries.
  eapply wp_mono;
    [apply (connect_loop_run max_retries 0); unfold max_retries; lia|].
  py_norm. unfold max_retries. cbn [Nat.sub].
  intros r w1 (-> & Hapi & _ & Hm & Hb & _).
  replace (refused_connects w <? 10)%nat with true
    by (symmetry; apply Nat.ltb_lt; clear - Hr; lia).
  rewrite Nat.min_l in Hapi by (clear - Hr; lia).
  apply wp_try. eapply wp_mono; [apply restore_listing_frame|].
  cbv beta. unfold manifest in *. rewrite Hb. 
  intros r w2 (_ & _ & Hnil). destruct (Hnil Hempty) as (-> & Hm2 & Hapi2 & Hlast).
  cbn [is_Exception].
  split; [reflexivity|]. split; [congruence|].
  split; [|exact Hlast].
  rewrite Hapi2, Hapi, <- !app_assoc. reflexivity.
Qed.

Lemma restore_of_empty_backup_witness :
  exists w',
    restore_program "backup-20240101000000" (Sample.serving ∅)
    = (inl (SystemExit 0), w')
    /\ milvus w' = milvus (Sample.serving ∅)
    /\ api w'
       = (api (Sample.serving ∅) ++ Sleep 120
          :: retried (refused_connects (Sample.serving ∅))
          ++ [ListObjects ("backup-20240101000000" ++ "/")])%list
    /\ last (stdout w') = Some "No backup content found".
Proof.
  apply (restore_of_empty_backup "backup-20240101000000" (Sample.serving ∅)).
  - cbn. lia.
  - reflexivity.
Defined.

Lemma restore_fields_complete (fds : list field_dict) (fs : list FieldSchema)
    (w : pyworld) :
  Forall2 rebuilt_field fds fs -> restore_fields fds w = (inr fs, w).
Proof.
  intros H. induction H as [|fd f fds fs Hf _ IH]; cbn [restore_fields];
    [reflexivity|].
  destruct Hf as (t & n & d & Ht & Hn & Hmatch & ->).
  unfold bind at 1. unfold restore_field at 1. rewrite Ht. unfold require at 1.
  unfold bind at 1. cbv [pure]. rewrite Hmatch, Hn.
  unfold require, bind. cbv [pure]. rewrite IH. reflexivity.
Qed.

(** X14.  The collection that is in the way is dropped before the one of the
    backup is created, and the drop is not undone: when the server refuses
    the schema rebuilt from the backup, the collection that was there is
    gone and none has taken its place.  The exception is left to the
    handler of the program. *)
Theorem refused_schema_loses_the_collection (collection_name : string)
    (paths : list string) (schema_file : string) (doc : schema_dict)
    (fds : list field_dict) (fs : list FieldSchema) (old : Collection)
    (w : pyworld) :
  find_file "/schema.json" paths = Some schema_file ->
  bucket w !! schema_file = Some (SchemaJson doc) ->
  sd_fields doc = Some fds ->
  Forall2 rebuilt_field fds fs ->
  milvus w !! collection_name = Some old ->
  server_rejects w collection_name
    {| fields := fs; schema_description := default "" (sd_description doc) |}
  = true ->
  exists w',
    restore_collection (collection_name, paths) w
    = (inl (MilvusException "schema rejected"), w')
    /\ milvus w' = delete collection_name (milvus w)
    /\ exists before,
         api w' = (before ++ [DropCollection collection_name;
                              CreateCollection collection_name])%list.
Proof.
  intros Hfile Hdoc Hfds Hfields Hold Hrej.
  assert (Hdec : bool_decide (is_Some (Some old)) = true)
    by (apply bool_decide_eq_true_2; eauto).
  apply wp_run. unfold restore_collection.
  repeat (lazymatch goal with
          | |- wp (restore_fields _) _ _ => fail
          | _ => py_step
          end).
  eapply wp_known; [apply (restore_fields_complete fds fs); exact Hfields|].
  py_norm.
  repeat (py_step; rewrite ?Hold, ?Hdec, ?Hrej; py_lookup).
  split; [reflexivity|]. split; [reflexivity|].
  exists (api w ++ [Download schema_file; HasCollection collection_name])%list.
  rewrite <- !app_assoc. reflexivity.
Qed.

Lemma refused_schema_loses_the_collection_witness :
  exists w',
    restore_collection ("docs", ["backup-20240101000000/docs/schema.json"])
                       Scenario.strict_cluster
    = (inl (MilvusException "schema rejected"), w')
    /\ milvus w' = delete "docs" (milvus Scenario.strict_cluster).
Proof.
  destruct (refused_schema_loses_the_collection "docs"
              ["backup-20240101000000/docs/schema.json"]
              "backup-20240101000000/docs/schema.json"
              {| sd_name := Some "docs"; sd_description := Some "";
                 sd_fields := Some (map backup_field
                                        (fields (schema Sample.docs))) |}
              (map backup_field (fields (schema Sample.docs)))
              [Sample.id_field;
               {| name := "vec"; description := ""; dtype := FLOAT;
                  is_primary := false; auto_id := false; params := [] |}]
              Sample.stale_docs Scenario.strict_cluster)
    as (w' & Hrun & Hm & _).
  - reflexivity.
  - vm_compute. reflexivity.
  - reflexivity.
  - repeat constructor; unfold rebuilt_field;
      [exists "DataType.INT64", "id", INT64
      |exists "DataType.FLOAT_VECTOR", "vec", FLOAT]; repeat split.
  - reflexivity.
  - reflexivity.
  - exists w'. split; [exact Hrun|exact Hm].
Defined.

Lemma for_each_stops (items rest : list (string * list string))
    (bad : string * list string) (w w1 w2 : pyworld) (e : pyexc) :
  for_each restore_collection items w = (inr tt, w1) ->
  restore_collection bad w1 = (inl e, w2) ->
  for_each restore_collection (items ++ bad :: rest) w = (inl e, w2).
Proof.
  revert w. induction items as [|item items IH]; intros w Hitems Hbad.
  - cbn [for_each app] in *. inversion Hitems; subst.
    apply bind_fail. exact Hbad.
  - cbn [for_each app] in *.
    apply bind_inv_ok in Hitems as ([] & w0 & Hitem & Hitems).
    rewrite (bind_ok _ _ _ _ _ Hitem). apply IH; assumption.
Qed.

(** X24.  The loop of the restore program has no handler of its own: the first
    collection that fails ends it.  The collections before it stay as they
    were restored, and those that come after it in the listing are never
    looked at and are left as the cluster had them. *)
Theorem failed_collection_ends_the_loop
    (items rest : list (string * list string)) (bad : string * list string)
    (w w1 w2 : pyworld) (e : pyexc) :
  List.NoDup (map fst (items ++ bad :: rest)) ->
  for_each restore_collection items w = (inr tt, w1) ->
  restore_collection bad w1 = (inl e, w2) ->
  for_each restore_collection (items ++ bad :: rest) w = (inl e, w2)
  /\ (forall n, In n (map fst items) -> milvus w2 !! n = milvus w1 !! n)
  /\ (forall n, In n (map fst rest) -> milvus w2 !! n = milvus w !! n).
Proof.
  intros Hnodup Hitems Hbad.
  split; [exact (for_each_stops items rest bad w w1 w2 e Hitems Hbad)|].
  rewrite map_app in Hnodup. cbn [map] in Hnodup.
  apply NoDup_ListNoDup, NoDup_app in Hnodup as (Hnd1 & Hdisj & Hnd2).
  apply NoDup_cons in Hnd2 as [Hbadfresh _].
  destruct bad as [bad_name bad_paths]. cbn [fst] in *.
  pose proof (restore_collection_spec bad_name bad_paths w1) as Hspec.
  unfold wp in Hspec. rewrite Hbad in Hspec. cbn [fst snd] in Hspec.
  destruct Hspec as (_ & _ & Hother2 & _).
  pose proof (restore_loop_spec items w (proj1 (NoDup_ListNoDup _) Hnd1)) as Hloop.
  unfold wp in Hloop. rewrite Hitems in Hloop. cbn [fst snd] in Hloop.
  destruct Hloop as (_ & _ & Hother1 & _).
  split.
  - intros n Hn. apply Hother2. intros ->.
    apply (Hdisj bad_name); [apply list_elem_of_In; exact Hn|left].
  - intros n Hn.
    assert (Hne : n <> bad_name).
    { intros ->. apply Hbadfresh. apply list_elem_of_In. exact Hn. }
    rewrite (Hother2 n Hne). apply Hother1. intros Hin.
    apply (Hdisj n); [apply list_elem_of_In; exact Hin|].
    right. apply list_elem_of_In. exact Hn.
Qed.

Lemma failed_collection_ends_the_loop_witness :
  for_each restore_collection
    ([] ++ ("audit", ["backup-20240101000000/audit/schema.json"])
        :: [("docs", ["backup-20240101000000/docs/schema.json"])])
    Sample.restoring_audit_and_docs
  = (inl (KeyError "<class 'type'>"),
     snd (restore_collection
            ("audit", ["backup-20240101000000/audit/schema.json"])
            Sample.restoring_audit_and_docs))
  /\ milvus (snd (restore_collection
                    ("audit", ["backup-20240101000000/audit/schema.json"])
                    Sample.restoring_audit_and_docs)) !! "docs"
     = milvus Sample.restoring_audit_and_docs !! "docs".
Proof.
  destruct (failed_collection_ends_the_loop []
              [("docs", ["backup-20240101000000/docs/schema.json"])]
              ("audit", ["backup-20240101000000/audit/schema.json"])
              Sample.restoring_audit_and_docs Sample.restoring_audit_and_docs
              (snd (restore_collection
                      ("audit", ["backup-20240101000000/audit/schema.json"])
                      Sample.restoring_audit_and_docs))
              (KeyError "<class 'type'>"))
    as (Hrun & _ & Hrest).
  - cbn [app map fst]. repeat constructor; cbn [In]; intuition discriminate.
  - reflexivity.
  - vm_compute. reflexivity.
  - split; [exact Hrun|]. apply Hrest. left. reflexivity.
Defined.

(* ===================================================================== *)
(** * The upgrade script: the stages after the prompt *)
(* ===================================================================== *)

Lemma restore_data_spec (s : shworld) (path : string) :
  files s !! "milvus-backup-info.env" = Some (BackupInfo path) ->
  wp restore_data s
     (fun r s' =>
        r = inr tt
        /\ files s' !! "milvus-restore-job.yaml"
           = Some (RestoreJob path (default "" (vars s !! "EKS_NAMESPACE")))
        /\ deployment s'
           = snd (run_pods backoffLimit (restore_program path) (deployment s))
        /\ jobs s' !! "milvus-restore"
           = Some (fst (run_pods backoffLimit (restore_program path)
                                 (deployment s)))
        /\ In (if fst (run_pods backoffLimit (restore_program path)
                                (deployment s))
               then "Restoration completed successfully"
               else "Restoration may not have completed successfully. Check job logs for details.")
              (console s')
        /\ (exists made, calls s' = (calls s ++ made)%list
                         /\ existsb is_helm_upgrade made = false)
        /\ stdin s' = stdin s /\ lb_hostname s' = lb_hostname s).
Proof.
  intros Hfile.
  destruct (run_pods backoffLimit (restore_program path) (deployment s))
    as [ok p] eqn:Hpods.
  assert (Hgrep : Str.grep_q "1" "1" = true) by reflexivity.
  assert (Hgrep' : Str.grep_q "1" "" = false) by reflexivity.
  unfold restore_data. destruct ok; wp_go.
  all: rewrite ?Hgrep, ?Hgrep'; wp_go.
  all: cbn [fst snd]; split; [reflexivity|]; split; [reflexivity|];
    split; [reflexivity|]; split; [reflexivity|];
    split; [rewrite ?in_app_iff; cbn [In]; tauto|];
    split; [eexists; split; [rewrite <- ?app_assoc; reflexivity|reflexivity]|];
    split; reflexivity.
Qed.



Lemma upgrade_to_cluster_frame (s : shworld) :
  wp upgrade_to_cluster s
     (fun r s' =>
        r = inr tt
        /\ files s' !! "milvus-backup-info.env"
           = files s !! "milvus-backup-info.env"
        /\ vars s' = vars s /\ stdin s' = stdin s
        /\ lb_hostname s' = lb_hostname s
        /\ deployment s'
           = with_milvus (fun _ => after_upgrade s) (deployment s)
        /\ calls s'
           = (calls s
              ++ [helm_repo_update; helm_get_values;
                  helm_upgrade (default "" (vars s !! "EKS_NAMESPACE"))
                               (default "" (vars s !! "AWS_REGION"))
                               (default "" (vars s !! "MILVUS_BUCKET_NAME"));
                  sleep 120; kubectl_get "pods"; kubectl_wait "pod --all" 600;
                  kubectl_get "pods"])%list).
Proof.
  unfold upgrade_to_cluster. wp_go.
  rewrite <- !app_assoc. auto 10.
Qed.

Lemma verify_deployment_spec (s : shworld) :
  wp verify_deployment s
     (fun r s' =>
        r = inr tt
        /\ files s' = files s /\ deployment s' = deployment s
        /\ jobs s' = jobs s
        /\ (exists made, calls s' = (calls s ++ made)%list
                         /\ existsb is_helm_upgrade made = false)
        /\ In (if String.eqb (lb_hostname s) "" then "LoadBalancer address not found"
               else "Milvus is accessible at: " ++ lb_hostname s ++ ":19530")
              (console s')
        /\ exists said, console s' = (console s ++ said)%list).
Proof.
  unfold verify_deployment.
  destruct (String.eqb (lb_hostname s) "") eqn:Hlb; wp_go.
  all: split; [reflexivity|]; split; [reflexivity|]; split; [reflexivity|];
    split; [reflexivity|];
    split; [eexists; split; [rewrite <- ?app_assoc; reflexivity|reflexivity]|];
    split; [rewrite ?in_app_iff; cbn [In]; tauto|];
    eexists; rewrite <- ?app_assoc; reflexivity.
Qed.

Lemma create_backup_spec (s : shworld) :
  wp create_backup s
     (fun r s' =>
        let ok := fst (run_pods backoffLimit
                         (backup_program (date_stamp (clock s))) (deployment s)) in
        let TIMESTAMP := date_stamp (clock s) in
        let backup_bucket := default "" (vars s !! "MILVUS_BACKUP_BUCKET_NAME") in
        r = (if ok || Str.is_yes (next_answer s) then inr tt else inl 1%Z)
        /\ files s' !! "milvus-backup-info.env"
           = (if ok then Some (BackupInfo ("backup-" ++ TIMESTAMP))
              else files s !! "milvus-backup-info.env")
        /\ stdin s' = (if ok then stdin s else tl (stdin s))
        /\ backup_bucket_exists s'
           = (backup_bucket_exists s || mb_succeeds s backup_bucket)
        /\ calls s'
           = (calls s
              ++ aws_s3api_head_bucket backup_bucket
              :: (if backup_bucket_exists s then []
                  else [aws_s3_mb backup_bucket
                                  (default "" (vars s !! "AWS_REGION"))])
              ++ [date_cmd; kubectl_apply "milvus-backup-job.yaml";
                  kubectl_wait ("job/milvus-backup-" ++ TIMESTAMP) 300;
                  kubectl_get ("job " ++ "milvus-backup-" ++ TIMESTAMP)]
              ++ (if ok then []
                  else [kubectl_logs ("job/milvus-backup-" ++ TIMESTAMP)]))%list
        /\ deployment s'
           = snd (run_pods backoffLimit (backup_program TIMESTAMP) (deployment s))
        /\ (forall x, x <> "TIMESTAMP" -> x <> "continue_anyway" ->
                      vars s' !! x = vars s !! x)
        /\ after_upgrade s' = after_upgrade s
        /\ lb_hostname s' = lb_hostname s).
Proof.
  destruct (run_pods backoffLimit (backup_program (date_stamp (clock s)))
                     (deployment s)) as [ok p] eqn:Hpods.
  assert (Hgrep : Str.grep_q "1" "1" = true) by reflexivity.
  assert (Hgrep' : Str.grep_q "1" "" = false) by reflexivity.
  unfold create_backup, next_answer. cbv zeta. cbn [fst snd].
  destruct ok, (backup_bucket_exists s) eqn:Hbucket; wp_go.
  all: rewrite ?Hgrep, ?Hgrep'; wp_go.
  all: cbn [hd tl orb];
    repeat match goal with
           | E : Str.is_yes _ = _ |- _ => rewrite E
           end;
    cbn [negb];
    (split; [reflexivity|]); (split; [reflexivity|]); (split; [reflexivity|]);
    (split; [reflexivity|]);
    (split; [rewrite <- ?app_assoc; reflexivity|]);
    (split; [reflexivity|]);
    (split; [intros x Hx Hx';
             rewrite ?lookup_insert_ne by congruence; reflexivity|]);
    split; reflexivity.
Qed.

Lemma existsb_helm_app (l1 l2 : list ext_call) :
  existsb is_helm_upgrade l2 = true ->
  existsb is_helm_upgrade (l1 ++ l2) = true.
Proof. intros H. rewrite existsb_app, H. apply orb_true_r. Qed.

Lemma upgrade_process_spec (s : shworld) :
  wp upgrade_process s
     (fun r s' =>
        let TIMESTAMP := date_stamp (clock s) in
        let backed := snd (run_pods backoffLimit (backup_program TIMESTAMP)
                                    (deployment s)) in
        let ok := fst (run_pods backoffLimit (backup_program TIMESTAMP)
                                (deployment s)) in
        let upgraded := with_milvus (fun _ => after_upgrade s) backed in
        if ok || Str.is_yes (next_answer s) then
          r = inr tt
          /\ existsb is_helm_upgrade (calls s') = true
          /\ match (if ok then Some (BackupInfo ("backup-" ++ TIMESTAMP))
                    else files s !! "milvus-backup-info.env") with
             | Some (BackupInfo path) =>
                 files s' !! "milvus-restore-job.yaml"
                 = Some (RestoreJob path (default "" (vars s !! "EKS_NAMESPACE")))
                 /\ deployment s'
                    = snd (run_pods backoffLimit (restore_program path) upgraded)
             | Some _ => True
             | None => deployment s' = upgraded
             end
        else r = inl 1%Z /\ existsb is_helm_upgrade (calls s') 
                            = existsb is_helm_upgrade (calls s)).
Proof.
  unfold upgrade_process. cbv zeta.
  apply wp_bind. eapply wp_mono; [apply create_backup_spec|].
  cbv beta zeta.
  intros r s1 (-> & Hinfo & _ & _ & Hcalls & Hd & Hvars & Hafter & _).
  destruct (fst (run_pods backoffLimit (backup_program (date_stamp (clock s)))
                          (deployment s)) || Str.is_yes (next_answer s))
    eqn:Hgo.
  2: { split; [reflexivity|]. rewrite Hcalls, !existsb_app.
       cbn [existsb is_helm_upgrade orb].
       destruct (backup_bucket_exists s), (fst (run_pods _ _ _));
         cbn [existsb is_helm_upgrade orb app]; rewrite ?orb_false_r;
         reflexivity. }
  apply wp_bind. eapply wp_mono; [apply upgrade_to_cluster_frame|].
  cbv beta.
  intros r s2 (-> & Hinfo2 & Hvars2 & _ & _ & Hd2 & Hcalls2).
  assert (Hhelm : existsb is_helm_upgrade (calls s2) = true).
  { rewrite Hcalls2. apply existsb_helm_app. reflexivity. }
  assert (Hns : vars s2 !! "EKS_NAMESPACE" = vars s !! "EKS_NAMESPACE").
  { rewrite Hvars2. apply Hvars; discriminate. }
  rewrite Hinfo in Hinfo2. rewrite Hd, Hafter in Hd2.
  apply wp_bind.
  destruct (if fst (run_pods backoffLimit
                      (backup_program (date_stamp (clock s))) (deployment s))
            then Some (BackupInfo ("backup-" ++ date_stamp (clock s)))
            else files s !! "milvus-backup-info.env")
    as [[ts ns|p ns|path|]|] eqn:Hfile.
  1, 2, 4: (* a file of another kind: the path variable is not set by it *)
    assert (Hdone : exists s3, restore_data s2 = (inr tt, s3)
                      /\ existsb is_helm_upgrade (calls s3) = true);
    [|destruct Hdone as (s3 & Hrun3 & Hhelm3);
      eapply wp_known; [exact Hrun3|];
      eapply wp_mono; [apply verify_deployment_spec|]; cbv beta;
      intros r s4 (-> & _ & _ & _ & (made4 & Hcalls4 & _) & _);
      split; [reflexivity|]; split; [|exact I];
      rewrite Hcalls4, existsb_app, Hhelm3; reflexivity].
  1, 2, 3: apply wp_run; unfold restore_data; wp_go;
    (split; [reflexivity|]);
    rewrite !existsb_app, Hhelm; reflexivity.
  - (* the backup-info file names a path *)
    eapply wp_mono; [apply (restore_data_spec s2 path Hinfo2)|].
    cbv beta.
    intros r s3 (-> & Hjob & Hd3 & _ & _ & (made & Hcalls3 & _) & _).
    eapply wp_mono; [apply verify_deployment_spec|]. cbv beta.
    intros r s4 (-> & Hfiles4 & Hd4 & _ & (made4 & Hcalls4 & _) & _).
    split; [reflexivity|]. split.
    + rewrite Hcalls4, Hcalls3, !existsb_app, Hhelm. reflexivity.
    + rewrite Hfiles4, Hd4, Hjob, Hd3, Hns, Hd2. auto.
  - (* no backup-info file *)
    destruct (restore_data_skipped s2 Hinfo2)
      as (s3 & Hrun3 & Hcalls3 & Hf3 & _ & Hd3 & _).
    eapply wp_known; [exact Hrun3|].
    eapply wp_mono; [apply verify_deployment_spec|]. cbv beta.
    intros r s4 (-> & Hfiles4 & Hd4 & _ & (made4 & Hcalls4 & _) & _).
    split; [reflexivity|]. split.
    + rewrite Hcalls4, Hcalls3, !existsb_app, Hhelm. reflexivity.
    + rewrite Hd4, Hd3, Hd2. reflexivity.
Qed.

(** X16.  The path that the restore job is given is the one recorded by the
    backup of the same run: when a pod of the backup job succeeds,
    [create_backup] writes backup-<stamp> to the backup-info file, over
    whatever an earlier run left there, and [restore_data] restores from
    that path on the upgraded deployment. *)
Theorem fresh_backup_is_restored (s : shworld) :
  fst (run_pods backoffLimit (backup_program (date_stamp (clock s)))
                (deployment s)) = true ->
  exists s',
    upgrade_process s = (inr tt, s')
    /\ files s' !! "milvus-restore-job.yaml"
       = Some (RestoreJob ("backup-" ++ date_stamp (clock s))
                          (default "" (vars s !! "EKS_NAMESPACE")))
    /\ deployment s'
       = snd (run_pods backoffLimit
                (restore_program ("backup-" ++ date_stamp (clock s)))
                (with_milvus (fun _ => after_upgrade s)
                   (snd (run_pods backoffLimit
                           (backup_program (date_stamp (clock s)))
                           (deployment s))))).
Proof.
  intros Hok. apply wp_run.
  eapply wp_mono; [apply upgrade_process_spec|]. cbv beta zeta.
  rewrite Hok. cbn [orb]. intros r s' (Hr & _ & Hjob & Hd). auto.
Qed.

Lemma fresh_backup_is_restored_witness :
  exists s',
    upgrade_process Sample.before_backup = (inr tt, s')
    /\ files s' !! "milvus-restore-job.yaml"
       = Some (RestoreJob "backup-20240101000000" "").
Proof.
  destruct (fresh_backup_is_restored Sample.before_backup)
    as (s' & Hrun & Hjob & _).
  - vm_compute. reflexivity.
  - exists s'. split; [exact Hrun|]. exact Hjob.
Defined.

(** X17.  After a failed backup that the operator chooses to go on from, the
    script restores from whatever backup-info file is in the working
    directory: a file left by an earlier run makes the restore job run on
    that earlier backup, and without a file nothing is restored and the
    deployment is the upgraded one as it came up. *)
Theorem restore_after_failed_backup (s : shworld) :
  backup_job_fails s ->
  Str.is_yes (next_answer s) = true ->
  exists s',
    upgrade_process s = (inr tt, s')
    /\ (forall old,
          files s !! "milvus-backup-info.env" = Some (BackupInfo old) ->
          files s' !! "milvus-restore-job.yaml"
          = Some (RestoreJob old (default "" (vars s !! "EKS_NAMESPACE")))
          /\ deployment s'
             = snd (run_pods backoffLimit (restore_program old)
                      (with_milvus (fun _ => after_upgrade s)
                         (snd (run_pods backoffLimit
                                 (backup_program (date_stamp (clock s)))
                                 (deployment s))))))
    /\ (files s !! "milvus-backup-info.env" = None ->
        deployment s'
        = with_milvus (fun _ => after_upgrade s)
            (snd (run_pods backoffLimit
                    (backup_program (date_stamp (clock s))) (deployment s)))).
Proof.
  unfold backup_job_fails. intros Hfail Hyes.
  pose proof (upgrade_process_spec s) as H. unfold wp in H.
  destruct (upgrade_process s) as [r s']. cbn [fst snd] in H. cbv zeta in H.
  rewrite Hfail, Hyes in H. cbn [orb] in H. destruct H as (-> & _ & H).
  exists s'. split; [reflexivity|]. split.
  - intros old Hold. rewrite Hold in H. exact H.
  - intros Hnone. rewrite Hnone in H. exact H.
Qed.

Lemma restore_after_failed_backup_witness :
  exists s',
    upgrade_process
      (set_files (insert "milvus-backup-info.env" (BackupInfo "backup-2023"))
                 (Sample.shell ["y"] Sample.unreachable))
    = (inr tt, s')
    /\ files s' !! "milvus-restore-job.yaml"
       = Some (RestoreJob "backup-2023" "").
Proof.
  destruct (restore_after_failed_backup
              (set_files (insert "milvus-backup-info.env"
                                 (BackupInfo "backup-2023"))
                         (Sample.shell ["y"] Sample.unreachable)))
    as (s' & Hrun & Hold & _).
  - vm_compute. reflexivity.
  - reflexivity.
  - exists s'. split; [exact Hrun|].
    apply (Hold "backup-2023"). reflexivity.
Defined.

Lemma check_environment_frame (s : shworld) :
  wp check_environment s
     (fun r s' =>
        clock s' = clock s /\ deployment s' = deployment s
        /\ stdin s' = stdin s /\ calls s' = calls s
        /\ files s' = files s /\ after_upgrade s' = after_upgrade s).
Proof. unfold check_environment. wp_go. all: auto 10. Qed.

Lemma confirm_frame (s : shworld) :
  wp confirm s
     (fun r s' =>
        r = inr (Str.is_yes (next_answer s))
        /\ clock s' = clock s /\ deployment s' = deployment s
        /\ stdin s' = tl (stdin s)
        /\ calls s' = (calls s ++ resource_queries)%list
        /\ files s' = files s /\ after_upgrade s' = after_upgrade s).
Proof.
  unfold confirm, check_cluster_resources, next_answer, resource_queries.
  wp_go. all: rewrite <- ?app_assoc; cbn [hd tl]; auto 10.
Qed.

(** X18.  The exit status of the upgrade script once its checks have passed and
    the operator has agreed to the upgrade.  The script ends with status 1,
    and without a helm upgrade, only when no pod of the backup job
    succeeded and the answer to the second prompt is neither y nor Y.  In
    every other case it runs helm upgrade and goes on to its last line
    with status 0, whatever the restore job and the checks of the
    deployment find. *)
Theorem upgrade_exit_status (s : shworld) :
  preconditions_met s = true ->
  Str.is_yes (next_answer s) = true ->
  calls s = [] ->
  exists s',
    main s
    = (if fst (run_pods backoffLimit (backup_program (date_stamp (clock s)))
                        (deployment s))
          || Str.is_yes (hd "" (tl (stdin s)))
       then inr tt else inl 1%Z, s')
    /\ existsb is_helm_upgrade (calls s')
       = (fst (run_pods backoffLimit (backup_program (date_stamp (clock s)))
                        (deployment s))
          || Str.is_yes (hd "" (tl (stdin s)))).
Proof.
  intros Hpre Hyes Hcalls.
  destruct (check_environment_passes s Hpre) as (s1 & Hrun1 & _).
  pose proof (check_environment_frame s) as H1. unfold wp in H1.
  rewrite Hrun1 in H1. cbn [fst snd] in H1.
  destruct H1 as (Hc1 & Hd1 & Hin1 & Hcalls1 & _).
  pose proof (confirm_frame s1) as H2. unfold wp in H2.
  destruct (confirm s1) as [r2 s2] eqn:Hrun2. cbn [fst snd] in H2.
  destruct H2 as (-> & Hc2 & Hd2 & Hin2 & Hcalls2 & _).
  unfold next_answer in *. rewrite Hin1, Hyes in Hrun2.
  pose proof (upgrade_process_spec s2) as H3. unfold wp in H3.
  destruct (upgrade_process s2) as [r3 s3] eqn:Hrun3. cbn [fst snd] in H3.
  cbv zeta in H3. unfold next_answer in H3.
  rewrite Hc2, Hc1, Hd2, Hd1, Hin2, Hin1 in H3.
  unfold main. rewrite (bind_ok _ _ _ _ _ Hrun1).
  rewrite (bind_ok _ _ _ _ _ Hrun2). cbn [negb].
  destruct (fst (run_pods backoffLimit (backup_program (date_stamp (clock s)))
                          (deployment s))
            || Str.is_yes (hd "" (tl (stdin s)))).
  - destruct H3 as (-> & Hhelm & _).
    rewrite (bind_ok _ _ _ _ _ Hrun3).
    eexists. split; [reflexivity|]. cbn [calls]. exact Hhelm.
  - destruct H3 as (-> & Hhelm).
    rewrite (bind_fail _ _ _ _ _ Hrun3).
    exists s3. split; [reflexivity|].
    rewrite Hhelm, Hcalls2, Hcalls1, Hcalls. reflexivity.
Qed.

Lemma upgrade_exit_status_witness :
  exists s',
    main (Sample.shell ["y"; "n"] Sample.unreachable) = (inl 1%Z, s')
    /\ existsb is_helm_upgrade (calls s') = false.
Proof.
  apply (upgrade_exit_status (Sample.shell ["y"; "n"] Sample.unreachable));
    vm_compute; reflexivity.
Defined.

Lemma check_environment_quiet (s : shworld) :
  String.eqb (default "" (vars s !! "AWS_REGION")) "" = false ->
  String.eqb (default "" (vars s !! "EKS_CLUSTER_NAME")) "" = false ->
  String.eqb (default "" (vars s !! "EKS_NAMESPACE")) "" = false ->
  String.eqb (default "" (vars s !! "MILVUS_BUCKET_NAME")) "" = false ->
  String.eqb (default "" (vars s !! "MILVUS_BACKUP_BUCKET_NAME")) "" = false ->
  String.eqb (default "" (vars s !! "AWS_ACCESS_KEY_ID")) "" = false ->
  String.eqb (default "" (vars s !! "AWS_SECRET_ACCESS_KEY")) "" = false ->
  existsb (String.eqb "aws") (tools s) = true ->
  existsb (String.eqb "kubectl") (tools s) = true ->
  existsb (String.eqb "helm") (tools s) = true ->
  check_environment s = (inr tt, s).
Proof.
  intros V1 V2 V3 V4 V5 V6 V7 T1 T2 T3.
  assert (H : wp check_environment s (fun r s' => r = inr tt /\ s' = s)).
  { unfold check_environment. wp_go. split; [reflexivity|].
    destruct s; reflexivity. }
  unfold wp in H. destruct (check_environment s) as [r s'].
  cbn [fst snd] in H. destruct H as [-> ->]. reflexivity.
Qed.

Lemma check_environment_defaults (s : shworld) :
  preconditions_met s = true ->
  wp check_environment s
     (fun r s' =>
        r = inr tt /\ vars s' = checked_environment (vars s)
        /\ check_environment s' = (inr tt, s')).
Proof.
  intros H.
  unfold preconditions_met, is_set, has_tool in H. cbn [forallb] in H.
  rewrite !andb_true_iff, !negb_true_iff in H.
  destruct H as ((V1 & V2 & V3 & V4 & _) & (T1 & T2 & T3 & _)).
  assert (Hbackup : forall b,
             String.eqb (b ++ "-backup") "" = false).
  { intros [|c b]; reflexivity. }
  unfold check_environment, checked_environment, with_default. wp_go.
  all: repeat match goal with
              | E : String.eqb _ "" = _ |- _ => rewrite E
              end;
       sh_lookup; cbn [from_option id];
       repeat match goal with
              | E : String.eqb _ "" = _ |- _ => rewrite E
              end;
       sh_lookup; cbn [from_option id];
       repeat match goal with
              | E : String.eqb _ "" = _ |- _ => rewrite E
              end.
  all: split; [reflexivity|]; split; [reflexivity|].
  all: apply check_environment_quiet; wp_norm;
       first [assumption | reflexivity | apply Hbackup].
Qed.

(** X19.  When the required variables and tools are there, the checks at the
    top of the upgrade script leave every variable that was set as it was
    and give the three optional ones their defaults: eu-central-1 for
    AWS_REGION, milvus for EKS_NAMESPACE and <MILVUS_BUCKET_NAME>-backup for
    MILVUS_BACKUP_BUCKET_NAME.  Run again in the environment they leave,
    the checks pass without printing or changing anything. *)
Theorem environment_checks_settle (s : shworld) :
  preconditions_met s = true ->
  exists s',
    check_environment s = (inr tt, s')
    /\ vars s' = checked_environment (vars s)
    /\ check_environment s' = (inr tt, s').
Proof.
  intros Hpre. apply wp_run.
  eapply wp_mono; [apply (check_environment_defaults s Hpre)|].
  cbv beta. intros r s' H. exact H.
Qed.

Lemma environment_checks_settle_witness :
  exists s',
    check_environment (Sample.shell [] Sample.unreachable) = (inr tt, s')
    /\ vars s' !! "MILVUS_BACKUP_BUCKET_NAME" = Some "vectors-backup"
    /\ check_environment s' = (inr tt, s').
Proof.
  destruct (environment_checks_settle (Sample.shell [] Sample.unreachable))
    as (s' & Hrun & Hvars & Hagain).
  - vm_compute. reflexivity.
  - exists s'. split; [exact Hrun|]. split; [|exact Hagain].
    rewrite Hvars. vm_compute. reflexivity.
Defined.

(** X20.  What [create_backup] does in every environment.  It calls
    [aws s3 mb] only when head-bucket does not find the bucket, and goes
    on whatever that call answers: the bucket exists afterwards when it
    existed before or the call could make it, and not otherwise.  When a
    pod of the backup job succeeds it records
    backup-<stamp> in the backup-info file and returns without reading
    from the terminal.  Otherwise it fetches the logs of the job, leaves
    the backup-info file as it was, reads one answer, and returns on y or
    Y and ends the script with status 1 on anything else. *)
Theorem create_backup_outcome (s : shworld) :
  exists s',
    create_backup s
    = (if fst (run_pods backoffLimit (backup_program (date_stamp (clock s)))
                        (deployment s))
          || Str.is_yes (next_answer s)
       then inr tt else inl 1%Z, s')
    /\ backup_bucket_exists s'
       = (backup_bucket_exists s
          || mb_succeeds s (default "" (vars s !! "MILVUS_BACKUP_BUCKET_NAME")))
    /\ files s' !! "milvus-backup-info.env"
       = (if fst (run_pods backoffLimit (backup_program (date_stamp (clock s)))
                           (deployment s))
          then Some (BackupInfo ("backup-" ++ date_stamp (clock s)))
          else files s !! "milvus-backup-info.env")
    /\ stdin s'
       = (if fst (run_pods backoffLimit (backup_program (date_stamp (clock s)))
                           (deployment s))
          then stdin s else tl (stdin s))
    /\ calls s'
       = (calls s
          ++ aws_s3api_head_bucket
               (default "" (vars s !! "MILVUS_BACKUP_BUCKET_NAME"))
          :: (if backup_bucket_exists s then []
              else [aws_s3_mb
                      (default "" (vars s !! "MILVUS_BACKUP_BUCKET_NAME"))
                      (default "" (vars s !! "AWS_REGION"))])
          ++ [date_cmd; kubectl_apply "milvus-backup-job.yaml";
              kubectl_wait ("job/milvus-backup-" ++ date_stamp (clock s)) 300;
              kubectl_get ("job " ++ "milvus-backup-" ++ date_stamp (clock s))]
          ++ (if fst (run_pods backoffLimit
                        (backup_program (date_stamp (clock s))) (deployment s))
              then []
              else [kubectl_logs ("job/milvus-backup-"
                                  ++ date_stamp (clock s))]))%list.
Proof.
  pose proof (create_backup_spec s) as H. unfold wp in H.
  destruct (create_backup s) as [r s']. cbn [fst snd] in H. cbv zeta in H.
  destruct H as (-> & Hinfo & Hin & Hbucket & Hcalls & _).
  exists s'. auto.
Qed.

(* ===================================================================== *)
(** * The access bootstrap: what is created, found and attached *)
(* ===================================================================== *)

(** X21.  The EKS access script always ends with the policy attached to the
    role.  A policy or a role that it finds is used as it is: the document
    of the policy and the trust policy of the role are not brought up to
    date, and the role keeps the policies that were attached to it. *)
Theorem eks_admin_access_attaches (a : account) :
  exists p r a',
    eks_admin_access a = (inr (p, r), a')
    /\ settled a' "EksAdminPolicy" "eks-admin-role"
    /\ (forall doc, policies a !! "EksAdminPolicy" = Some doc ->
                    policies a' = policies a)
    /\ (forall old, roles a !! "eks-admin-role" = Some old ->
          roles a' !! "eks-admin-role"
          = Some {| trust_policy := trust_policy old;
                    attached := {[policy_arn a "EksAdminPolicy"]}
                                ∪ attached old |}).
Proof.
  assert (Hwp : wp eks_admin_access a
    (fun res a' => exists p r, res = inr (p, r)
       /\ settled a' "EksAdminPolicy" "eks-admin-role"
       /\ (forall doc, policies a !! "EksAdminPolicy" = Some doc ->
                       policies a' = policies a)
       /\ (forall old, roles a !! "eks-admin-role" = Some old ->
             roles a' !! "eks-admin-role"
             = Some {| trust_policy := trust_policy old;
                       attached := {[policy_arn a "EksAdminPolicy"]}
                                   ∪ attached old |}))).
  { unfold eks_admin_access, settled.
    destruct (policies a !! "EksAdminPolicy") as [doc|] eqn:Hp,
             (roles a !! "eks-admin-role") as [old|] eqn:Hr;
      aws_go; rewrite ?Hp; cbn [attached];
      (do 2 eexists; split; [reflexivity|]);
      (split; [split; [eauto|]; eexists; split; [reflexivity|];
               cbn [attached]; set_solver|]);
      (split; [intros doc' Hdoc'; first [reflexivity|discriminate Hdoc']|]);
      intros old' Hold';
      first [discriminate Hold' | inversion Hold'; subst; reflexivity]. }
  unfold wp in Hwp. destruct (eks_admin_access a) as [res a'].
  cbn [fst snd] in Hwp. destruct Hwp as (p & r & -> & H). exists p, r, a'. auto.
Qed.

Lemma eks_admin_access_attaches_witness :
  exists p r a',
    eks_admin_access Scenario.handmade_roles = (inr (p, r), a')
    /\ roles a' !! "eks-admin-role"
       = Some {| trust_policy := "by hand";
                 attached := {[policy_arn Scenario.handmade_roles
                                          "EksAdminPolicy"]} ∪ ∅ |}.
Proof.
  destruct (eks_admin_access_attaches Scenario.handmade_roles)
    as (p & r & a' & Hrun & _ & _ & Hrole).
  exists p, r, a'. split; [exact Hrun|].
  apply (Hrole {| trust_policy := "by hand"; attached := ∅ |}).
  reflexivity.
Defined.

Lemma lb_controller_access_spec (OIDC_PROVIDER iam_policy_json : string)
    (a : account) :
  wp (lb_controller_access OIDC_PROVIDER iam_policy_json) a
     (fun res a' =>
        exists p r, res = inr (p, r)
          /\ is_Some (policies a' !! POLICY_NAME)
          /\ (forall doc, policies a !! POLICY_NAME = Some doc ->
                          policies a' = policies a)
          /\ match roles a !! ROLE_NAME with
             | Some old =>
                 roles a' = roles a
                 /\ r = Found (role_arn a ROLE_NAME)
                 /\ ~ In (iam_attach_role_policy ROLE_NAME (arn_of p))
                         (skipn (length (iam_calls a)) (iam_calls a'))
             | None =>
                 roles a'
                 = <[ROLE_NAME :=
                       {| trust_policy :=
                            "trust-policy.json for " ++ account_id a
                            ++ ":oidc-provider/" ++ OIDC_PROVIDER;
                          attached := {[policy_arn a POLICY_NAME]} ∪ ∅ |}]>
                     (roles a)
                 /\ r = Created (role_arn a ROLE_NAME)
                 /\ arn_of p = policy_arn a POLICY_NAME
             end).
Proof.
  assert (Hdec : forall (A : Type) (x : A),
             bool_decide (is_Some (Some x)) = true)
    by (intros A x; apply bool_decide_eq_true_2; eauto).
  assert (Hdec' : forall A : Type,
             bool_decide (is_Some (@None A)) = false)
    by (intros A; apply bool_decide_eq_false_2; intros [? H];
        discriminate H).
  unfold lb_controller_access.
  destruct (policies a !! POLICY_NAME) as [doc|] eqn:Hp,
           (roles a !! ROLE_NAME) as [old|] eqn:Hr;
    repeat (aws_step; rewrite ?Hp, ?Hr, ?Hdec, ?Hdec');
    rewrite ?Hp, ?Hr; unfold policy_arn, role_arn; cbn [account_id];
    (do 2 eexists; split; [reflexivity|]);
    cbn [arn_of from_option id];
    (split; [eauto|]);
    (split; [intros doc' Hdoc'; first [reflexivity|discriminate Hdoc']|]).
  all: cbn [trust_policy attached]; rewrite ?insert_insert_eq.
  all: split; [reflexivity|]; split; [reflexivity|].
  all: try reflexivity.
  all: rewrite <- ?app_assoc, skipn_app, skipn_all, Nat.sub_diag;
       cbn [skipn app In]; intuition discriminate.
Qed.

(** X22.  The load balancer controller script attaches its policy only to a role
    that it creates.  When the role is already there the script leaves it
    as it is and makes no attach-role-policy call, even in the run that
    creates the policy: a role made beforehand without the policy is
    still without it afterwards. *)
Theorem existing_role_is_not_attached (OIDC_PROVIDER iam_policy_json : string)
    (a : account) (old : iam_role) :
  roles a !! ROLE_NAME = Some old ->
  exists p a',
    lb_controller_access OIDC_PROVIDER iam_policy_json a
    = (inr (p, Found (role_arn a ROLE_NAME)), a')
    /\ is_Some (policies a' !! POLICY_NAME)
    /\ roles a' = roles a
    /\ ~ In (iam_attach_role_policy ROLE_NAME (arn_of p))
            (skipn (length (iam_calls a)) (iam_calls a')).
Proof.
  intros Hold.
  pose proof (lb_controller_access_spec OIDC_PROVIDER iam_policy_json a) as H.
  unfold wp in H.
  destruct (lb_controller_access OIDC_PROVIDER iam_policy_json a) as [res a'].
  cbn [fst snd] in H. destruct H as (p & r & -> & Hp & _ & H).
  rewrite Hold in H. destruct H as (Hroles & -> & Hcalls).
  exists p, a'. auto.
Qed.

Lemma existing_role_is_not_attached_witness :
  exists p a',
    lb_controller_access "oidc.eks.eu-central-1.amazonaws.com/id/0A1B"
      "iam_policy.json" Scenario.handmade_roles
    = (inr (p, Found (role_arn Scenario.handmade_roles ROLE_NAME)), a')
    /\ is_Some (policies a' !! POLICY_NAME)
    /\ roles a' !! ROLE_NAME
       = Some {| trust_policy := "by hand"; attached := ∅ |}.
Proof.
  destruct (existing_role_is_not_attached
              "oidc.eks.eu-central-1.amazonaws.com/id/0A1B" "iam_policy.json"
              Scenario.handmade_roles
              {| trust_policy := "by hand"; attached := ∅ |})
    as (p & a' & Hrun & Hp & Hroles & _).
  - reflexivity.
  - exists p, a'. split; [exact Hrun|]. split; [exact Hp|].
    rewrite Hroles. reflexivity.
Defined.

(** X23.  When the role is not there, the load balancer controller script
    creates it with a trust policy for the cluster's OIDC provider in the
    caller's account and attaches the policy, which it has created or
    found just before. *)
Theorem missing_role_is_created_and_attached
    (OIDC_PROVIDER iam_policy_json : string) (a : account) :
  roles a !! ROLE_NAME = None ->
  exists p a',
    lb_controller_access OIDC_PROVIDER iam_policy_json a
    = (inr (p, Created (role_arn a ROLE_NAME)), a')
    /\ arn_of p = policy_arn a POLICY_NAME
    /\ is_Some (policies a' !! POLICY_NAME)
    /\ roles a' !! ROLE_NAME
       = Some {| trust_policy :=
                   "trust-policy.json for " ++ account_id a
                   ++ ":oidc-provider/" ++ OIDC_PROVIDER;
                 attached := {[policy_arn a POLICY_NAME]} ∪ ∅ |}
    /\ forall other, other <> ROLE_NAME -> roles a' !! other = roles a !! other.
Proof.
  intros Hnone.
  pose proof (lb_controller_access_spec OIDC_PROVIDER iam_policy_json a) as H.
  unfold wp in H.
  destruct (lb_controller_access OIDC_PROVIDER iam_policy_json a) as [res a'].
  cbn [fst snd] in H. destruct H as (p & r & -> & Hp & _ & H).
  rewrite Hnone in H. destruct H as (Hroles & -> & Harn).
  exists p, a'. split; [reflexivity|]. split; [exact Harn|].
  split; [exact Hp|]. rewrite Hroles. split.
  - apply lookup_insert_eq.
  - intros other Hne. apply lookup_insert_ne. congruence.
Qed.

Lemma missing_role_is_created_and_attached_witness :
  exists p a',
    lb_controller_access "oidc.eks.eu-central-1.amazonaws.com/id/0A1B"
      "iam_policy.json" Scenario.fresh_account
    = (inr (p, Created (role_arn Scenario.fresh_account ROLE_NAME)), a')
    /\ arn_of p = policy_arn Scenario.fresh_account POLICY_NAME
    /\ is_Some (policies a' !! POLICY_NAME).
Proof.
  destruct (missing_role_is_created_and_attached
              "oidc.eks.eu-central-1.amazonaws.com/id/0A1B" "iam_policy.json"
              Scenario.fresh_account)
    as (p & a' & Hrun & Harn & Hp & _).
  - reflexivity.
  - exists p, a'. auto.
Defined.
